(** * valid-jsdoc: the JSDoc validation rule of fecs (lib/js/rules/valid-jsdoc.js)

    A shallow embedding of the rule and the properties of its three parts:
    the stack of open functions ([startFunction], [addReturn]), the tag loop
    of [checkJSDoc] and its cross-check of the documented parameters against
    the function's signature.

    The rule talks to three collaborators: the linter context (its options,
    [getJSDocComment] and the [report] sink), the comment parser
    ([doctrine.parse]) and the traversal that calls the handlers.  Reports
    are collected in the order the rule makes them; a [TypeError] raised by
    reading a property of [null] or [undefined] ends the handler and keeps
    the reports made before it. *)

From Stdlib Require Import List String Ascii ZArith NArith Bool Lia PeanoNat.
Import ListNotations.
Open Scope string_scope.

Set Implicit Arguments.

(* ------------------------------------------------------------------------ *)
(** ** JavaScript primitives used by the rule *)
(* ------------------------------------------------------------------------ *)

Module JS.

(** Numbers the rule computes: integers, and [NaN] from [n + undefined]. *)
Inductive Number :=
| Num (z : Z)
| NaN.

(** [a + b] on numbers. *)
Definition add (a b : Number) : Number :=
  match a, b with
  | Num x, Num y => Num (x + y)
  | _, _ => NaN
  end.

(** [n + undefined]. *)
Definition add_undefined (a : Number) : Number := NaN.

(** Values that reach a report's substitution data. *)
Inductive Value :=
| VStr (s : string)
| VObjectConstructor          (* the function [Object] *)
| VObjectPrototype.           (* [Object.prototype] *)

(** ToBoolean on a string. *)
Definition truthy_string (s : string) : bool :=
  match s with
  | EmptyString => false
  | String _ _ => true
  end.

(** ToBoolean on a property that holds a string, [null] or [undefined]. *)
Definition truthy_opt_string (s : option string) : bool :=
  match s with
  | Some s => truthy_string s
  | None => false
  end.

(** ToBoolean on a property that holds an object, [null] or [undefined]. *)
Definition truthy_object {A : Type} (o : option A) : bool :=
  match o with
  | Some _ => true
  | None => false
  end.

Definition truthy_value (v : Value) : bool :=
  match v with
  | VStr s => truthy_string s
  | _ => true
  end.

(** [s !== v] for a string [s]. *)
Definition string_strict_ne (s : string) (v : Value) : bool :=
  match v with
  | VStr t => negb (String.eqb s t)
  | _ => true
  end.

(** [x !== 'lit'] where [x] is a string or [undefined]. *)
Definition opt_strict_ne (x : option string) (lit : string) : bool :=
  match x with
  | Some s => negb (String.eqb s lit)
  | None => true
  end.

(** [toLowerCase], on the ASCII letters. *)
Definition lower_ascii (c : ascii) : ascii :=
  let n := nat_of_ascii c in
  if (65 <=? n)%nat && (n <=? 90)%nat then ascii_of_nat (n + 32) else c.

Fixpoint toLowerCase (s : string) : string :=
  match s with
  | EmptyString => EmptyString
  | String c s' => String (lower_ascii c) (toLowerCase s')
  end.

(** [hay.indexOf(needle)]: the first index, or -1. *)
Definition indexOf (hay needle : string) : Z :=
  match String.index 0 needle hay with
  | Some i => Z.of_nat i
  | None => (-1)%Z
  end.

(** [s.split(/\n/)]. *)
Definition newline : ascii := ascii_of_nat 10.

Fixpoint split_lines (s : string) : list string :=
  match s with
  | EmptyString => [EmptyString]
  | String c s' =>
      if Ascii.eqb c newline then EmptyString :: split_lines s'
      else match split_lines s' with
           | l :: ls => String c l :: ls
           | [] => [String c EmptyString]
           end
  end.

(** [s.replace(/module:/g, '')]: every match, left to right, is dropped.
    [skip] counts the characters of the current match still to drop. *)
Fixpoint replace_module_from (skip : nat) (s : string) : string :=
  match s with
  | EmptyString => EmptyString
  | String c s' =>
      match skip with
      | S k => replace_module_from k s'
      | O => if String.prefix "module:" s then replace_module_from 6 s'
             else String c (replace_module_from 0 s')
      end
  end.

Definition replace_module (s : string) : string := replace_module_from 0 s.

(** [/braces/i.test(s)]: some substring of [s] is "braces" up to the case
    of its ASCII letters. *)
Fixpoint test_braces_i (s : string) : bool :=
  match s with
  | EmptyString => false
  | String _ s' => String.prefix "braces" (toLowerCase s) || test_braces_i s'
  end.

(** [a[i]] on an array: [undefined] out of range. *)
Definition array_get {A : Type} (a : list A) (i : Z) : option A :=
  if (i <? 0)%Z then None else nth_error a (Z.to_nat i).

(** [a.push(x)]. *)
Definition push {A : Type} (a : list A) (x : A) : list A := (a ++ [x])%list.

(** [a[a.length - 1]]. *)
Definition top {A : Type} (a : list A) : option A :=
  array_get a (Z.of_nat (List.length a) - 1).

(** [a.pop()]: the removed last element ([undefined] on an empty array)
    and the array that is left. *)
Definition pop {A : Type} (a : list A) : option A * list A :=
  (top a, removelast a).

(** Replaces the last element of a non-empty array. *)
Definition set_top {A : Type} (a : list A) (x : A) : list A :=
  match a with
  | [] => []
  | _ :: _ => (removelast a ++ [x])%list
  end.

(** *** Objects used as maps, in property creation order *)

Definition Obj (V : Type) : Type := list (string * V).

Fixpoint get {V : Type} (o : Obj V) (k : string) : option V :=
  match o with
  | [] => None
  | (k', v) :: o' => if String.eqb k' k then Some v else get o' k
  end.

(** [o[k] = v]: an existing property keeps its place. *)
Fixpoint set {V : Type} (o : Obj V) (k : string) (v : V) : Obj V :=
  match o with
  | [] => [(k, v)]
  | (k', v') :: o' =>
      if String.eqb k' k then (k', v) :: o' else (k', v') :: set o' k v
  end.

(** Array-index property names: canonical decimal numerals below 2^32-1. *)
Definition digit_of (c : ascii) : option N :=
  let n := N_of_ascii c in
  if (48 <=? n)%N && (n <=? 57)%N then Some (n - 48)%N else None.

Fixpoint parse_digits (acc : N) (s : string) : option N :=
  match s with
  | EmptyString => Some acc
  | String c s' =>
      match digit_of c with
      | Some d => parse_digits (acc * 10 + d)%N s'
      | None => None
      end
  end.

Definition array_index (s : string) : option N :=
  match s with
  | EmptyString => None
  | String c s' =>
      if Ascii.eqb c "0"%char && negb (String.eqb s' EmptyString) then None
      else match parse_digits 0%N s with
           | Some n => if (n <=? 4294967294)%N then Some n else None
           | None => None
           end
  end.

Fixpoint insert_index (k : N * string) (l : list (N * string))
  : list (N * string) :=
  match l with
  | [] => [k]
  | k' :: l' =>
      if (fst k <=? fst k')%N then k :: l else k' :: insert_index k l'
  end.

Fixpoint index_keys (ks : list string) : list (N * string) :=
  match ks with
  | [] => []
  | k :: ks' =>
      match array_index k with
      | Some n => insert_index (n, k) (index_keys ks')
      | None => index_keys ks'
      end
  end.

Definition is_index_key (k : string) : bool :=
  match array_index k with
  | Some _ => true
  | None => false
  end.

(** [Object.keys(o)]: the array-index names in ascending numeric order,
    then the other names in creation order. *)
Definition keys {V : Type} (o : Obj V) : list string :=
  let ks := List.map fst o in
  (List.map snd (index_keys ks)
     ++ List.filter (fun k => negb (is_index_key k)) ks)%list.

End JS.

(* ------------------------------------------------------------------------ *)
(** ** Data the rule reads and writes *)
(* ------------------------------------------------------------------------ *)

(** Kinds of doctrine type expressions other than a plain name.  The rule
    never looks inside them; none of them has a [name] property. *)
Inductive Syntax :=
| NullableLiteral | AllLiteral | NullLiteral | UndefinedLiteral | VoidLiteral
| UnionType | ArrayType | RecordType | FieldType | FunctionType
| RestType | NonNullableType | OptionalType | NullableType | TypeApplication.

(** [tag.type] when it is present. *)
Inductive TypeExpression :=
| NameExpression (name : string)
| OtherExpression (kind : Syntax).

(** [type.name]: a string, or [undefined]. *)
Definition type_name (t : TypeExpression) : option string :=
  match t with
  | NameExpression n => Some n
  | OtherExpression _ => None
  end.

(** One parsed tag.  [tag_type] and [tag_description] are [None] for [null]
    or [undefined].  [tag_name] is read for [param] tags only, which doctrine
    always gives a name. *)
Record Tag := {
  tag_title : string;
  tag_name : string;
  tag_type : option TypeExpression;
  tag_description : option string;
  tag_lineNumber : Z
}.

(** The comment node: its text and where it starts. *)
Record Comment := {
  value : string;
  loc_start_line : Z;
  loc_start_column : Z
}.

(** A function node: its position identifies it; [node_params] holds the
    [name] of each parameter. *)
Record FunctionNode := {
  node_start : Z;
  node_params : list string
}.

Inductive Expression := Expr (source : string).

(** A return statement: [argument] is [null] for a bare [return;]. *)
Record ReturnStatement := {
  argument : option Expression
}.

(** The rule's options object; an absent property is [None]. *)
Record Options := {
  opt_prefer : option (JS.Obj string);
  opt_requireReturn : option bool;
  opt_requireParamDescription : option bool
}.

(** What doctrine.parse does with a comment text: the tags, or an exception
    with a message. *)
Inductive ParseResult :=
| Parsed (tags : list Tag)
| ParseError (message : string).

(** The linter context: [context.options[0]] and [context.getJSDocComment]. *)
Record Context := {
  options0 : option Options;
  getJSDocComment : FunctionNode -> option Comment
}.

(** The optional location argument of [context.report]. *)
Record Location := {
  line : JS.Number;
  column : option JS.Number
}.

(** One call of [context.report(node, [location,] message [, data])]. *)
Record Report := {
  node : Comment;
  location : option Location;
  message : string;
  data : list (string * JS.Value)
}.

(** An entry of the stack of open functions. *)
Record FunctionState := {
  returnPresent : bool
}.

Inductive Exception :=
| TypeError (reading : string).

Inductive Completion (A : Type) :=
| Normal (a : A)
| Throw (e : Exception).

Arguments Throw {A} e.

(** A computation that reports and may throw: the reports made, in order,
    and how it ended. *)
Definition M (A : Type) : Type := list Report * Completion A.

Definition ret {A : Type} (a : A) : M A := ([], Normal a).

Definition bind {A B : Type} (m : M A) (f : A -> M B) : M B :=
  match m with
  | (w, Normal a) => let (w', r) := f a in ((w ++ w')%list, r)
  | (w, Throw e) => (w, Throw e)
  end.

Definition throw {A : Type} (e : Exception) : M A := ([], Throw e).

Definition report_call (r : Report) : M unit := ([r], Normal tt).

Definition when (b : bool) (m : M unit) : M unit := if b then m else ret tt.

(** Reading a property of [o]: a [TypeError] when [o] is [null] or
    [undefined]. *)
Definition deref {A : Type} (o : option A) (what : string) : M A :=
  match o with
  | Some a => ret a
  | None => throw (TypeError what)
  end.

(** [a && b], where [b] is evaluated only if [a] is true. *)
Definition andM (a : M bool) (b : M bool) : M bool :=
  bind a (fun x => if x then b else ret false).

(** [a || b], where [b] is evaluated only if [a] is false. *)
Definition orM (a : M bool) (b : M bool) : M bool :=
  bind a (fun x => if x then ret true else b).

Declare Scope js_scope.
Delimit Scope js_scope with js.
Notation "x <- m ;; k" := (bind m (fun x => k))
  (at level 61, m at next level, right associativity) : js_scope.
Notation "m ;; k" := (bind m (fun _ => k))
  (at level 61, right associativity) : js_scope.

(** The message templates, as the rule spells them. *)
Module Msg.
Definition dq : string := String (ascii_of_nat 34) EmptyString.

Definition missing_brace := "JSDoc type missing brace.".
Definition syntax_error := "JSDoc syntax error.".
Definition missing_param_type : string :=
  Eval cbv in "Missing JSDoc parameter type for " ++ dq ++ "{{name}}" ++ dq ++ ".".
Definition missing_param_description : string :=
  Eval cbv in "Missing JSDoc parameter description for " ++ dq ++ "{{name}}" ++ dq ++ ".".
Definition duplicate_param : string :=
  Eval cbv in "Duplicate JSDoc parameter " ++ dq ++ "{{name}}" ++ dq ++ ".".
Definition unexpected_return (title : string) : string :=
  "Unexpected @" ++ title ++ " tag; function has no return statement.".
Definition missing_return_type := "Missing JSDoc return type.".
Definition missing_return_description := "Missing JSDoc return description.".
Definition use_instead := "Use @{{name}} instead.".
Definition expected_type_name : string :=
  Eval cbv in "Expected JSDoc type name " ++ dq ++ "{{name}}" ++ dq
              ++ " but found " ++ dq ++ "{{jsdocName}}" ++ dq ++ ".".
Definition missing_return := "Missing JSDoc @return for function.".
Definition expected_param : string :=
  Eval cbv in "Expected JSDoc for " ++ dq ++ "{{name}}" ++ dq
              ++ " but found " ++ dq ++ "{{jsdocName}}" ++ dq ++ ".".
Definition missing_param : string :=
  Eval cbv in "Missing JSDoc for parameter " ++ dq ++ "{{name}}" ++ dq ++ ".".
End Msg.

(** The variables local to one call of [checkJSDoc]; [params] starts as
    [Object.create(null)]. *)
Record Locals := {
  hasReturns : bool;
  hasConstructor : bool;
  params : JS.Obj Tag
}.

Definition set_hasReturns (st : Locals) (b : bool) : Locals :=
  {| hasReturns := b; hasConstructor := hasConstructor st; params := params st |}.

Definition set_hasConstructor (st : Locals) (b : bool) : Locals :=
  {| hasReturns := hasReturns st; hasConstructor := b; params := params st |}.

Definition set_params (st : Locals) (ps : JS.Obj Tag) : Locals :=
  {| hasReturns := hasReturns st; hasConstructor := hasConstructor st; params := ps |}.

Definition Stack : Type := list FunctionState.

(** The preferred spellings of the type names. *)
Definition type_map : JS.Obj string :=
  [ ("string", "string"); ("boolean", "boolean"); ("number", "number");
    ("int", "number"); ("array", "Array"); ("function", "Function");
    ("date", "Date"); ("object", "Object"); ("regexp", "RegExp") ].

(** [map[key]] for a lower-case [key].  [map] is an object literal, so a key
    it does not own is looked up in [Object.prototype], whose lower-case
    property names are [constructor] and [__proto__]. *)
Definition map_get (key : string) : option JS.Value :=
  match JS.get type_map key with
  | Some v => Some (JS.VStr v)
  | None =>
      if String.eqb key "constructor" then Some JS.VObjectConstructor
      else if String.eqb key "__proto__" then Some JS.VObjectPrototype
      else None
  end.

(* ------------------------------------------------------------------------ *)
(** ** The rule *)
(* ------------------------------------------------------------------------ *)

Section Rule.

Variable context : Context.
Variable doctrine_parse : string -> ParseResult.

Local Open Scope js_scope.

(** [context.options[0] || {}] *)
Definition options : Options :=
  match options0 context with
  | Some o => o
  | None => {| opt_prefer := None; opt_requireReturn := None;
               opt_requireParamDescription := None |}
  end.

(** [options.prefer || {}] *)
Definition prefer : JS.Obj string :=
  match opt_prefer options with
  | Some p => p
  | None => []
  end.

(** [options.requireReturn !== false] *)
Definition requireReturn : bool :=
  match opt_requireReturn options with
  | Some false => false
  | _ => true
  end.

(** [options.requireParamDescription !== false] *)
Definition requireParamDescription : bool :=
  match opt_requireParamDescription options with
  | Some false => false
  | _ => true
  end.

(** [fns.push({returnPresent: false})] *)
Definition startFunction (fns : Stack) : M unit * Stack :=
  (ret tt, JS.push fns {| returnPresent := false |}).

Definition addReturn (node : ReturnStatement) (fns : Stack) : M unit * Stack :=
  let functionState := JS.top fns in
  match functionState, argument node with
  | Some _, Some _ => (ret tt, JS.set_top fns {| returnPresent := true |})
  | _, _ => (ret tt, fns)
  end.

Section Comment.

Variable jsdocNode : Comment.
Variable functionData : option FunctionState.

Definition startLine : Z := loc_start_line jsdocNode.
Definition startColumn : Z := loc_start_column jsdocNode + 1.
Definition lines : list string := JS.split_lines (value jsdocNode).

(** [{line: startLine + tag.lineNumber}] *)
Definition tag_line (tag : Tag) : Location :=
  {| line := JS.add (JS.Num startLine) (JS.Num (tag_lineNumber tag));
     column := None |}.

Definition report_at (loc : option Location) (msg : string)
           (d : list (string * JS.Value)) : M unit :=
  report_call {| node := jsdocNode; location := loc; message := msg; data := d |}.

(** [functionData.returnPresent] *)
Definition read_returnPresent : M bool :=
  fd <- deref functionData "returnPresent" ;; ret (returnPresent fd).

(** [tag.type.name !== lit] *)
Definition type_name_ne (tag : Tag) (lit : string) : M bool :=
  ty <- deref (tag_type tag) "name" ;; ret (JS.opt_strict_ne (type_name ty) lit).

(** [case 'param'] *)
Definition check_param (tag : Tag) (st : Locals) : M Locals :=
  when (negb (JS.truthy_object (tag_type tag)))
    (report_at (Some (tag_line tag)) Msg.missing_param_type
       [("name", JS.VStr (tag_name tag))]) ;;
  when (negb (JS.truthy_opt_string (tag_description tag)) && requireParamDescription)
    (report_at (Some (tag_line tag)) Msg.missing_param_description
       [("name", JS.VStr (tag_name tag))]) ;;
  if JS.truthy_object (JS.get (params st) (tag_name tag)) then
    report_at (Some (tag_line tag)) Msg.duplicate_param
      [("name", JS.VStr (tag_name tag))] ;;
    ret st
  else if (JS.indexOf (tag_name tag) "." =? -1)%Z then
    ret (set_params st (JS.set (params st) (tag_name tag) tag))
  else ret st.

(** [case 'return'], [case 'returns'] *)
Definition check_return (tag : Tag) (st : Locals) : M Locals :=
  let st' := set_hasReturns st true in
  unexpected <-
    andM (ret (negb requireReturn))
      (andM (b <- read_returnPresent ;; ret (negb b))
         (andM (type_name_ne tag "void") (type_name_ne tag "undefined"))) ;;
  (if unexpected : bool then
     report_at (Some (tag_line tag)) (Msg.unexpected_return (tag_title tag)) []
   else
     when (negb (JS.truthy_object (tag_type tag)))
       (report_at (Some (tag_line tag)) Msg.missing_return_type []) ;;
     b <- andM (type_name_ne tag "void")
            (ret (negb (JS.truthy_opt_string (tag_description tag)))) ;;
     when b (report_at (Some (tag_line tag)) Msg.missing_return_description [])) ;;
  ret st'.

(** [switch (tag.title)] *)
Definition check_title (tag : Tag) (st : Locals) : M Locals :=
  if String.eqb (tag_title tag) "param" then check_param tag st
  else if String.eqb (tag_title tag) "return"
          || String.eqb (tag_title tag) "returns" then check_return tag st
  else if String.eqb (tag_title tag) "constructor" then
    ret (set_hasConstructor st true)
  else ret st.

(** The tag preference check.  [prefer.hasOwnProperty] is read from the
    options' object itself: when [prefer] has a key [hasOwnProperty], the
    property is the title stored under it, and calling it is a
    [TypeError]. *)
Definition check_prefer (tag : Tag) : M unit :=
  match JS.get prefer "hasOwnProperty" with
  | Some _ => throw (TypeError "hasOwnProperty")
  | None =>
      match JS.get prefer (tag_title tag) with
      | Some preferred =>
          report_at (Some (tag_line tag)) Msg.use_instead
            [("name", JS.VStr preferred)]
      | None => ret tt
      end
  end.

(** The type name check. *)
Definition check_type_name (tag : Tag) : M unit :=
  match tag_type tag with
  | Some (NameExpression name) =>
      match map_get (JS.toLowerCase name) with
      | Some perferName =>
          if JS.truthy_value perferName && JS.string_strict_ne name perferName then
            l <- deref (JS.array_get lines (tag_lineNumber tag)) "indexOf" ;;
            report_at
              (Some {| line := JS.add (JS.Num startLine) (JS.Num (tag_lineNumber tag));
                       column := Some (JS.add (JS.Num startColumn)
                                         (JS.Num (JS.indexOf l name))) |})
              Msg.expected_type_name
              [("name", perferName); ("jsdocName", JS.VStr name)]
          else ret tt
      | None => ret tt
      end
  | _ => ret tt
  end.

(** The body of [jsdoc.tags.forEach]. *)
Definition check_tag (tag : Tag) (st : Locals) : M Locals :=
  st' <- check_title tag st ;;
  check_prefer tag ;;
  check_type_name tag ;;
  ret st'.

Fixpoint forEach_tags (tags : list Tag) (st : Locals) : M Locals :=
  match tags with
  | [] => ret st
  | tag :: rest => st' <- check_tag tag st ;; forEach_tags rest st'
  end.

(** The check for functions missing [@returns]. *)
Definition check_missing_return (st : Locals) : M unit :=
  if negb (hasReturns st) && negb (hasConstructor st) then
    b <- orM (ret requireReturn) read_returnPresent ;;
    when b (report_at None Msg.missing_return [])
  else ret tt.

(** The body of [node.params.forEach], for the parameter [name] at
    index [i]. *)
Definition check_real_param (ps : JS.Obj Tag) (jsdocParams : list string)
           (i : nat) (name : string) : M unit :=
  let missing :=
    when (negb (JS.truthy_object (JS.get ps name)))
      (report_at None Msg.missing_param [("name", JS.VStr name)]) in
  match nth_error jsdocParams i with
  | Some documented =>
      if JS.truthy_string documented && negb (String.eqb name documented) then
        report_at
          (Some {| line := JS.add_undefined (JS.Num startLine); column := None |})
          Msg.expected_param
          [("name", JS.VStr name); ("jsdocName", JS.VStr documented)]
      else missing
  | None => missing
  end.

Fixpoint forEach_params (ps : JS.Obj Tag) (jsdocParams : list string)
         (i : nat) (real : list string) : M unit :=
  match real with
  | [] => ret tt
  | name :: rest =>
      check_real_param ps jsdocParams i name ;;
      forEach_params ps jsdocParams (S i) rest
  end.

(** What [checkJSDoc] does once the comment is parsed. *)
Definition check_parsed (tags : list Tag) (real : list string) : M unit :=
  st <- forEach_tags tags
          {| hasReturns := false; hasConstructor := false; params := [] |} ;;
  check_missing_return st ;;
  forEach_params (params st) (JS.keys (params st)) 0 real.

(** The [catch] clause. *)
Definition check_parse_error (ex_message : string) : M unit :=
  if JS.test_braces_i ex_message then report_at None Msg.missing_brace []
  else report_at None Msg.syntax_error [].

End Comment.

Definition checkJSDoc (node : FunctionNode) (fns : Stack) : M unit * Stack :=
  let jsdocNode := getJSDocComment context node in
  let (functionData, fns') := JS.pop fns in
  (match jsdocNode with
   | Some c =>
       match doctrine_parse (JS.replace_module (value c)) with
       | ParseError ex_message => check_parse_error c ex_message
       | Parsed tags => check_parsed c functionData tags (node_params node)
       end
   | None => ret tt
   end, fns').

(** *** The traversal *)

Inductive Event :=
| FunctionEnter (node : FunctionNode)
| ReturnSeen (node : ReturnStatement)
| FunctionExit (node : FunctionNode).

Definition handle (e : Event) (fns : Stack) : M unit * Stack :=
  match e with
  | FunctionEnter _ => startFunction fns
  | ReturnSeen r => addReturn r fns
  | FunctionExit n => checkJSDoc n fns
  end.

(** The handlers called in order from the stack [fns]; an exception ends
    the traversal. *)
Fixpoint run (evs : list Event) (fns : Stack) : M unit * Stack :=
  match evs with
  | [] => (ret tt, fns)
  | e :: rest =>
      match handle e fns with
      | ((w, Normal _), fns') =>
          let '((w', r), fns'') := run rest fns' in ((w ++ w')%list, r, fns'')
      | ((w, Throw ex), fns') => ((w, Throw ex), fns')
      end
  end.

End Rule.

(* ------------------------------------------------------------------------ *)
(** ** Notions used to state the properties *)
(* ------------------------------------------------------------------------ *)

(** The number of reports with the message [msg]. *)
Definition count_message (msg : string) (rs : list Report) : nat :=
  List.length (List.filter (fun r => String.eqb (message r) msg) rs).

(** The report is the missing-parameter diagnostic for [name]. *)
Definition is_missing_param_for (name : string) (r : Report) : bool :=
  String.eqb (message r) Msg.missing_param
  && match data r with
     | [(k, JS.VStr v)] => String.eqb k "name" && String.eqb v name
     | _ => false
     end.

(** The tag has one of the two spellings of the return tag. *)
Definition is_return_title (t : string) : bool :=
  String.eqb t "return" || String.eqb t "returns".

(** The number of functions open after the events [evs], when [d] were open
    before: every entered function is open until its exit. *)
Fixpoint open_functions (evs : list Event) (d : nat) : nat :=
  match evs with
  | [] => d
  | FunctionEnter _ :: rest => open_functions rest (S d)
  | ReturnSeen _ :: rest => open_functions rest d
  | FunctionExit _ :: rest => open_functions rest (Nat.pred d)
  end.

(** The events of a well-nested piece of a traversal: return statements and
    whole functions, each entered and left with its body in between. *)
Inductive balanced : list Event -> Prop :=
| balanced_nil : balanced []
| balanced_return (r : ReturnStatement) (evs : list Event) :
    balanced evs -> balanced (ReturnSeen r :: evs)
| balanced_function (n : FunctionNode) (body evs : list Event) :
    balanced body -> balanced evs ->
    balanced (FunctionEnter n :: body ++ FunctionExit n :: evs)%list.

(** The registry the tag loop starts from. *)
Definition no_locals : Locals :=
  {| hasReturns := false; hasConstructor := false; params := [] |}.

(** The diagnostics of [checkJSDoc], spelled out. *)
Definition diagnostic (c : Comment) (loc : option Location) (msg : string)
           (d : list (string * JS.Value)) : Report :=
  {| node := c; location := loc; message := msg; data := d |}.

Definition at_line (n : Z) : option Location :=
  Some {| line := JS.Num n; column := None |}.

Definition at_line_column (n k : Z) : option Location :=
  Some {| line := JS.Num n; column := Some (JS.Num k) |}.

(** Every report of the computation satisfies [P]. *)
Definition emits (P : Report -> Prop) {A : Type} (m : M A) : Prop :=
  Forall P (fst m).

(** The messages the tag loop can report. *)
Definition tag_phase_message (m : string) : bool :=
  String.prefix "Unexpected @" m
  || existsb (String.eqb m)
       [ Msg.missing_param_type; Msg.missing_param_description;
         Msg.duplicate_param; Msg.missing_return_type;
         Msg.missing_return_description; Msg.use_instead;
         Msg.expected_type_name ].

Definition tag_report (r : Report) : Prop :=
  tag_phase_message (message r) = true.

(* ------------------------------------------------------------------------ *)
(** ** Sample inputs *)
(* ------------------------------------------------------------------------ *)

Module Sample.
Definition silent : Context :=
  {| options0 := None; getJSDocComment := fun _ => None |}.
Definition no_parser : string -> ParseResult := fun _ => Parsed [].
Definition f : FunctionNode := {| node_start := 0; node_params := ["x"] |}.
Definition g : FunctionNode := {| node_start := 20; node_params := [] |}.
Definition return_value : ReturnStatement := {| argument := Some (Expr "x + 1") |}.
Definition return_bare : ReturnStatement := {| argument := None |}.

Definition defaults : option Options := None.
Definition lenient : option Options :=
  Some {| opt_prefer := None; opt_requireReturn := Some false;
          opt_requireParamDescription := None |}.
Definition documented (o : option Options) (c : Comment) : Context :=
  {| options0 := o; getJSDocComment := fun _ => Some c |}.
Definition parser (tags : list Tag) : string -> ParseResult := fun _ => Parsed tags.
Definition broken (msg : string) : string -> ParseResult := fun _ => ParseError msg.
Definition comment_of (text : string) : Comment :=
  {| value := text; loc_start_line := 3; loc_start_column := 4 |}.
Definition open_function : Stack := [{| returnPresent := false |}].
Definition add : FunctionNode := {| node_start := 0; node_params := ["a"; "b"] |}.
Definition prefers_return : option Options :=
  Some {| opt_prefer := Some [("returns", "return")]; opt_requireReturn := None;
          opt_requireParamDescription := None |}.

Definition param_tag (name : string) (type : option TypeExpression) : Tag :=
  {| tag_title := "param"; tag_name := name; tag_type := type;
     tag_description := Some "the value"; tag_lineNumber := 0 |}.
Definition return_untyped : Tag :=
  {| tag_title := "return"; tag_name := EmptyString; tag_type := None;
     tag_description := Some "the sum"; tag_lineNumber := 0 |}.
Definition returns_number : Tag :=
  {| tag_title := "returns"; tag_name := EmptyString; tag_type := Some (NameExpression "number");
     tag_description := Some "the sum"; tag_lineNumber := 0 |}.
Definition returns_void : Tag :=
  {| tag_title := "returns"; tag_name := EmptyString;
     tag_type := Some (NameExpression "void");
     tag_description := None; tag_lineNumber := 0 |}.
End Sample.

(* ------------------------------------------------------------------------ *)
(** ** Notions for the properties of the whole rule *)
(* ------------------------------------------------------------------------ *)

(** A return statement with an argument stands in the body of the function
    on top, not in a function nested in it; [d] counts the nested functions
    entered and not yet left. *)
Fixpoint direct_return (d : nat) (evs : list Event) : bool :=
  match evs with
  | [] => false
  | FunctionEnter _ :: rest => direct_return (S d) rest
  | FunctionExit _ :: rest => direct_return (Nat.pred d) rest
  | ReturnSeen r :: rest =>
      (Nat.eqb d 0 && JS.truthy_object (argument r)) || direct_return d rest
  end.

Definition is_param (t : Tag) : bool := String.eqb (tag_title t) "param".

(** The name has no dot: it names a parameter, not a property of one. *)
Definition undotted (name : string) : bool := (JS.indexOf name "." =? -1)%Z.

(** The names of the list, each at the place of its first occurrence. *)
Fixpoint first_occurrences (names : list string) : list string :=
  match names with
  | [] => []
  | n :: rest =>
      n :: List.filter (fun m => negb (String.eqb m n)) (first_occurrences rest)
  end.

(** The undotted names of the param tags, in the order of the tags. *)
Definition param_names (tags : list Tag) : list string :=
  List.filter undotted (List.map tag_name (List.filter is_param tags)).

(** The number of line breaks of a text. *)
Fixpoint newlines (s : string) : nat :=
  match s with
  | EmptyString => 0
  | String c s' => (if Ascii.eqb c JS.newline then 1 else 0) + newlines s'
  end.

(** The tag is a param tag without a type. *)
Definition param_without_type (t : Tag) : bool :=
  is_param t && negb (JS.truthy_object (tag_type t)).

(** The tag is a param tag without a description. *)
Definition param_without_description (t : Tag) : bool :=
  is_param t && negb (JS.truthy_opt_string (tag_description t)).

(** The tag's title is one the options prefer another title to. *)
Definition disfavoured (ctx : Context) (t : Tag) : bool :=
  JS.truthy_object (JS.get (prefer ctx) (tag_title t)).

(** The tag's type is a plain name that [map] has another value for. *)
Definition misspelled_type (t : Tag) : bool :=
  match tag_type t with
  | Some (NameExpression name) =>
      match map_get (JS.toLowerCase name) with
      | Some v => JS.truthy_value v && JS.string_strict_ne name v
      | None => false
      end
  | _ => false
  end.

(** The report carries a message that starts with [Unexpected @]. *)
Definition is_unexpected (r : Report) : bool :=
  String.prefix "Unexpected @" (message r).

Module Cases.
Definition outer : FunctionNode := {| node_start := 0; node_params := [] |}.
Definition inner : FunctionNode := {| node_start := 10; node_params := ["y"] |}.
Definition comment : Comment :=
  {| value := "* the function"; loc_start_line := 7; loc_start_column := 2 |}.
Definition tag (title name : string) (type : option TypeExpression)
           (description : option string) : Tag :=
  {| tag_title := title; tag_name := name; tag_type := type;
     tag_description := description; tag_lineNumber := 0 |}.
Definition ctx (o : option Options) : Context :=
  {| options0 := o; getJSDocComment := fun _ => Some comment |}.
Definition terse : option Options :=
  Some {| opt_prefer := None; opt_requireReturn := None;
          opt_requireParamDescription := Some false |}.
Definition shadowing : option Options :=
  Some {| opt_prefer := Some [("hasOwnProperty", "x")]; opt_requireReturn := None;
          opt_requireParamDescription := None |}.
End Cases.

(* ------------------------------------------------------------------------ *)
(** * Properties *)
(* ------------------------------------------------------------------------ *)

Unset Implicit Arguments.
Local Open Scope list_scope.

(* ------------------------------------------------------------------------ *)
(** ** Arrays used as stacks *)
(* ------------------------------------------------------------------------ *)

Lemma top_nil {A : Type} : JS.top (@nil A) = None.
Proof. reflexivity. Qed.

Lemma top_push {A : Type} (a : list A) (x : A) : JS.top (a ++ [x]) = Some x.
Proof.
  unfold JS.top, JS.array_get.
  rewrite length_app; simpl.
  replace (Z.of_nat (List.length a + 1) - 1)%Z with (Z.of_nat (List.length a)) by lia.
  destruct (Z.ltb_spec (Z.of_nat (List.length a)) 0); [lia|].
  rewrite Nat2Z.id, nth_error_app2, Nat.sub_diag by lia.
  reflexivity.
Qed.

Lemma stack_cases {A : Type} (a : list A) :
  a = [] \/ exists below x, a = (below ++ [x])%list.
Proof.
  induction a as [|y a IH] using rev_ind; [left; reflexivity|].
  right. exists a, y. reflexivity.
Qed.

Lemma set_top_push {A : Type} (a : list A) (x y : A) :
  JS.set_top (a ++ [x]) y = (a ++ [y])%list.
Proof.
  unfold JS.set_top.
  destruct (a ++ [x])%list eqn:E.
  - destruct a; discriminate.
  - rewrite <- E, removelast_last. reflexivity.
Qed.

Lemma pop_push {A : Type} (a : list A) (x : A) :
  JS.pop (JS.push a x) = (Some x, a).
Proof.
  unfold JS.pop, JS.push. rewrite top_push, removelast_last. reflexivity.
Qed.

(* ------------------------------------------------------------------------ *)
(** ** The stack of open functions *)
(* ------------------------------------------------------------------------ *)

Lemma addReturn_quiet (r : ReturnStatement) (fns : Stack) :
  fst (addReturn r fns) = ret tt.
Proof.
  unfold addReturn. destruct (JS.top fns), (argument r); reflexivity.
Qed.

Lemma addReturn_bare (r : ReturnStatement) (fns : Stack) :
  argument r = None -> snd (addReturn r fns) = fns.
Proof.
  intros H. unfold addReturn. rewrite H. destruct (JS.top fns); reflexivity.
Qed.

Lemma addReturn_empty (r : ReturnStatement) : snd (addReturn r []) = [].
Proof. reflexivity. Qed.

Lemma addReturn_value (r : ReturnStatement) (below : Stack) (top : FunctionState) :
  argument r <> None ->
  snd (addReturn r (below ++ [top])) = (below ++ [{| returnPresent := true |}])%list.
Proof.
  intros H. unfold addReturn. rewrite top_push.
  destruct (argument r); [|contradiction].
  simpl. apply set_top_push.
Qed.

Lemma addReturn_push (r : ReturnStatement) (below : Stack) (top : FunctionState) :
  exists top', snd (addReturn r (below ++ [top])) = (below ++ [top'])%list.
Proof.
  destruct (argument r) eqn:E.
  - eexists. apply addReturn_value. congruence.
  - exists top. now apply addReturn_bare.
Qed.

Lemma addReturn_removelast (r : ReturnStatement) (fns : Stack) :
  removelast (snd (addReturn r fns)) = removelast fns.
Proof.
  destruct (stack_cases fns) as [->|(below & top & ->)]; [reflexivity|].
  destruct (addReturn_push r below top) as [top' ->].
  now rewrite !removelast_last.
Qed.

Lemma addReturn_length (r : ReturnStatement) (fns : Stack) :
  List.length (snd (addReturn r fns)) = List.length fns.
Proof.
  destruct (stack_cases fns) as [->|(below & top & ->)]; [reflexivity|].
  destruct (addReturn_push r below top) as [top' ->].
  now rewrite !length_app.
Qed.

Lemma checkJSDoc_pops (ctx : Context) (parse : string -> ParseResult)
      (n : FunctionNode) (fns : Stack) :
  snd (checkJSDoc ctx parse n fns) = removelast fns.
Proof. reflexivity. Qed.

Lemma checkJSDoc_no_comment (ctx : Context) (parse : string -> ParseResult)
      (n : FunctionNode) (fns : Stack) :
  getJSDocComment ctx n = None ->
  fst (checkJSDoc ctx parse n fns) = ([], Normal tt).
Proof. intros H. unfold checkJSDoc. simpl. now rewrite H. Qed.

Section Traversal.

Variable ctx : Context.
Variable parse : string -> ParseResult.

Lemma run_cons (e : Event) (evs : list Event) (fns : Stack) :
  run ctx parse (e :: evs) fns =
  match handle ctx parse e fns with
  | (w, Normal _, fns1) =>
      let '(w', r, fns2) := run ctx parse evs fns1 in ((w ++ w')%list, r, fns2)
  | (w, Throw ex, fns1) => (w, Throw ex, fns1)
  end.
Proof. reflexivity. Qed.

Lemma run_enter (n : FunctionNode) (evs : list Event) (fns : Stack) :
  run ctx parse (FunctionEnter n :: evs) fns =
  run ctx parse evs (fns ++ [{| returnPresent := false |}]).
Proof.
  rewrite run_cons. cbn [handle]. unfold startFunction, ret, JS.push.
  now destruct (run ctx parse evs _) as [[w r] fns2].
Qed.

Lemma run_app (evs1 evs2 : list Event) (fns : Stack) :
  run ctx parse (evs1 ++ evs2) fns =
  match run ctx parse evs1 fns with
  | (w, Normal _, fns1) =>
      let '(w', r, fns2) := run ctx parse evs2 fns1 in ((w ++ w')%list, r, fns2)
  | (w, Throw ex, fns1) => (w, Throw ex, fns1)
  end.
Proof.
  revert fns. induction evs1 as [|e evs1 IH]; intros fns; simpl.
  - destruct (run ctx parse evs2 fns) as [[w' r] fns2]. reflexivity.
  - destruct (handle ctx parse e fns) as [[w [[]|ex]] fns1]; [|reflexivity].
    rewrite IH.
    destruct (run ctx parse evs1 fns1) as [[w1 [[]|ex]] fns2]; [|reflexivity].
    destruct (run ctx parse evs2 fns2) as [[w2 r] fns3].
    now rewrite app_assoc.
Qed.

(** A handler that ends normally leaves as many entries on the stack as
    there are open functions. *)
Lemma handle_depth (e : Event) (fns : Stack) :
  List.length (snd (handle ctx parse e fns)) = open_functions [e] (List.length fns).
Proof.
  destruct e as [n|r|n]; simpl.
  - unfold JS.push. rewrite length_app. simpl. lia.
  - apply addReturn_length.
  - destruct (stack_cases fns) as [->|(below & top & ->)]; [reflexivity|].
    rewrite removelast_last, length_app. simpl. lia.
Qed.

Lemma run_depth (evs : list Event) (fns fns' : Stack) (w : list Report) :
  run ctx parse evs fns = (w, Normal tt, fns') ->
  List.length fns' = open_functions evs (List.length fns).
Proof.
  revert fns w. induction evs as [|e evs IH]; intros fns w; simpl.
  - intros [= _ <-]. reflexivity.
  - pose proof (handle_depth e fns) as Hd.
    destruct (handle ctx parse e fns) as [[w1 [[]|ex]] fns1]; [|discriminate].
    destruct (run ctx parse evs fns1) as [[w2 r] fns2] eqn:E.
    intros [= _ -> ->]. apply IH in E. rewrite E. simpl in Hd. rewrite Hd.
    destruct e; reflexivity.
Qed.

(** A well-nested piece of the traversal changes nothing below the entry
    that was on top when it started. *)
Lemma balanced_keeps_below (evs : list Event) :
  balanced evs ->
  forall (below : Stack) (top : FunctionState) (w : list Report) (fns' : Stack),
    run ctx parse evs (below ++ [top]) = (w, Normal tt, fns') ->
    exists top', fns' = (below ++ [top'])%list.
Proof.
  induction 1 as [|r evs _ IH|n body evs _ IHbody _ IH]; intros below top w fns'.
  - simpl. intros [= _ <-]. eauto.
  - rewrite run_cons. cbn [handle].
    destruct (addReturn r (below ++ [top])) as [[w1 c1] fns1] eqn:E.
    pose proof (addReturn_quiet r (below ++ [top])) as Hq.
    destruct (addReturn_push r below top) as [top1 Ht].
    rewrite E in Hq, Ht. simpl in Hq, Ht. injection Hq as -> ->. subst fns1.
    destruct (run ctx parse evs (below ++ [top1])) as [[w2 r2] fns2] eqn:E2.
    intros H. injection H as _ -> ->. eapply IH, E2.
  - rewrite run_enter, run_app.
    destruct (run ctx parse body ((below ++ [top]) ++ [{| returnPresent := false |}]))
      as [[w1 [[]|ex]] fns1] eqn:E1; [|discriminate].
    apply IHbody in E1. destruct E1 as [top1 ->].
    rewrite run_cons. cbn [handle].
    destruct (checkJSDoc ctx parse n ((below ++ [top]) ++ [top1]))
      as [[w2 c2] fns2] eqn:E2.
    pose proof (checkJSDoc_pops ctx parse n ((below ++ [top]) ++ [top1])) as Hp.
    rewrite E2, removelast_last in Hp. simpl in Hp. subst fns2.
    destruct c2 as [[]|ex]; [|discriminate].
    destruct (run ctx parse evs (below ++ [top])) as [[w3 r3] fns3] eqn:E3.
    intros [= _ ? ?]; subst. eapply IH, E3.
Qed.

(** A function that is entered and left, with a well-nested body, leaves
    the stack as it found it. *)
Lemma paired_enter_exit (n : FunctionNode) (body : list Event)
      (fns fns' : Stack) (w : list Report) :
  balanced body ->
  run ctx parse (FunctionEnter n :: body ++ [FunctionExit n]) fns = (w, Normal tt, fns') ->
  fns' = fns.
Proof.
  intros Hb. rewrite run_enter, run_app.
  destruct (run ctx parse body (fns ++ [{| returnPresent := false |}]))
    as [[w1 [[]|ex]] fns1] eqn:E1; [|discriminate].
  apply (balanced_keeps_below _ Hb) in E1. destruct E1 as [top1 ->].
  rewrite run_cons. cbn [handle run].
  destruct (checkJSDoc ctx parse n (fns ++ [top1])) as [[w2 c2] fns2] eqn:E2.
  pose proof (checkJSDoc_pops ctx parse n (fns ++ [top1])) as Hp.
  rewrite E2, removelast_last in Hp. simpl in Hp. subst fns2.
  destruct c2 as [[]|ex]; [|discriminate].
  intros [= _ ->]. reflexivity.
Qed.

(** A traversal in which no function has a comment reports nothing and
    does not fail. *)
Lemma run_no_comments (evs : list Event) (fns : Stack) :
  (forall n, In (FunctionExit n) evs -> getJSDocComment ctx n = None) ->
  fst (run ctx parse evs fns) = ([], Normal tt).
Proof.
  revert fns. induction evs as [|e evs IH]; intros fns Hn; [reflexivity|].
  simpl.
  assert (Hh : fst (handle ctx parse e fns) = ([], Normal tt)).
  { destruct e as [n|r|n]; simpl.
    - reflexivity.
    - apply addReturn_quiet.
    - apply checkJSDoc_no_comment, Hn. now left. }
  destruct (handle ctx parse e fns) as [[w1 c1] fns1]. simpl in Hh.
  injection Hh as -> ->.
  specialize (IH fns1 (fun n H => Hn n (or_intror H))).
  destruct (run ctx parse evs fns1) as [[w2 r2] fns2]. simpl in IH.
  injection IH as -> ->. reflexivity.
Qed.

End Traversal.

(* ------------------------------------------------------------------------ *)
(** ** Computations that report and may throw *)
(* ------------------------------------------------------------------------ *)

Lemma bind_normal {A B : Type} (m : M A) (f : A -> M B) (w : list Report) (b : B) :
  bind m f = (w, Normal b) ->
  exists w1 a w2, m = (w1, Normal a) /\ f a = (w2, Normal b) /\ w = w1 ++ w2.
Proof.
  unfold bind. destruct m as [w1 [a|ex]]; [|discriminate].
  destruct (f a) as [w2 r] eqn:E. intros [= <- ->]. eauto 6.
Qed.

Lemma bind_assoc {A B C : Type} (m : M A) (f : A -> M B) (g : B -> M C) :
  bind (bind m f) g = bind m (fun a => bind (f a) g).
Proof.
  unfold bind. destruct m as [w1 [a|ex]]; [|reflexivity].
  destruct (f a) as [w2 [b|ex]]; [|reflexivity].
  destruct (g b) as [w3 r]. now rewrite app_assoc.
Qed.

Lemma bind_ext {A B : Type} (m : M A) (f g : A -> M B) :
  (forall a, f a = g a) -> bind m f = bind m g.
Proof.
  intros H. unfold bind. destruct m as [w [a|ex]]; [|reflexivity]. now rewrite H.
Qed.

Lemma bind_reports {A B : Type} (m : M A) (f : A -> M B) :
  exists w, fst (bind m f) = fst m ++ w.
Proof.
  unfold bind. destruct m as [w1 [a|ex]]; simpl.
  - destruct (f a) as [w2 r]. simpl. eauto.
  - exists []. now rewrite app_nil_r.
Qed.

Lemma bind_reports_in {A B : Type} (m : M A) (f : A -> M B) (r : Report) :
  In r (fst m) -> In r (fst (bind m f)).
Proof.
  intros H. destruct (bind_reports m f) as [w ->]. apply in_or_app. now left.
Qed.

Lemma bind_reports_in_then {A B : Type} (m : M A) (f : A -> M B)
      (w : list Report) (a : A) (r : Report) :
  m = (w, Normal a) -> In r (fst (f a)) -> In r (fst (bind m f)).
Proof.
  intros -> H. unfold bind. destruct (f a) as [w2 c]. simpl in *.
  apply in_or_app. now right.
Qed.

(** *** Reports that all satisfy a property *)

Section Emits.

Variable P : Report -> Prop.

Lemma emits_ret {A : Type} (a : A) : emits P (ret a).
Proof. constructor. Qed.

Lemma emits_throw {A : Type} (e : Exception) : emits P (@throw A e).
Proof. constructor. Qed.

Lemma emits_bind {A B : Type} (m : M A) (f : A -> M B) :
  emits P m -> (forall a, emits P (f a)) -> emits P (bind m f).
Proof.
  unfold emits, bind. intros Hm Hf. destruct m as [w1 [a|ex]]; simpl in *.
  - specialize (Hf a). destruct (f a) as [w2 r]. simpl in *.
    apply Forall_app. now split.
  - assumption.
Qed.

Lemma emits_report (r : Report) : P r -> emits P (report_call r).
Proof. intros H. repeat constructor. exact H. Qed.

Lemma emits_when (b : bool) (m : M unit) : emits P m -> emits P (when b m).
Proof. destruct b; [trivial|intros _; apply emits_ret]. Qed.

Lemma emits_deref {A : Type} (o : option A) (what : string) : emits P (deref o what).
Proof. destruct o; constructor. Qed.

Lemma emits_andM (a b : M bool) : emits P a -> emits P b -> emits P (andM a b).
Proof.
  intros Ha Hb. apply emits_bind; [assumption|].
  intros []; [assumption|apply emits_ret].
Qed.

Lemma emits_orM (a b : M bool) : emits P a -> emits P b -> emits P (orM a b).
Proof.
  intros Ha Hb. apply emits_bind; [assumption|].
  intros []; [apply emits_ret|assumption].
Qed.

End Emits.

(** Goes through a computation, leaving one goal for each report. *)
Ltac emits_step :=
  first [ apply emits_ret | apply emits_throw | apply emits_deref
        | apply emits_report | apply emits_when | apply emits_andM
        | apply emits_orM | apply emits_bind | intros ?
        | match goal with
          | |- emits _ (if ?b then _ else _) => destruct b
          | |- emits _ (match ?x with _ => _ end) => destruct x
          end ].

Ltac emits_all := repeat emits_step.

Lemma count_message_app (msg : string) (w1 w2 : list Report) :
  count_message msg (w1 ++ w2) = (count_message msg w1 + count_message msg w2)%nat.
Proof. unfold count_message. now rewrite filter_app, length_app. Qed.

Lemma count_message_cons (msg : string) (r : Report) (w : list Report) :
  count_message msg (r :: w)
  = ((if String.eqb (message r) msg then 1 else 0) + count_message msg w)%nat.
Proof. unfold count_message. simpl. now destruct (String.eqb (message r) msg). Qed.

Lemma count_message_none (msg : string) (w : list Report) :
  Forall (fun r => String.eqb (message r) msg = false) w -> count_message msg w = 0%nat.
Proof.
  unfold count_message. induction 1 as [|r w Hr _ IH]; [reflexivity|].
  simpl. now rewrite Hr.
Qed.

(* ------------------------------------------------------------------------ *)
(** ** Objects used as maps *)
(* ------------------------------------------------------------------------ *)

Lemma get_set_same {V : Type} (o : JS.Obj V) (k : string) (v : V) :
  JS.get (JS.set o k v) k = Some v.
Proof.
  induction o as [|[k' v'] o IH]; simpl.
  - now rewrite String.eqb_refl.
  - destruct (String.eqb k' k) eqn:E; simpl; now rewrite E.
Qed.

Lemma get_set_other {V : Type} (o : JS.Obj V) (k k' : string) (v : V) :
  k <> k' -> JS.get (JS.set o k v) k' = JS.get o k'.
Proof.
  intros Hne. induction o as [|[k0 v0] o IH]; simpl.
  - destruct (String.eqb_spec k k'); [contradiction|reflexivity].
  - destruct (String.eqb_spec k0 k) as [->|]; simpl.
    + destruct (String.eqb_spec k k'); [contradiction|reflexivity].
    + now rewrite IH.
Qed.

(* ------------------------------------------------------------------------ *)
(** ** The tag loop *)
(* ------------------------------------------------------------------------ *)

Section TagLoop.

Variable ctx : Context.
Variable c : Comment.
Variable fd : option FunctionState.

Lemma forEach_tags_app (pre post : list Tag) (st : Locals) :
  forEach_tags ctx c fd (pre ++ post) st =
  bind (forEach_tags ctx c fd pre st) (forEach_tags ctx c fd post).
Proof.
  revert st. induction pre as [|t pre IH]; intros st; simpl.
  - unfold bind, ret. simpl. now destruct (forEach_tags ctx c fd post st).
  - rewrite bind_assoc. apply bind_ext. exact IH.
Qed.

(** The loop up to and including one tag. *)
Lemma forEach_tags_split (pre post : list Tag) (t : Tag) (st0 st : Locals)
      (w : list Report) :
  forEach_tags ctx c fd pre st0 = (w, Normal st) ->
  forEach_tags ctx c fd (pre ++ t :: post) st0 =
  bind (w, Normal st)
       (fun st => bind (check_tag ctx c fd t st) (forEach_tags ctx c fd post)).
Proof. intros H. now rewrite forEach_tags_app, H. Qed.

Lemma forEach_tags_reports_tag (pre post : list Tag) (t : Tag) (st0 st : Locals)
      (w : list Report) (r : Report) :
  forEach_tags ctx c fd pre st0 = (w, Normal st) ->
  In r (fst (check_tag ctx c fd t st)) ->
  In r (fst (forEach_tags ctx c fd (pre ++ t :: post) st0)).
Proof.
  intros H Hin. rewrite (forEach_tags_split pre post t st0 st w H).
  eapply bind_reports_in_then; [reflexivity|].
  now apply bind_reports_in.
Qed.

(** A loop that completes has completed on every tag. *)
Lemma forEach_tags_normal (pre post : list Tag) (t : Tag) (st0 st : Locals)
      (w : list Report) :
  forEach_tags ctx c fd (pre ++ t :: post) st0 = (w, Normal st) ->
  exists w1 st1 w2 st2 w3,
    forEach_tags ctx c fd pre st0 = (w1, Normal st1)
    /\ check_tag ctx c fd t st1 = (w2, Normal st2)
    /\ forEach_tags ctx c fd post st2 = (w3, Normal st)
    /\ w = w1 ++ w2 ++ w3.
Proof.
  rewrite forEach_tags_app. intros H.
  apply bind_normal in H. destruct H as (w1 & st1 & w' & H1 & H2 & ->).
  simpl in H2. apply bind_normal in H2.
  destruct H2 as (w2 & st2 & w3 & H2 & H3 & ->).
  exists w1, st1, w2, st2, w3. auto.
Qed.

(** *** What the loop reports *)

Lemma unexpected_is_tag_message (title : string) :
  tag_phase_message (Msg.unexpected_return title) = true.
Proof.
  unfold tag_phase_message, Msg.unexpected_return.
  apply orb_true_iff. left.
  change ("Unexpected @" ++ title ++ " tag; function has no return statement.")%string
    with ("Unexpected @" ++ (title ++ " tag; function has no return statement."))%string.
  generalize (title ++ " tag; function has no return statement.")%string.
  intros s. simpl. now destruct s.
Qed.

Lemma check_tag_messages (t : Tag) (st : Locals) :
  emits tag_report (check_tag ctx c fd t st).
Proof.
  unfold check_tag, check_title, check_param, check_return, check_prefer,
    check_type_name, report_at.
  emits_all; try reflexivity.
  apply unexpected_is_tag_message.
Qed.

Lemma forEach_tags_messages (tags : list Tag) (st : Locals) :
  emits tag_report (forEach_tags ctx c fd tags st).
Proof.
  revert st. induction tags as [|t tags IH]; intros st; simpl.
  - apply emits_ret.
  - apply emits_bind; [apply check_tag_messages|assumption].
Qed.

(** The loop reports no message of the later checks. *)
Lemma forEach_tags_count (tags : list Tag) (st : Locals) (msg : string) :
  tag_phase_message msg = false ->
  count_message msg (fst (forEach_tags ctx c fd tags st)) = 0%nat.
Proof.
  intros Hmsg. apply count_message_none.
  eapply Forall_impl; [|apply forEach_tags_messages].
  intros r Hr. unfold tag_report in Hr.
  destruct (String.eqb_spec (message r) msg) as [E|]; [|reflexivity].
  rewrite E in Hr. congruence.
Qed.

End TagLoop.

Section TagResults.

Variable ctx : Context.
Variable c : Comment.
Variable fd : option FunctionState.

(** [case 'param'] always completes; it leaves the locals alone or records
    the tag under a name that was not recorded. *)
Lemma check_param_result (t : Tag) (st : Locals) :
  exists w,
    (JS.get (params st) (tag_name t) = None
     /\ JS.indexOf (tag_name t) "." = (-1)%Z
     /\ check_param ctx c t st
        = (w, Normal (set_params st (JS.set (params st) (tag_name t) t))))
    \/ ((JS.get (params st) (tag_name t) <> None
         \/ JS.indexOf (tag_name t) "." <> (-1)%Z)
        /\ check_param ctx c t st = (w, Normal st)).
Proof.
  unfold check_param, report_at, when.
  destruct (negb (JS.truthy_object (tag_type t)));
    destruct (negb (JS.truthy_opt_string (tag_description t)) && requireParamDescription ctx);
    destruct (JS.get (params st) (tag_name t)) eqn:Eg; simpl;
    try (eexists; right; split; [left; discriminate|reflexivity]);
    destruct (Z.eqb_spec (JS.indexOf (tag_name t) ".") (-1)) as [Ei|Ei]; simpl;
    try (eexists; right; split; [right; exact Ei|reflexivity]);
    (eexists; left; split; [reflexivity|split; [exact Ei|reflexivity]]).
Qed.

Lemma check_return_result (t : Tag) (st st' : Locals) (w : list Report) :
  check_return ctx c fd t st = (w, Normal st') -> st' = set_hasReturns st true.
Proof.
  unfold check_return. intros H.
  apply bind_normal in H. destruct H as (w1 & b & w2 & _ & H & _).
  apply bind_normal in H. destruct H as (w3 & u & w4 & _ & H & _).
  now injection H as _ <-.
Qed.

Lemma check_tag_title (t : Tag) (st st' : Locals) (w : list Report) :
  check_tag ctx c fd t st = (w, Normal st') ->
  exists w1, check_title ctx c fd t st = (w1, Normal st').
Proof.
  unfold check_tag. intros H.
  apply bind_normal in H. destruct H as (w1 & st1 & w2 & H1 & H & _).
  apply bind_normal in H. destruct H as (w3 & u & w4 & _ & H & _).
  apply bind_normal in H. destruct H as (w5 & u' & w6 & _ & H & _).
  injection H as _ <-. eauto.
Qed.

(** The flags after one tag. *)
Lemma check_tag_flags (t : Tag) (st st' : Locals) (w : list Report) :
  check_tag ctx c fd t st = (w, Normal st') ->
  hasReturns st' = hasReturns st || is_return_title (tag_title t)
  /\ hasConstructor st' = hasConstructor st || String.eqb (tag_title t) "constructor".
Proof.
  intros H. apply check_tag_title in H. destruct H as [w1 H].
  unfold check_title in H. unfold is_return_title.
  destruct (String.eqb_spec (tag_title t) "param") as [E|_].
  - rewrite E. simpl.
    destruct (check_param_result t st) as [w' [(_ & _ & H')|(_ & H')]];
      rewrite H' in H; injection H as _ <-; simpl; now rewrite !orb_false_r.
  - destruct (String.eqb (tag_title t) "return" || String.eqb (tag_title t) "returns") eqn:Er.
    + apply check_return_result in H. subst st'. simpl.
      rewrite orb_true_r. split; [reflexivity|].
      destruct (String.eqb_spec (tag_title t) "constructor") as [E|_];
        [rewrite E in Er; discriminate|now rewrite orb_false_r].
    + rewrite orb_false_r.
      destruct (String.eqb (tag_title t) "constructor");
        injection H as _ <-; simpl; [now rewrite orb_true_r|now rewrite orb_false_r].
Qed.

(** The flags after the loop say which tags it went through. *)
Lemma forEach_tags_flags (tags : list Tag) (st st' : Locals) (w : list Report) :
  forEach_tags ctx c fd tags st = (w, Normal st') ->
  hasReturns st' = hasReturns st
                   || existsb (fun t => is_return_title (tag_title t)) tags
  /\ hasConstructor st' = hasConstructor st
                          || existsb (fun t => String.eqb (tag_title t) "constructor") tags.
Proof.
  revert st w. induction tags as [|t tags IH]; intros st w; simpl.
  - intros [= _ <-]. now rewrite !orb_false_r.
  - intros H. apply bind_normal in H. destruct H as (w1 & st1 & w2 & H1 & H2 & _).
    apply check_tag_flags in H1. apply IH in H2.
    destruct H1 as [Hr1 Hc1], H2 as [Hr2 Hc2].
    rewrite Hr2, Hc2, Hr1, Hc1. now rewrite !orb_assoc.
Qed.

End TagResults.

(* ------------------------------------------------------------------------ *)
(** ** The cross-check of the signature *)
(* ------------------------------------------------------------------------ *)

Section CrossCheck.

Variable c : Comment.
Variable ps : JS.Obj Tag.
Variable jsdocParams : list string.

Lemma check_real_param_total (i : nat) (name : string) :
  snd (check_real_param c ps jsdocParams i name) = Normal tt.
Proof.
  unfold check_real_param, report_at, when.
  destruct (nth_error jsdocParams i) as [k|];
    [destruct (JS.truthy_string k && negb (String.eqb name k))|];
    try reflexivity; destruct (negb (JS.truthy_object (JS.get ps name))); reflexivity.
Qed.

Lemma forEach_params_cons (i : nat) (name : string) (real : list string) :
  forEach_params c ps jsdocParams i (name :: real)
  = (fst (check_real_param c ps jsdocParams i name)
       ++ fst (forEach_params c ps jsdocParams (S i) real),
     snd (forEach_params c ps jsdocParams (S i) real)).
Proof.
  simpl. pose proof (check_real_param_total i name) as Ht.
  destruct (check_real_param c ps jsdocParams i name) as [w1 r1]. simpl in Ht.
  subst r1. unfold bind.
  now destruct (forEach_params c ps jsdocParams (S i) real).
Qed.

Lemma forEach_params_total (i : nat) (real : list string) :
  snd (forEach_params c ps jsdocParams i real) = Normal tt.
Proof.
  revert i. induction real as [|name real IH]; intros i; [reflexivity|].
  rewrite forEach_params_cons. apply IH.
Qed.

Lemma forEach_params_app (i : nat) (real1 real2 : list string) :
  fst (forEach_params c ps jsdocParams i (real1 ++ real2))
  = fst (forEach_params c ps jsdocParams i real1)
      ++ fst (forEach_params c ps jsdocParams (i + List.length real1) real2).
Proof.
  revert i. induction real1 as [|name real1 IH]; intros i.
  - simpl. now rewrite Nat.add_0_r.
  - rewrite <- app_comm_cons, !forEach_params_cons. simpl fst.
    rewrite IH, app_assoc. simpl. now rewrite Nat.add_succ_r.
Qed.

(** The cross-check reports its own two messages only. *)
Lemma forEach_params_messages (i : nat) (real : list string) :
  emits (fun r => message r = Msg.expected_param \/ message r = Msg.missing_param)
        (forEach_params c ps jsdocParams i real).
Proof.
  revert i. induction real as [|name real IH]; intros i; simpl.
  - apply emits_ret.
  - apply emits_bind; [|intros _; apply IH].
    unfold check_real_param, report_at. emits_all; simpl; auto.
Qed.

(** A parameter with another name is not reported missing under [name]. *)
Lemma check_real_param_other (i : nat) (name other : string) :
  other <> name ->
  List.filter (is_missing_param_for name)
              (fst (check_real_param c ps jsdocParams i other)) = [].
Proof.
  intros Hne. unfold check_real_param, report_at, when.
  assert (Hm : is_missing_param_for name
                 {| node := c; location := None; message := Msg.missing_param;
                    data := [("name", JS.VStr other)] |} = false).
  { unfold is_missing_param_for. simpl.
    destruct (String.eqb_spec other name); [contradiction|reflexivity]. }
  destruct (nth_error jsdocParams i) as [k|];
    [destruct (JS.truthy_string k && negb (String.eqb other k))|];
    try reflexivity;
    destruct (negb (JS.truthy_object (JS.get ps other))); simpl;
    try rewrite Hm; reflexivity.
Qed.

Lemma forEach_params_other (i : nat) (name : string) (real : list string) :
  ~ In name real ->
  List.filter (is_missing_param_for name)
              (fst (forEach_params c ps jsdocParams i real)) = [].
Proof.
  revert i. induction real as [|other real IH]; intros i Hn; [reflexivity|].
  rewrite forEach_params_cons. simpl fst. rewrite filter_app.
  rewrite check_real_param_other, IH; [reflexivity| |]; simpl in Hn; intuition.
Qed.

End CrossCheck.

(* ------------------------------------------------------------------------ *)
(** ** [checkJSDoc] on a parsed comment *)
(* ------------------------------------------------------------------------ *)

Section Parsed.

Variable ctx : Context.
Variable parse : string -> ParseResult.

Lemma checkJSDoc_parsed (n : FunctionNode) (fns : Stack) (c : Comment)
      (tags : list Tag) :
  getJSDocComment ctx n = Some c ->
  parse (JS.replace_module (value c)) = Parsed tags ->
  fst (checkJSDoc ctx parse n fns)
  = check_parsed ctx c (JS.top fns) tags (node_params n).
Proof. intros Hc Hp. unfold checkJSDoc. simpl. now rewrite Hc, Hp. Qed.

Lemma checkJSDoc_parse_error (n : FunctionNode) (fns : Stack) (c : Comment)
      (msg : string) :
  getJSDocComment ctx n = Some c ->
  parse (JS.replace_module (value c)) = ParseError msg ->
  fst (checkJSDoc ctx parse n fns) = check_parse_error c msg.
Proof. intros Hc Hp. unfold checkJSDoc. simpl. now rewrite Hc, Hp. Qed.

(** The reports of the tag loop are reports of [checkJSDoc]. *)
Lemma checkJSDoc_reports_loop (n : FunctionNode) (fns : Stack) (c : Comment)
      (tags : list Tag) (r : Report) :
  getJSDocComment ctx n = Some c ->
  parse (JS.replace_module (value c)) = Parsed tags ->
  In r (fst (forEach_tags ctx c (JS.top fns) tags no_locals)) ->
  In r (fst (fst (checkJSDoc ctx parse n fns))).
Proof.
  intros Hc Hp Hin. rewrite (checkJSDoc_parsed n fns c _ Hc Hp).
  unfold check_parsed. now apply bind_reports_in.
Qed.

(** The reports made for one tag are reports of [checkJSDoc], when the
    loop gets to the tag. *)
Lemma checkJSDoc_reports_tag (n : FunctionNode) (fns : Stack) (c : Comment)
      (pre post : list Tag) (t : Tag) (w : list Report) (st : Locals)
      (r : Report) :
  getJSDocComment ctx n = Some c ->
  parse (JS.replace_module (value c)) = Parsed (pre ++ t :: post) ->
  forEach_tags ctx c (JS.top fns) pre no_locals = (w, Normal st) ->
  In r (fst (check_tag ctx c (JS.top fns) t st)) ->
  In r (fst (fst (checkJSDoc ctx parse n fns))).
Proof.
  intros Hc Hp Hpre Hin.
  apply (checkJSDoc_reports_loop n fns c _ r Hc Hp).
  eapply forEach_tags_reports_tag; eassumption.
Qed.

(** [checkJSDoc] after a loop that completed. *)
Lemma checkJSDoc_after_loop (n : FunctionNode) (fns : Stack) (c : Comment)
      (tags : list Tag) (w : list Report) (st : Locals) :
  getJSDocComment ctx n = Some c ->
  parse (JS.replace_module (value c)) = Parsed tags ->
  forEach_tags ctx c (JS.top fns) tags no_locals = (w, Normal st) ->
  fst (checkJSDoc ctx parse n fns)
  = (w ++ fst (check_missing_return ctx c (JS.top fns) st)
       ++ match snd (check_missing_return ctx c (JS.top fns) st) with
          | Normal _ =>
              fst (forEach_params c (params st) (JS.keys (params st)) 0 (node_params n))
          | Throw _ => []
          end,
     match snd (check_missing_return ctx c (JS.top fns) st) with
     | Normal _ => Normal tt
     | Throw ex => Throw ex
     end).
Proof.
  intros Hc Hp Hloop. rewrite (checkJSDoc_parsed n fns c _ Hc Hp).
  unfold check_parsed. fold no_locals. rewrite Hloop. unfold bind at 1.
  pose proof (forEach_params_total c (params st) (JS.keys (params st)) 0 (node_params n)) as Ht.
  destruct (check_missing_return ctx c (JS.top fns) st) as [w1 [[]|ex]]; simpl.
  - destruct (forEach_params c (params st) (JS.keys (params st)) 0 (node_params n))
      as [w2 r2]. simpl in *. now subst r2.
  - now rewrite app_nil_r.
Qed.

End Parsed.

(* ------------------------------------------------------------------------ *)
(** ** Strings *)
(* ------------------------------------------------------------------------ *)

Lemma prefix_empty (s : string) : String.prefix EmptyString s = true.
Proof. now destruct s. Qed.

Lemma prefix_append (p s : string) : String.prefix p (p ++ s)%string = true.
Proof.
  induction p as [|a p IH]; simpl; [apply prefix_empty|].
  destruct (ascii_dec a a); [assumption|contradiction].
Qed.

Lemma toLowerCase_append (s1 s2 : string) :
  JS.toLowerCase (s1 ++ s2)%string
  = (JS.toLowerCase s1 ++ JS.toLowerCase s2)%string.
Proof. induction s1 as [|a s1 IH]; simpl; [reflexivity|now rewrite IH]. Qed.

(** A prefix of the lower-cased text is the lower-cased form of a prefix of
    the text. *)
Lemma prefix_toLowerCase (p s : string) :
  String.prefix p (JS.toLowerCase s) = true ->
  exists mid post, s = (mid ++ post)%string /\ JS.toLowerCase mid = p.
Proof.
  revert s. induction p as [|a p IH]; intros s H.
  - exists EmptyString, s. auto.
  - destruct s as [|b s]; [discriminate|]. simpl in H.
    destruct (ascii_dec a (JS.lower_ascii b)) as [->|]; [|discriminate].
    apply IH in H. destruct H as (mid & post & -> & <-).
    exists (String b mid), post. auto.
Qed.

(** [/braces/i.test] finds the word wherever it is, in any case. *)
Lemma test_braces_i_spec (s : string) :
  JS.test_braces_i s = true <->
  exists pre mid post,
    s = (pre ++ mid ++ post)%string /\ JS.toLowerCase mid = "braces".
Proof.
  split.
  - induction s as [|a s IH]; [discriminate|].
    cbn [JS.test_braces_i]. intros H. apply orb_true_iff in H. destruct H as [H|H].
    + apply prefix_toLowerCase in H. destruct H as (mid & post & -> & H).
      exists EmptyString, mid, post. auto.
    + apply IH in H. destruct H as (pre & mid & post & -> & H).
      exists (String a pre), mid, post. auto.
  - intros (pre & mid & post & -> & H).
    induction pre as [|a pre IH].
    + destruct mid as [|b mid]; [discriminate|].
      cbn [append JS.test_braces_i]. apply orb_true_iff. left.
      change (String b (mid ++ post))%string with (String b mid ++ post)%string.
      rewrite toLowerCase_append, H. apply prefix_append.
    + cbn [append JS.test_braces_i]. apply orb_true_iff. now right.
Qed.

(* ------------------------------------------------------------------------ *)
(** ** The checks after the loop *)
(* ------------------------------------------------------------------------ *)

Lemma check_missing_return_messages (ctx : Context) (c : Comment)
      (fd : option FunctionState) (st : Locals) :
  emits (fun r => message r = Msg.missing_return)
        (check_missing_return ctx c fd st).
Proof.
  unfold check_missing_return, read_returnPresent, report_at.
  emits_all. reflexivity.
Qed.

Lemma check_missing_return_open (ctx : Context) (c : Comment)
      (fd : FunctionState) (st : Locals) :
  snd (check_missing_return ctx c (Some fd) st) = Normal tt.
Proof.
  unfold check_missing_return, read_returnPresent, report_at.
  destruct (negb (hasReturns st) && negb (hasConstructor st)); [|reflexivity].
  destruct (requireReturn ctx), fd as [[]]; reflexivity.
Qed.

Lemma count_message_other (msg other : string) (w : list Report) :
  other <> msg ->
  Forall (fun r => message r = other) w -> count_message msg w = 0%nat.
Proof.
  intros Hne H. apply count_message_none.
  eapply Forall_impl; [|exact H]. intros r ->.
  now destruct (String.eqb_spec other msg).
Qed.

Lemma filter_missing_param_none (name : string) (w : list Report) :
  Forall (fun r => String.eqb (message r) Msg.missing_param = false) w ->
  List.filter (is_missing_param_for name) w = [].
Proof.
  induction 1 as [|r w Hr _ IH]; [reflexivity|].
  simpl. unfold is_missing_param_for at 1. now rewrite Hr.
Qed.



(* ------------------------------------------------------------------------ *)
(** ** The title-specific checks *)
(* ------------------------------------------------------------------------ *)

(** A return tag without a type ends [case 'return'] with a [TypeError]:
    [tag.type.name] is read whether [tag.type] is there or not. *)
Lemma check_return_untyped (ctx : Context) (c : Comment)
      (fd : option FunctionState) (t : Tag) (st : Locals) :
  tag_type t = None ->
  exists w e, check_return ctx c fd t st = (w, Throw e).
Proof.
  intros Ht. unfold check_return, type_name_ne, read_returnPresent. rewrite Ht.
  destruct (requireReturn ctx), fd as [[[]]|]; simpl; eauto.
Qed.

(** With a type on the tag and the function's entry at hand, the
    title-specific check completes. *)
Lemma check_title_typed (ctx : Context) (c : Comment) (fd : FunctionState)
      (t : Tag) (st : Locals) (ty : TypeExpression) :
  tag_type t = Some ty ->
  exists w st', check_title ctx c (Some fd) t st = (w, Normal st').
Proof.
  intros Ht. unfold check_title.
  destruct (String.eqb (tag_title t) "param").
  - destruct (check_param_result ctx c t st) as [w [(_ & _ & H)|(_ & H)]]; eauto.
  - destruct (_ || _).
    + unfold check_return, type_name_ne, read_returnPresent, report_at. rewrite Ht.
      destruct (requireReturn ctx), fd as [[]]; simpl;
        destruct (JS.opt_strict_ne (type_name ty) "void"); simpl;
        try destruct (JS.opt_strict_ne (type_name ty) "undefined"); simpl;
        try destruct (JS.truthy_opt_string (tag_description t)); simpl; eauto.
    + destruct (String.eqb _ _); unfold ret; eauto.
Qed.

(** The preference check completes when [prefer] has no key of its own
    that hides [hasOwnProperty], and fails on every tag when it has one. *)
Lemma check_prefer_total (ctx : Context) (c : Comment) (t : Tag) :
  JS.get (prefer ctx) "hasOwnProperty" = None ->
  snd (check_prefer ctx c t) = Normal tt.
Proof.
  intros H. unfold check_prefer. rewrite H.
  now destruct (JS.get (prefer ctx) (tag_title t)).
Qed.

Lemma check_prefer_shadowed (ctx : Context) (c : Comment) (t : Tag) (v : string) :
  JS.get (prefer ctx) "hasOwnProperty" = Some v ->
  check_prefer ctx c t = ([], Throw (TypeError "hasOwnProperty")).
Proof. intros H. unfold check_prefer. now rewrite H. Qed.

Lemma check_prefer_normal (ctx : Context) (c : Comment) (t : Tag) (w : list Report) :
  check_prefer ctx c t = (w, Normal tt) ->
  JS.get (prefer ctx) "hasOwnProperty" = None.
Proof.
  unfold check_prefer. destruct (JS.get (prefer ctx) "hasOwnProperty");
    [discriminate|reflexivity].
Qed.




(** What the title-specific check reports is among the reports of the tag. *)
Lemma check_tag_reports_title (ctx : Context) (c : Comment)
      (fd : option FunctionState) (t : Tag) (st : Locals) (r : Report) :
  In r (fst (check_title ctx c fd t st)) ->
  In r (fst (check_tag ctx c fd t st)).
Proof. intros H. unfold check_tag. now apply bind_reports_in. Qed.

(** The unexpected return tag. *)
Lemma check_title_unexpected (ctx : Context) (c : Comment) (fd : FunctionState)
      (t : Tag) (st : Locals) (ty : TypeExpression) :
  requireReturn ctx = false ->
  returnPresent fd = false ->
  is_return_title (tag_title t) = true ->
  tag_type t = Some ty ->
  type_name ty <> Some "void" ->
  type_name ty <> Some "undefined" ->
  check_title ctx c (Some fd) t st
  = ([diagnostic c (at_line (loc_start_line c + tag_lineNumber t))
        (Msg.unexpected_return (tag_title t)) []],
     Normal (set_hasReturns st true)).
Proof.
  intros Hreq Hfd Htitle Ht Hvoid Hundef.
  assert (Hv : JS.opt_strict_ne (type_name ty) "void" = true).
  { destruct (type_name ty) as [s|]; [|reflexivity]. simpl.
    destruct (String.eqb_spec s "void"); [congruence|reflexivity]. }
  assert (Hu : JS.opt_strict_ne (type_name ty) "undefined" = true).
  { destruct (type_name ty) as [s|]; [|reflexivity]. simpl.
    destruct (String.eqb_spec s "undefined"); [congruence|reflexivity]. }
  unfold check_title. unfold is_return_title in Htitle. rewrite Htitle.
  assert (Hp : String.eqb (tag_title t) "param" = false).
  { apply orb_true_iff in Htitle.
    destruct Htitle as [H|H]; apply String.eqb_eq in H; now rewrite H. }
  rewrite Hp.
  unfold check_return, type_name_ne, read_returnPresent, report_at.
  rewrite Hreq, Ht. destruct fd as [rp]. simpl in Hfd. subst rp.
  simpl. rewrite Hv, Hu. reflexivity.
Qed.

Lemma forEach_params_count (c : Comment) (ps : JS.Obj Tag) (ks : list string)
      (i : nat) (real : list string) (msg : string) :
  msg <> Msg.expected_param -> msg <> Msg.missing_param ->
  count_message msg (fst (forEach_params c ps ks i real)) = 0%nat.
Proof.
  intros H1 H2. apply count_message_none.
  eapply Forall_impl; [|apply forEach_params_messages].
  intros r [E|E]; rewrite E;
    [destruct (String.eqb_spec Msg.expected_param msg)
    |destruct (String.eqb_spec Msg.missing_param msg)]; congruence.
Qed.

(** The reports of [checkJSDoc] before the cross-check, for an open
    function: those of the loop and of the missing-@return check. *)
Lemma checkJSDoc_cross_check (ctx : Context) (parse : string -> ParseResult)
      (n : FunctionNode) (fns : Stack) (c : Comment) (tags : list Tag)
      (w : list Report) (st : Locals) (fd : FunctionState) :
  getJSDocComment ctx n = Some c ->
  parse (JS.replace_module (value c)) = Parsed tags ->
  forEach_tags ctx c (JS.top fns) tags no_locals = (w, Normal st) ->
  JS.top fns = Some fd ->
  exists w',
    fst (checkJSDoc ctx parse n fns)
    = (w' ++ fst (forEach_params c (params st) (JS.keys (params st)) 0 (node_params n)),
       Normal tt)
    /\ count_message Msg.expected_param w' = 0%nat
    /\ count_message Msg.missing_param w' = 0%nat.
Proof.
  intros Hc Hp Hloop Hfd.
  exists (w ++ fst (check_missing_return ctx c (JS.top fns) st)).
  rewrite (checkJSDoc_after_loop ctx parse n fns c tags w st Hc Hp Hloop).
  pose proof (check_missing_return_messages ctx c (JS.top fns) st) as Hm.
  pose proof (check_missing_return_open ctx c fd st) as Ht.
  rewrite <- Hfd in Ht. rewrite Ht.
  split; [now rewrite app_assoc|].
  pose proof (forEach_tags_count ctx c (JS.top fns) tags no_locals) as Hw.
  rewrite Hloop in Hw. simpl in Hw.
  rewrite !count_message_app, !Hw by reflexivity.
  split; (rewrite (count_message_other _ Msg.missing_return); [reflexivity|discriminate|exact Hm]).
Qed.

Section Registry.

Variable ctx : Context.
Variable c : Comment.
Variable fd : option FunctionState.

(** The registry after one tag: the tag's own name apart, every name is
    recorded as before. *)
Lemma check_tag_params (t : Tag) (st st' : Locals) (w : list Report) :
  check_tag ctx c fd t st = (w, Normal st') ->
  params st' = params st
  \/ (tag_title t = "param"
      /\ JS.get (params st) (tag_name t) = None
      /\ JS.indexOf (tag_name t) "." = (-1)%Z
      /\ params st' = JS.set (params st) (tag_name t) t).
Proof.
  intros H. apply check_tag_title in H. destruct H as [w1 H].
  unfold check_title in H.
  destruct (String.eqb_spec (tag_title t) "param") as [E|_].
  - destruct (check_param_result ctx c t st) as [w' [(Hg & Hi & H')|(_ & H')]];
      rewrite H' in H; injection H as _ <-; [right|left]; auto.
  - left. destruct (_ || _).
    + apply check_return_result in H. now subst st'.
    + destruct (String.eqb _ _); now injection H as _ <-.
Qed.

(** A recorded name stays recorded, with the same tag. *)
Lemma check_tag_keeps (t t0 : Tag) (st st' : Locals) (w : list Report)
      (name : string) :
  JS.get (params st) name = Some t0 ->
  check_tag ctx c fd t st = (w, Normal st') ->
  JS.get (params st') name = Some t0.
Proof.
  intros Hg H. apply check_tag_params in H.
  destruct H as [->|(_ & Hnone & _ & ->)]; [assumption|].
  rewrite get_set_other; [assumption|]. intros E. congruence.
Qed.

Lemma forEach_tags_keeps (tags : list Tag) (t0 : Tag) (st st' : Locals)
      (w : list Report) (name : string) :
  JS.get (params st) name = Some t0 ->
  forEach_tags ctx c fd tags st = (w, Normal st') ->
  JS.get (params st') name = Some t0.
Proof.
  revert st w. induction tags as [|t tags IH]; intros st w Hg; simpl.
  - now intros [= _ <-].
  - intros H. apply bind_normal in H. destruct H as (w1 & st1 & w2 & H1 & H2 & _).
    eapply IH; [|exact H2]. eapply check_tag_keeps; eassumption.
Qed.

(** A name stays unrecorded as long as no param tag has it. *)
Lemma forEach_tags_absent (tags : list Tag) (st st' : Locals)
      (w : list Report) (name : string) :
  JS.get (params st) name = None ->
  (forall t, In t tags -> tag_title t = "param" -> tag_name t <> name) ->
  forEach_tags ctx c fd tags st = (w, Normal st') ->
  JS.get (params st') name = None.
Proof.
  revert st w. induction tags as [|t tags IH]; intros st w Hg Hno; simpl.
  - now intros [= _ <-].
  - intros H. apply bind_normal in H. destruct H as (w1 & st1 & w2 & H1 & H2 & _).
    eapply IH; [|intros t' Hin; apply Hno; now right|exact H2].
    apply check_tag_params in H1.
    destruct H1 as [->|(Ht & _ & _ & ->)]; [assumption|].
    rewrite get_set_other; [assumption|]. apply Hno; [now left|assumption].
Qed.

(** The first param tag of an undotted name is recorded under it. *)
Lemma check_tag_records (t : Tag) (st st' : Locals) (w : list Report) :
  tag_title t = "param" ->
  JS.indexOf (tag_name t) "." = (-1)%Z ->
  JS.get (params st) (tag_name t) = None ->
  check_tag ctx c fd t st = (w, Normal st') ->
  JS.get (params st') (tag_name t) = Some t.
Proof.
  intros Ht Hi Hg H. apply check_tag_title in H. destruct H as [w1 H].
  unfold check_title in H. rewrite Ht in H. cbn [String.eqb Ascii.eqb Bool.eqb] in H.
  destruct (check_param_result ctx c t st) as [w' [(_ & _ & H')|([Hn|Hn] & _)]];
    [|contradiction..].
  rewrite H' in H. injection H as _ <-. simpl. apply get_set_same.
Qed.

(** A param tag whose name is recorded is reported as a duplicate and
    changes nothing. *)
Lemma check_tag_duplicate (t t0 : Tag) (st : Locals) :
  tag_title t = "param" ->
  JS.get (params st) (tag_name t) = Some t0 ->
  In (diagnostic c (at_line (loc_start_line c + tag_lineNumber t))
        Msg.duplicate_param [("name", JS.VStr (tag_name t))])
     (fst (check_tag ctx c fd t st))
  /\ (forall w st', check_tag ctx c fd t st = (w, Normal st') -> st' = st).
Proof.
  intros Ht Hg. split.
  - apply check_tag_reports_title. unfold check_title. rewrite Ht.
    cbn [String.eqb Ascii.eqb Bool.eqb].
    unfold check_param, report_at, when. rewrite Hg.
    destruct (negb (JS.truthy_object (tag_type t)));
      destruct (negb (JS.truthy_opt_string (tag_description t))
                && requireParamDescription ctx); simpl; auto.
  - intros w st' H. apply check_tag_title in H. destruct H as [w1 H].
    unfold check_title in H. rewrite Ht in H.
    cbn [String.eqb Ascii.eqb Bool.eqb] in H.
    destruct (check_param_result ctx c t st) as [w' [(Hn & _)|(_ & H')]];
      [congruence|].
    rewrite H' in H. now injection H as _ <-.
Qed.

End Registry.

(** [indexOf] answers with a place where the needle is. *)
Lemma indexOf_found (hay needle : string) (i : Z) :
  JS.indexOf hay needle = i -> (0 <= i)%Z ->
  String.substring (Z.to_nat i) (String.length needle) hay = needle.
Proof.
  unfold JS.indexOf. destruct (String.index 0 needle hay) as [k|] eqn:E.
  - intros <- _. rewrite Nat2Z.id. now apply (String.index_correct1 0).
  - intros <-. lia.
Qed.

(** A return tag without a type, once the loop gets to it, makes
    [checkJSDoc] fail. *)
Lemma checkJSDoc_untyped_return (ctx : Context) (parse : string -> ParseResult)
      (n : FunctionNode) (fns : Stack) (c : Comment)
      (pre post : list Tag) (t : Tag) (w : list Report) (st : Locals) :
  getJSDocComment ctx n = Some c ->
  parse (JS.replace_module (value c)) = Parsed (pre ++ t :: post) ->
  forEach_tags ctx c (JS.top fns) pre no_locals = (w, Normal st) ->
  is_return_title (tag_title t) = true ->
  tag_type t = None ->
  exists e, snd (fst (checkJSDoc ctx parse n fns)) = Throw e.
Proof.
  intros Hc Hp Hpre Htitle Ht.
  assert (Hp' : String.eqb (tag_title t) "param" = false).
  { unfold is_return_title in Htitle. apply orb_true_iff in Htitle.
    destruct Htitle as [H|H]; apply String.eqb_eq in H; now rewrite H. }
  destruct (check_return_untyped ctx c (JS.top fns) t st Ht) as (w1 & e & He).
  assert (Htag : check_tag ctx c (JS.top fns) t st = (w1, Throw e)).
  { unfold check_tag, check_title. unfold is_return_title in Htitle.
    rewrite Hp', Htitle, He. reflexivity. }
  exists e.
  rewrite (checkJSDoc_parsed ctx parse n fns c _ Hc Hp).
  unfold check_parsed. fold no_locals.
  rewrite (forEach_tags_split ctx c (JS.top fns) pre post t no_locals st w Hpre).
  unfold bind. cbv beta iota. rewrite Htag. reflexivity.
Qed.

(** The loop completes on the tags of an open function when [prefer] does
    not hide [hasOwnProperty], every return tag has a type and every named
    type stands on a line of the comment. *)
Lemma forEach_tags_completes (ctx : Context) (c : Comment) (fd : FunctionState)
      (tags : list Tag) (st : Locals) :
  JS.get (prefer ctx) "hasOwnProperty" = None ->
  (forall t, In t tags -> is_return_title (tag_title t) = true -> tag_type t <> None) ->
  (forall t name, In t tags -> tag_type t = Some (NameExpression name) ->
                  JS.array_get (lines c) (tag_lineNumber t) <> None) ->
  exists w st', forEach_tags ctx c (Some fd) tags st = (w, Normal st').
Proof.
  intros Hown.
  revert st. induction tags as [|t tags IH]; intros st Hret Hline; simpl.
  - unfold ret. eauto.
  - assert (Ht : exists w st', check_tag ctx c (Some fd) t st = (w, Normal st')).
    { assert (Htitle : exists w st', check_title ctx c (Some fd) t st = (w, Normal st')).
      { destruct (tag_type t) as [ty|] eqn:Ety.
        - now apply (check_title_typed ctx c fd t st ty).
        - unfold check_title.
          destruct (String.eqb (tag_title t) "param").
          + destruct (check_param_result ctx c t st) as [w [(_ & _ & H)|(_ & H)]]; eauto.
          + destruct (String.eqb (tag_title t) "return" || String.eqb (tag_title t) "returns") eqn:Er.
            * exfalso. apply (Hret t); [now left|exact Er|exact Ety].
            * cbv iota.
              destruct (String.eqb (tag_title t) "constructor"); unfold ret; eauto. }
      destruct Htitle as (w1 & st1 & H1). unfold check_tag. rewrite H1.
      pose proof (check_prefer_total ctx c t Hown) as Hp.
      destruct (check_prefer ctx c t) as [w2 [[]|ex]]; [|discriminate].
      assert (Hty : exists w3, check_type_name c t = (w3, Normal tt)).
      { unfold check_type_name.
        destruct (tag_type t) as [[name|k]|] eqn:Ety; try (unfold ret; eauto; fail).
        destruct (map_get _); [|unfold ret; eauto].
        destruct (_ && _); [|unfold ret; eauto].
        destruct (JS.array_get (lines c) (tag_lineNumber t)) as [l|] eqn:El.
        - simpl. eauto.
        - exfalso. apply (Hline t name); [now left|exact Ety|exact El]. }
      destruct Hty as (w3 & H3). simpl. rewrite H3. simpl. eauto. }
    destruct Ht as (w1 & st1 & H1). rewrite H1.
    destruct (IH st1) as (w2 & st2 & H2).
    + intros t' Hin. apply Hret. now right.
    + intros t' name Hin. apply (Hline t' name). now right.
    + simpl. rewrite H2. eauto.
Qed.

(** *** The scenarios of the specification *)

(** [@param {String} x the value] on [function f(x) {}]: the type name and
    the missing [@return]. *)
Example scenario_type_name :
  fst (checkJSDoc
         (Sample.documented Sample.defaults
            (Sample.comment_of "* @param {String} x the value"))
         (Sample.parser [Sample.param_tag "x" (Some (NameExpression "String"))])
         Sample.f Sample.open_function)
  = ([diagnostic (Sample.comment_of "* @param {String} x the value")
        (at_line_column 3 15) Msg.expected_type_name
        [("name", JS.VStr "string"); ("jsdocName", JS.VStr "String")];
      diagnostic (Sample.comment_of "* @param {String} x the value")
        None Msg.missing_return []],
     Normal tt).
Proof. reflexivity. Qed.

(** [@returns {number} the sum] on [function add(a, b) { return a + b; }]:
    the two parameters are missing and nothing is said about the return. *)
Example scenario_missing_params :
  fst (run (Sample.documented Sample.defaults
              (Sample.comment_of "* @returns {number} the sum"))
           (Sample.parser [Sample.returns_number])
           [FunctionEnter Sample.add; ReturnSeen Sample.return_value;
            FunctionExit Sample.add] [])
  = ([diagnostic (Sample.comment_of "* @returns {number} the sum") None
        Msg.missing_param [("name", JS.VStr "a")];
      diagnostic (Sample.comment_of "* @returns {number} the sum") None
        Msg.missing_param [("name", JS.VStr "b")]],
     Normal tt).
Proof. reflexivity. Qed.

(** [prefer: {returns: "return"}] and [@returns {void}]: the preferred tag is
    asked for, and the return tag is checked as well. *)
Example scenario_prefer :
  fst (checkJSDoc
         (Sample.documented Sample.prefers_return (Sample.comment_of "* @returns {void}"))
         (Sample.parser [Sample.returns_void])
         Sample.g Sample.open_function)
  = ([diagnostic (Sample.comment_of "* @returns {void}") (at_line 3)
        Msg.use_instead [("name", JS.VStr "return")]],
     Normal tt).
Proof. reflexivity. Qed.

(* ------------------------------------------------------------------------ *)
(** * The specification's claims *)
(* ------------------------------------------------------------------------ *)

(** C1. A comment whose only tag is [@return the sum], without a type: under
    the default options [checkJSDoc] reports the missing return type and
    then fails with a [TypeError] on [tag.type.name], so the checks after
    the tag never run; with [requireReturn] off it fails before any report. *)
Theorem return_tag_without_type_fails :
  checkJSDoc (Sample.documented Sample.defaults (Sample.comment_of "* @return the sum"))
             (Sample.parser [Sample.return_untyped]) Sample.f Sample.open_function
  = ([diagnostic (Sample.comment_of "* @return the sum") (at_line 3)
        Msg.missing_return_type []],
     Throw (TypeError "name"), [])
  /\ checkJSDoc (Sample.documented Sample.lenient (Sample.comment_of "* @return the sum"))
                (Sample.parser [Sample.return_untyped]) Sample.f Sample.open_function
     = ([], Throw (TypeError "name"), []).
Proof. split; reflexivity. Qed.

(** C2. A function whose comment parses, whose tags the loop went through,
    and none of whose tags is a return, returns or constructor tag: if
    [requireReturn] is on, or the body returned a value, exactly one
    missing-@return diagnostic is reported, on the comment node, whether or
    not the body returns; if [requireReturn] is off and the body returned no
    value, none is reported. *)
Theorem missing_return_reported_once
        (ctx : Context) (parse : string -> ParseResult)
        (n : FunctionNode) (fns : Stack) (c : Comment)
        (tags : list Tag) (w : list Report) (st : Locals) :
  getJSDocComment ctx n = Some c ->
  parse (JS.replace_module (value c)) = Parsed tags ->
  forEach_tags ctx c (JS.top fns) tags no_locals = (w, Normal st) ->
  (forall t, In t tags ->
             is_return_title (tag_title t) = false /\ tag_title t <> "constructor") ->
  let rs := fst (fst (checkJSDoc ctx parse n fns)) in
  (requireReturn ctx = true
   \/ (exists fd, JS.top fns = Some fd /\ returnPresent fd = true) ->
   count_message Msg.missing_return rs = 1%nat
   /\ In (diagnostic c None Msg.missing_return []) rs
   /\ snd (fst (checkJSDoc ctx parse n fns)) = Normal tt)
  /\ (requireReturn ctx = false ->
      (exists fd, JS.top fns = Some fd /\ returnPresent fd = false) ->
      count_message Msg.missing_return rs = 0%nat).
Proof.
  intros Hc Hp Hloop Htags rs.
  pose proof (checkJSDoc_after_loop ctx parse n fns c tags w st Hc Hp Hloop) as Hafter.
  pose proof (forEach_tags_count ctx c (JS.top fns) tags no_locals
                Msg.missing_return eq_refl) as Hw.
  rewrite Hloop in Hw. simpl in Hw.
  pose proof (forEach_params_count c (params st) (JS.keys (params st)) 0
                (node_params n) Msg.missing_return) as Hps.
  specialize (Hps ltac:(discriminate) ltac:(discriminate)).
  set (cross := forEach_params c (params st) (JS.keys (params st)) 0 (node_params n)) in *.
  destruct (forEach_tags_flags ctx c (JS.top fns) tags no_locals st w Hloop)
    as [Hret Hcon].
  assert (Hr : hasReturns st = false).
  { rewrite Hret. simpl. apply not_true_is_false. intros H.
    apply existsb_exists in H. destruct H as (t & Hin & Ht).
    destruct (Htags t Hin) as [Hf _]. congruence. }
  assert (Hk : hasConstructor st = false).
  { rewrite Hcon. simpl. apply not_true_is_false. intros H.
    apply existsb_exists in H. destruct H as (t & Hin & Ht).
    destruct (Htags t Hin) as [_ Hf]. now apply String.eqb_eq in Ht. }
  subst rs. rewrite Hafter. simpl fst. simpl snd.
  unfold check_missing_return, read_returnPresent, report_at in *.
  rewrite Hr, Hk in *. cbn [negb andb] in *.
  split.
  - intros Hyes.
    assert (E : orM (ret (requireReturn ctx))
                    (bind (deref (JS.top fns) "returnPresent")
                          (fun fd => ret (returnPresent fd)))
                = ([], Normal true)).
    { destruct Hyes as [->|(fd & -> & Hfd)]; [reflexivity|].
      destruct (requireReturn ctx); [reflexivity|]. simpl. now rewrite Hfd. }
    rewrite E. simpl.
    rewrite count_message_app, count_message_cons, Hw, Hps.
    split; [reflexivity|]. split; [|reflexivity].
    apply in_or_app. right. now left.
  - intros Hreq (fd & Hfd & Hno). rewrite Hreq, Hfd. simpl. rewrite Hno. simpl.
    rewrite count_message_app, Hw, Hps. reflexivity.
Qed.

Lemma missing_return_reported_once_witness :
  count_message Msg.missing_return
    (fst (fst (checkJSDoc
                 (Sample.documented Sample.defaults
                    (Sample.comment_of "* @param {String} x the value"))
                 (Sample.parser [Sample.param_tag "x" (Some (NameExpression "String"))])
                 Sample.f Sample.open_function))) = 1%nat.
Proof.
  refine (proj1 (proj1 (missing_return_reported_once
           (Sample.documented Sample.defaults
              (Sample.comment_of "* @param {String} x the value"))
           (Sample.parser [Sample.param_tag "x" (Some (NameExpression "String"))])
           Sample.f Sample.open_function
           (Sample.comment_of "* @param {String} x the value")
           [Sample.param_tag "x" (Some (NameExpression "String"))]
           _ _ eq_refl eq_refl eq_refl _) _)).
  - intros t [<-|[]]. split; [reflexivity|discriminate].
  - left. reflexivity.
Defined.

(** C3. With [requireReturn] off and no return with a value in the body, a
    return or returns tag whose type is named neither [void] nor
    [undefined] is reported as unexpected, under the tag's own spelling and
    at the tag's line; that is the only report of the title-specific check,
    which does not go on to the missing type and missing description
    checks. *)
Theorem unexpected_return_tag_reported
        (ctx : Context) (parse : string -> ParseResult)
        (n : FunctionNode) (fns : Stack) (c : Comment)
        (pre post : list Tag) (t : Tag) (w : list Report) (st : Locals)
        (fd : FunctionState) (ty : TypeExpression) :
  getJSDocComment ctx n = Some c ->
  parse (JS.replace_module (value c)) = Parsed (pre ++ t :: post) ->
  forEach_tags ctx c (JS.top fns) pre no_locals = (w, Normal st) ->
  requireReturn ctx = false ->
  JS.top fns = Some fd ->
  returnPresent fd = false ->
  is_return_title (tag_title t) = true ->
  tag_type t = Some ty ->
  type_name ty <> Some "void" ->
  type_name ty <> Some "undefined" ->
  let unexpected :=
    diagnostic c (at_line (loc_start_line c + tag_lineNumber t))
      ("Unexpected @" ++ tag_title t ++ " tag; function has no return statement.")%string
      [] in
  check_title ctx c (JS.top fns) t st = ([unexpected], Normal (set_hasReturns st true))
  /\ In unexpected (fst (fst (checkJSDoc ctx parse n fns))).
Proof.
  intros Hc Hp Hpre Hreq Hfd Hrp Htitle Ht Hvoid Hundef unexpected.
  assert (H : check_title ctx c (JS.top fns) t st
              = ([unexpected], Normal (set_hasReturns st true))).
  { rewrite Hfd. now apply (check_title_unexpected ctx c fd t st ty). }
  split; [exact H|].
  apply (checkJSDoc_reports_tag ctx parse n fns c pre post t w st unexpected Hc Hp Hpre).
  apply check_tag_reports_title. rewrite H. now left.
Qed.

Lemma unexpected_return_tag_reported_witness :
  In (diagnostic (Sample.comment_of "* @returns {number} the sum") (at_line 3)
        "Unexpected @returns tag; function has no return statement." [])
     (fst (fst (checkJSDoc
                  (Sample.documented Sample.lenient
                     (Sample.comment_of "* @returns {number} the sum"))
                  (Sample.parser [Sample.returns_number])
                  Sample.f Sample.open_function))).
Proof.
  apply (unexpected_return_tag_reported
           (Sample.documented Sample.lenient
              (Sample.comment_of "* @returns {number} the sum"))
           (Sample.parser [Sample.returns_number])
           Sample.f Sample.open_function
           (Sample.comment_of "* @returns {number} the sum")
           [] [] Sample.returns_number [] no_locals
           {| returnPresent := false |} (NameExpression "number"));
    try reflexivity; discriminate.
Defined.

(** C4. The function has the parameters (a, b, c) and the comment recorded
    the names (a, x, c), in this order: the cross-check reports that it
    expected JSDoc for "b" and found "x", at the second parameter, and
    reports nothing at the first and at the third.  It is the only report of
    the cross-check in what [checkJSDoc] reports. *)
Theorem expected_b_found_x
        (ctx : Context) (parse : string -> ParseResult)
        (n : FunctionNode) (fns : Stack) (c : Comment) (tags : list Tag)
        (w : list Report) (st : Locals) (fd : FunctionState) :
  getJSDocComment ctx n = Some c ->
  parse (JS.replace_module (value c)) = Parsed tags ->
  forEach_tags ctx c (JS.top fns) tags no_locals = (w, Normal st) ->
  JS.top fns = Some fd ->
  node_params n = ["a"; "b"; "c"] ->
  List.map fst (params st) = ["a"; "x"; "c"] ->
  let expected :=
    diagnostic c (Some {| line := JS.NaN; column := None |}) Msg.expected_param
      [("name", JS.VStr "b"); ("jsdocName", JS.VStr "x")] in
  check_real_param c (params st) (JS.keys (params st)) 0 "a" = ([], Normal tt)
  /\ check_real_param c (params st) (JS.keys (params st)) 1 "b" = ([expected], Normal tt)
  /\ check_real_param c (params st) (JS.keys (params st)) 2 "c" = ([], Normal tt)
  /\ exists w',
      fst (checkJSDoc ctx parse n fns) = (w' ++ [expected], Normal tt)
      /\ count_message Msg.expected_param w' = 0%nat
      /\ count_message Msg.missing_param w' = 0%nat.
Proof.
  intros Hc Hp Hloop Hfd Hreal Hkeys expected.
  destruct (checkJSDoc_cross_check ctx parse n fns c tags w st fd Hc Hp Hloop Hfd)
    as (w' & Hall & He & Hm).
  rewrite Hreal in Hall.
  destruct (params st) as [|[k1 t1] [|[k2 t2] [|[k3 t3] [|]]]]; try discriminate.
  injection Hkeys as -> -> ->.
  change (JS.keys [("a", t1); ("x", t2); ("c", t3)]) with ["a"; "x"; "c"] in *.
  repeat split; try reflexivity.
  exists w'. repeat split; assumption.
Qed.

Lemma expected_b_found_x_witness :
  exists w',
    fst (checkJSDoc
           (Sample.documented Sample.defaults (Sample.comment_of "* @constructor"))
           (Sample.parser [Sample.param_tag "a" None; Sample.param_tag "x" None;
                           Sample.param_tag "c" None])
           {| node_start := 0; node_params := ["a"; "b"; "c"] |}
           Sample.open_function)
    = (w' ++ [diagnostic (Sample.comment_of "* @constructor")
                (Some {| line := JS.NaN; column := None |}) Msg.expected_param
                [("name", JS.VStr "b"); ("jsdocName", JS.VStr "x")]],
       Normal tt)
    /\ count_message Msg.expected_param w' = 0%nat
    /\ count_message Msg.missing_param w' = 0%nat.
Proof.
  refine (proj2 (proj2 (proj2 (expected_b_found_x
           (Sample.documented Sample.defaults (Sample.comment_of "* @constructor"))
           (Sample.parser [Sample.param_tag "a" None; Sample.param_tag "x" None;
                           Sample.param_tag "c" None])
           {| node_start := 0; node_params := ["a"; "b"; "c"] |}
           Sample.open_function (Sample.comment_of "* @constructor")
           [Sample.param_tag "a" None; Sample.param_tag "x" None;
            Sample.param_tag "c" None]
           _ _ {| returnPresent := false |}
           eq_refl eq_refl eq_refl eq_refl eq_refl eq_refl)))).
Defined.

(** C5. A parameter of the function whose name the comment did not record,
    at a position where the comment recorded no other name, is reported
    missing, by one report on the comment node that carries the name; if the
    function has one parameter of this name, it is the only such report for
    the name in what [checkJSDoc] reports. *)
Theorem undocumented_param_reported
        (ctx : Context) (parse : string -> ParseResult)
        (n : FunctionNode) (fns : Stack) (c : Comment) (tags : list Tag)
        (w : list Report) (st : Locals) (fd : FunctionState)
        (i : nat) (name : string) :
  getJSDocComment ctx n = Some c ->
  parse (JS.replace_module (value c)) = Parsed tags ->
  forEach_tags ctx c (JS.top fns) tags no_locals = (w, Normal st) ->
  JS.top fns = Some fd ->
  nth_error (node_params n) i = Some name ->
  JS.get (params st) name = None ->
  (forall k, nth_error (JS.keys (params st)) i = Some k -> k = name) ->
  let missing :=
    diagnostic c None Msg.missing_param [("name", JS.VStr name)] in
  check_real_param c (params st) (JS.keys (params st)) i name = ([missing], Normal tt)
  /\ In missing (fst (fst (checkJSDoc ctx parse n fns)))
  /\ (count_occ string_dec (node_params n) name = 1%nat ->
      List.filter (is_missing_param_for name) (fst (fst (checkJSDoc ctx parse n fns)))
      = [missing]).
Proof.
  intros Hc Hp Hloop Hfd Hnth Hget Hpos missing.
  assert (Hone : check_real_param c (params st) (JS.keys (params st)) i name
                 = ([missing], Normal tt)).
  { unfold check_real_param, report_at. rewrite Hget.
    destruct (nth_error (JS.keys (params st)) i) as [k|]; [|reflexivity].
    rewrite (Hpos k eq_refl), String.eqb_refl, andb_false_r. reflexivity. }
  destruct (checkJSDoc_cross_check ctx parse n fns c tags w st fd Hc Hp Hloop Hfd)
    as (w' & Hall & _ & Hm).
  destruct (nth_error_split _ _ Hnth) as (l1 & l2 & Hreal & Hlen).
  split; [exact Hone|].
  rewrite Hall, Hreal, forEach_params_app, forEach_params_cons.
  cbn [Nat.add]. rewrite Hlen, Hone. cbn [fst]. split.
  - apply in_or_app. right. apply in_or_app. right. now left.
  - rewrite count_occ_app, count_occ_cons_eq by reflexivity.
    intros Hcount.
    assert (H1 : ~ In name l1) by (apply count_occ_not_In with (eq_dec := string_dec); lia).
    assert (H2 : ~ In name l2) by (apply count_occ_not_In with (eq_dec := string_dec); lia).
    rewrite !filter_app.
    rewrite (forEach_params_other c _ _ 0 name l1 H1).
    rewrite (forEach_params_other c _ _ (S i) name l2 H2).
    rewrite filter_missing_param_none.
    + simpl. unfold is_missing_param_for. simpl. now rewrite String.eqb_refl.
    + clear - Hm. unfold count_message in Hm.
      induction w' as [|r w' IH]; [constructor|].
      simpl in Hm. destruct (String.eqb (message r) Msg.missing_param) eqn:E;
        [discriminate|]. constructor; auto.
Qed.

Lemma undocumented_param_reported_witness :
  List.filter (is_missing_param_for "b")
    (fst (fst (checkJSDoc
                 (Sample.documented Sample.defaults
                    (Sample.comment_of "* @returns {number} the sum"))
                 (Sample.parser [Sample.returns_number])
                 {| node_start := 0; node_params := ["a"; "b"] |}
                 Sample.open_function)))
  = [diagnostic (Sample.comment_of "* @returns {number} the sum") None
       Msg.missing_param [("name", JS.VStr "b")]].
Proof.
  refine (proj2 (proj2 (undocumented_param_reported
           (Sample.documented Sample.defaults
              (Sample.comment_of "* @returns {number} the sum"))
           (Sample.parser [Sample.returns_number])
           {| node_start := 0; node_params := ["a"; "b"] |}
           Sample.open_function (Sample.comment_of "* @returns {number} the sum")
           [Sample.returns_number] _ _ {| returnPresent := false |} 1 "b"
           eq_refl eq_refl eq_refl eq_refl eq_refl eq_refl _)) eq_refl).
  intros k H. discriminate H.
Defined.

(** C6. Two param tags of one undotted name, the first of them the first
    param tag of that name in the comment: when the loop gets to the second,
    the first is the recorded entry of the name; the second is reported as a
    duplicate at its own line and leaves the registry as it is; and the
    first is still the entry of the name in the registry that the
    cross-check reads after the loop. *)
Theorem duplicate_param_keeps_first
        (ctx : Context) (parse : string -> ParseResult)
        (n : FunctionNode) (fns : Stack) (c : Comment)
        (pre mid post : list Tag) (t1 t2 : Tag) (w1 : list Report) (st1 : Locals) :
  getJSDocComment ctx n = Some c ->
  parse (JS.replace_module (value c)) = Parsed (pre ++ t1 :: mid ++ t2 :: post) ->
  tag_title t1 = "param" ->
  tag_title t2 = "param" ->
  tag_name t2 = tag_name t1 ->
  JS.indexOf (tag_name t1) "." = (-1)%Z ->
  (forall t, In t pre -> tag_title t = "param" -> tag_name t <> tag_name t1) ->
  forEach_tags ctx c (JS.top fns) (pre ++ t1 :: mid) no_locals = (w1, Normal st1) ->
  JS.get (params st1) (tag_name t1) = Some t1
  /\ In (diagnostic c (at_line (loc_start_line c + tag_lineNumber t2))
           Msg.duplicate_param [("name", JS.VStr (tag_name t1))])
        (fst (fst (checkJSDoc ctx parse n fns)))
  /\ (forall w2 st2,
         check_tag ctx c (JS.top fns) t2 st1 = (w2, Normal st2) -> st2 = st1)
  /\ (forall w st,
         forEach_tags ctx c (JS.top fns) (pre ++ t1 :: mid ++ t2 :: post) no_locals
         = (w, Normal st) ->
         JS.get (params st) (tag_name t1) = Some t1).
Proof.
  intros Hc Hp Ht1 Ht2 Hname Hdot Hfirst Hloop.
  assert (Hrec : JS.get (params st1) (tag_name t1) = Some t1).
  { destruct (forEach_tags_normal ctx c (JS.top fns) pre mid t1 no_locals st1 w1 Hloop)
      as (wa & sta & wb & stb & wc & Ha & Hb & Hc' & _).
    eapply forEach_tags_keeps; [|exact Hc'].
    eapply check_tag_records; [exact Ht1|exact Hdot| |exact Hb].
    apply (forEach_tags_absent ctx c (JS.top fns) pre no_locals sta wa (tag_name t1));
      [reflexivity|exact Hfirst|exact Ha]. }
  assert (Hrec2 : JS.get (params st1) (tag_name t2) = Some t1) by now rewrite Hname.
  destruct (check_tag_duplicate ctx c (JS.top fns) t2 t1 st1 Ht2 Hrec2) as [Hdup Hsame].
  rewrite Hname in Hdup.
  split; [exact Hrec|]. split; [|split; [exact Hsame|]].
  - apply (checkJSDoc_reports_tag ctx parse n fns c (pre ++ t1 :: mid) post t2 w1 st1);
      [exact Hc| |exact Hloop|exact Hdup].
    rewrite Hp. f_equal. now rewrite <- app_assoc.
  - intros w st H.
    replace (pre ++ t1 :: mid ++ t2 :: post) with ((pre ++ t1 :: mid) ++ t2 :: post) in H
      by now rewrite <- app_assoc.
    rewrite forEach_tags_app, Hloop in H.
    apply bind_normal in H. destruct H as (wa & sta & wb & Ha & Hb & _).
    injection Ha as _ <-.
    eapply forEach_tags_keeps; [exact Hrec|exact Hb].
Qed.

Lemma duplicate_param_keeps_first_witness :
  In (diagnostic (Sample.comment_of "* @constructor") (at_line 3)
        Msg.duplicate_param [("name", JS.VStr "x")])
     (fst (fst (checkJSDoc
                  (Sample.documented Sample.defaults (Sample.comment_of "* @constructor"))
                  (Sample.parser [Sample.param_tag "x" None;
                                  Sample.param_tag "x" (Some (NameExpression "number"))])
                  Sample.f Sample.open_function))).
Proof.
  refine (proj1 (proj2 (duplicate_param_keeps_first
           (Sample.documented Sample.defaults (Sample.comment_of "* @constructor"))
           (Sample.parser [Sample.param_tag "x" None;
                           Sample.param_tag "x" (Some (NameExpression "number"))])
           Sample.f Sample.open_function (Sample.comment_of "* @constructor")
           [] [] [] (Sample.param_tag "x" None)
           (Sample.param_tag "x" (Some (NameExpression "number")))
           _ _ eq_refl eq_refl eq_refl eq_refl eq_refl eq_refl _ eq_refl))).
  intros t [].
Defined.

(** C7. When the parser fails on the comment, [checkJSDoc] makes exactly one
    report, on the comment node and without a location: the missing-brace
    message when the parser's message contains "braces" in any case, the
    syntax-error message otherwise.  Nothing else is checked and the handler
    completes. *)
Theorem parse_failure_reports_once
        (ctx : Context) (parse : string -> ParseResult)
        (n : FunctionNode) (fns : Stack) (c : Comment) (msg : string) :
  getJSDocComment ctx n = Some c ->
  parse (JS.replace_module (value c)) = ParseError msg ->
  fst (checkJSDoc ctx parse n fns)
  = ([diagnostic c None
        (if JS.test_braces_i msg then Msg.missing_brace else Msg.syntax_error) []],
     Normal tt)
  /\ (JS.test_braces_i msg = true <->
      exists pre mid post,
        msg = (pre ++ mid ++ post)%string /\ JS.toLowerCase mid = "braces").
Proof.
  intros Hc Hp. split; [|apply test_braces_i_spec].
  rewrite (checkJSDoc_parse_error ctx parse n fns c msg Hc Hp).
  unfold check_parse_error. now destruct (JS.test_braces_i msg).
Qed.

Lemma parse_failure_reports_once_witness :
  fst (checkJSDoc (Sample.documented Sample.defaults (Sample.comment_of "* @param {string x"))
                  (Sample.broken "Braces are not balanced") Sample.f Sample.open_function)
  = ([diagnostic (Sample.comment_of "* @param {string x") None Msg.missing_brace []],
     Normal tt).
Proof.
  apply (parse_failure_reports_once
           (Sample.documented Sample.defaults (Sample.comment_of "* @param {string x"))
           (Sample.broken "Braces are not balanced") Sample.f Sample.open_function
           (Sample.comment_of "* @param {string x") "Braces are not balanced");
    reflexivity.
Defined.



(** C9. Whatever events came before, a return statement changes at most the
    top entry of the stack of open functions, and changes it only when the
    statement has an argument: the handler reports nothing and does not
    fail, the stack keeps its depth and every entry below the top; a bare
    [return;] leaves the stack as it is, so does a return seen while no
    function is open, and a return with an argument sets [returnPresent] of
    the top entry. *)
Theorem return_changes_top_entry_only
        (ctx : Context) (parse : string -> ParseResult)
        (evs : list Event) (r : ReturnStatement)
        (fns0 fns : Stack) (w : list Report) :
  run ctx parse evs fns0 = (w, Normal tt, fns) ->
  exists fns',
    run ctx parse (evs ++ [ReturnSeen r]) fns0 = (w, Normal tt, fns')
    /\ List.length fns' = List.length fns
    /\ removelast fns' = removelast fns
    /\ (argument r = None -> fns' = fns)
    /\ (fns = [] -> fns' = [])
    /\ (forall below top,
           argument r <> None -> fns = below ++ [top] ->
           fns' = below ++ [{| returnPresent := true |}]).
Proof.
  intros Hrun. exists (snd (addReturn r fns)).
  split; [|split; [|split; [|split; [|split]]]].
  - rewrite run_app, Hrun, run_cons. cbn [handle run].
    pose proof (addReturn_quiet r fns) as Hq.
    destruct (addReturn r fns) as [[w1 c1] fns1]. simpl in Hq.
    injection Hq as -> ->. simpl. now rewrite !app_nil_r.
  - apply addReturn_length.
  - apply addReturn_removelast.
  - apply addReturn_bare.
  - intros ->. reflexivity.
  - intros below top Harg ->. now apply addReturn_value.
Qed.

Lemma return_changes_top_entry_only_witness :
  run Sample.silent Sample.no_parser
      [FunctionEnter Sample.f; FunctionEnter Sample.g] []
  = ([], Normal tt, [{| returnPresent := false |}; {| returnPresent := false |}])
  /\ exists fns',
      run Sample.silent Sample.no_parser
          ([FunctionEnter Sample.f; FunctionEnter Sample.g]
             ++ [ReturnSeen Sample.return_value]) []
      = ([], Normal tt, fns')
      /\ List.length fns' = 2%nat
      /\ removelast fns' = [{| returnPresent := false |}]
      /\ (argument Sample.return_value = None ->
          fns' = [{| returnPresent := false |}; {| returnPresent := false |}])
      /\ ([{| returnPresent := false |}; {| returnPresent := false |}] = [] ->
          fns' = [])
      /\ (forall below top,
             argument Sample.return_value <> None ->
             [{| returnPresent := false |}; {| returnPresent := false |}]
             = below ++ [top] ->
             fns' = below ++ [{| returnPresent := true |}]).
Proof.
  split; [reflexivity|].
  apply (@return_changes_top_entry_only Sample.silent Sample.no_parser
           [FunctionEnter Sample.f; FunctionEnter Sample.g]
           Sample.return_value []
           [{| returnPresent := false |}; {| returnPresent := false |}] []).
  reflexivity.
Defined.

(** C10. The exit check takes the top entry off the stack of open functions
    before anything else and whatever happens next: with or without a
    comment, and also when the check fails.  A function without a comment is
    left without a report and without a failure.  So after any events the
    handlers completed, the stack is as deep as the number of open
    functions, and a function entered and left around a well-nested body
    leaves the stack as it found it. *)
Theorem exit_pops_unconditionally
        (ctx : Context) (parse : string -> ParseResult) :
  (forall n fns, snd (checkJSDoc ctx parse n fns) = removelast fns)
  /\ (forall n fns,
         getJSDocComment ctx n = None ->
         fst (checkJSDoc ctx parse n fns) = ([], Normal tt))
  /\ (forall evs fns,
         (forall n, In (FunctionExit n) evs -> getJSDocComment ctx n = None) ->
         fst (run ctx parse evs fns) = ([], Normal tt))
  /\ (forall evs fns w fns',
         run ctx parse evs fns = (w, Normal tt, fns') ->
         List.length fns' = open_functions evs (List.length fns))
  /\ (forall n body fns w fns',
         balanced body ->
         run ctx parse (FunctionEnter n :: body ++ [FunctionExit n]) fns
         = (w, Normal tt, fns') ->
         fns' = fns).
Proof.
  split; [|split; [|split; [|split]]].
  - intros n fns. apply checkJSDoc_pops.
  - intros n fns. apply checkJSDoc_no_comment.
  - intros evs fns. apply run_no_comments.
  - intros evs fns w fns'. apply run_depth.
  - intros n body fns w fns'. apply paired_enter_exit.
Qed.

Lemma exit_pops_unconditionally_witness :
  snd (checkJSDoc Sample.silent Sample.no_parser Sample.f
         [{| returnPresent := false |}; {| returnPresent := true |}])
  = [{| returnPresent := false |}]
  /\ fst (checkJSDoc Sample.silent Sample.no_parser Sample.f
            [{| returnPresent := true |}]) = ([], Normal tt)
  /\ fst (run Sample.silent Sample.no_parser
            [FunctionEnter Sample.f; FunctionExit Sample.f] []) = ([], Normal tt)
  /\ List.length (A := FunctionState) [{| returnPresent := false |}]
     = open_functions
         [FunctionEnter Sample.f; FunctionEnter Sample.g; FunctionExit Sample.g] 0
  /\ [{| returnPresent := true |}] = [{| returnPresent := true |}].
Proof.
  destruct (exit_pops_unconditionally Sample.silent Sample.no_parser)
    as (Hpop & Hnone & Hquiet & Hdepth & Hpair).
  split; [|split; [|split; [|split]]].
  - apply (Hpop Sample.f).
  - apply (Hnone Sample.f). reflexivity.
  - apply Hquiet. intros n _. reflexivity.
  - apply (Hdepth [FunctionEnter Sample.f; FunctionEnter Sample.g; FunctionExit Sample.g]
             [] []).
    reflexivity.
  - apply (Hpair Sample.f
             [ReturnSeen Sample.return_bare; FunctionEnter Sample.g;
              ReturnSeen Sample.return_value; FunctionExit Sample.g]
             [{| returnPresent := true |}] []).
    + apply balanced_return.
      apply (@balanced_function Sample.g [ReturnSeen Sample.return_value] []).
      * apply balanced_return, balanced_nil.
      * apply balanced_nil.
    + reflexivity.
Defined.

(* ------------------------------------------------------------------------ *)
(** * Further properties of the rule *)
(* ------------------------------------------------------------------------ *)

(* ------------------------------------------------------------------------ *)
(** ** Returns of nested functions *)
(* ------------------------------------------------------------------------ *)

Lemma addReturn_top (r : ReturnStatement) (below : Stack) (top : FunctionState) :
  snd (addReturn r (below ++ [top]))
  = below ++ [{| returnPresent := returnPresent top || JS.truthy_object (argument r) |}].
Proof.
  destruct (argument r) eqn:E.
  - rewrite addReturn_value by congruence. simpl. now rewrite orb_true_r.
  - rewrite addReturn_bare by assumption. destruct top as [b]. simpl.
    now rewrite orb_false_r.
Qed.

Lemma direct_return_app (body : list Event) :
  balanced body ->
  forall d rest,
    direct_return d (body ++ rest) = direct_return d body || direct_return d rest.
Proof.
  induction 1 as [|r evs _ IH|n body evs _ IHbody _ IH]; intros d rest.
  - reflexivity.
  - simpl. now rewrite IH, orb_assoc.
  - simpl. rewrite <- app_assoc. simpl.
    rewrite !IHbody. simpl. now rewrite IH, !orb_assoc.
Qed.

Lemma direct_return_nested (body : list Event) :
  balanced body -> forall d, direct_return (S d) body = false.
Proof.
  induction 1 as [|r evs _ IH|n body evs Hb IHbody _ IH]; intros d.
  - reflexivity.
  - simpl. apply IH.
  - simpl. rewrite (direct_return_app body Hb). simpl.
    now rewrite IHbody, IH.
Qed.

Lemma run_balanced_top (ctx : Context) (parse : string -> ParseResult)
      (body : list Event) :
  balanced body ->
  forall (below : Stack) (top : FunctionState) (w : list Report) (fns' : Stack),
    run ctx parse body (below ++ [top]) = (w, Normal tt, fns') ->
    fns' = below ++ [{| returnPresent := returnPresent top || direct_return 0 body |}].
Proof.
  induction 1 as [|r evs _ IH|n body evs Hb IHbody _ IH]; intros below top w fns'.
  - simpl. intros [= _ <-]. destruct top as [b]. simpl. now rewrite orb_false_r.
  - rewrite run_cons. cbn [handle].
    pose proof (addReturn_quiet r (below ++ [top])) as Hq.
    pose proof (addReturn_top r below top) as Ht.
    destruct (addReturn r (below ++ [top])) as [[w1 c1] fns1].
    simpl in Hq, Ht. injection Hq as -> ->. subst fns1.
    destruct (run ctx parse evs _) as [[w2 r2] fns2] eqn:E2.
    intros H. injection H as _ -> ->.
    apply IH in E2. rewrite E2. simpl. now rewrite orb_assoc.
  - rewrite run_enter, run_app.
    destruct (run ctx parse body ((below ++ [top]) ++ [{| returnPresent := false |}]))
      as [[w1 [[]|ex]] fns1] eqn:E1; [|discriminate].
    apply IHbody in E1. subst fns1.
    rewrite run_cons. cbn [handle].
    pose proof (checkJSDoc_pops ctx parse n
                  ((below ++ [top]) ++
                   [{| returnPresent := returnPresent {| returnPresent := false |}
                                        || direct_return 0 body |}])) as Hp.
    destruct (checkJSDoc ctx parse n _) as [[w2 c2] fns2].
    rewrite removelast_last in Hp. simpl in Hp. subst fns2.
    destruct c2 as [[]|ex]; [|discriminate].
    destruct (run ctx parse evs (below ++ [top])) as [[w3 r3] fns3] eqn:E3.
    intros H. injection H as _ -> ->.
    apply IH in E3. rewrite E3. simpl.
    rewrite (direct_return_app body Hb). simpl.
    now rewrite (direct_return_nested body Hb).
Qed.

(* ------------------------------------------------------------------------ *)
(** ** Stripping the module markers *)
(* ------------------------------------------------------------------------ *)

Lemma replace_module_from_skip (p t : string) :
  JS.replace_module_from (String.length p) (p ++ t)%string
  = JS.replace_module_from 0 t.
Proof.
  induction p as [|a p IH]; simpl.
  - reflexivity.
  - exact IH.
Qed.

Lemma prefix_split (p s : string) :
  String.prefix p s = true -> exists t, s = (p ++ t)%string.
Proof.
  revert s. induction p as [|a p IH]; intros s H.
  - exists s. reflexivity.
  - destruct s as [|b s]; [discriminate|]. simpl in H.
    destruct (ascii_dec a b) as [->|]; [|discriminate].
    apply IH in H. destruct H as [t ->]. exists t. reflexivity.
Qed.

Lemma replace_module_match (t : string) :
  JS.replace_module ("module:" ++ t)%string = JS.replace_module t.
Proof.
  unfold JS.replace_module.
  change ("module:" ++ t)%string with (String "m" ("odule:" ++ t))%string.
  cbn [JS.replace_module_from].
  change (String "m" ("odule:" ++ t))%string with ("module:" ++ t)%string.
  rewrite prefix_append.
  apply (replace_module_from_skip "odule:" t).
Qed.

Lemma replace_module_other (a : ascii) (s : string) :
  String.prefix "module:" (String a s) = false ->
  JS.replace_module (String a s) = String a (JS.replace_module s).
Proof.
  intros H. unfold JS.replace_module. cbn [JS.replace_module_from]. now rewrite H.
Qed.

Lemma newlines_append (s t : string) :
  newlines (s ++ t)%string = (newlines s + newlines t)%nat.
Proof.
  induction s as [|a s IH]; simpl; [reflexivity|]. rewrite IH. lia.
Qed.

Lemma replace_module_newlines (s : string) :
  newlines (JS.replace_module s) = newlines s.
Proof.
  remember (String.length s) as n eqn:Hn.
  assert (Hle : (String.length s <= n)%nat) by lia. clear Hn.
  revert s Hle. induction n as [|n IH]; intros s Hle.
  - destruct s; [reflexivity|simpl in Hle; lia].
  - destruct s as [|a s]; [reflexivity|].
    destruct (String.prefix "module:" (String a s)) eqn:E.
    + apply prefix_split in E. destruct E as [t E]. rewrite E, replace_module_match.
      rewrite newlines_append. change (newlines "module:") with 0%nat.
      apply IH. rewrite E in Hle. simpl in Hle. lia.
    + rewrite (replace_module_other a s E). simpl. f_equal.
      apply IH. simpl in Hle. lia.
Qed.

Lemma split_lines_length (s : string) :
  List.length (JS.split_lines s) = S (newlines s).
Proof.
  induction s as [|a s IH]; [reflexivity|]. simpl.
  destruct (Ascii.eqb a JS.newline); simpl.
  - now rewrite IH.
  - destruct (JS.split_lines s); simpl in *; congruence.
Qed.

(* ------------------------------------------------------------------------ *)
(** ** Selecting reports *)
(* ------------------------------------------------------------------------ *)

Lemma filter_emits_nil {A : Type} (P : Report -> Prop) (p : Report -> bool) (m : M A) :
  emits P m -> (forall r, P r -> p r = false) -> List.filter p (fst m) = [].
Proof.
  unfold emits. intros H Hp. induction H as [|r w Hr _ IH]; [reflexivity|].
  simpl. now rewrite (Hp r Hr).
Qed.

Lemma count_message_filter (msg : string) (w : list Report) :
  count_message msg w
  = List.length (List.filter (fun r => String.eqb (message r) msg) w).
Proof. reflexivity. Qed.

(** The parts of one completed pass of the loop body. *)
Lemma check_tag_parts (ctx : Context) (c : Comment) (fd : option FunctionState)
      (t : Tag) (st st' : Locals) (w : list Report) :
  check_tag ctx c fd t st = (w, Normal st') ->
  exists w1 w2 w3,
    check_title ctx c fd t st = (w1, Normal st')
    /\ check_prefer ctx c t = (w2, Normal tt)
    /\ check_type_name c t = (w3, Normal tt)
    /\ w = w1 ++ w2 ++ w3.
Proof.
  unfold check_tag. intros H.
  apply bind_normal in H. destruct H as (w1 & st1 & wa & H1 & H & ->).
  apply bind_normal in H. destruct H as (w2 & [] & wb & H2 & H & ->).
  apply bind_normal in H. destruct H as (w3 & [] & wc & H3 & H & ->).
  injection H as <- <-. exists w1, w2, w3. now rewrite app_nil_r.
Qed.

(** Selected reports of a completed loop, tag by tag. *)
Lemma forEach_tags_select (ctx : Context) (c : Comment) (fd : option FunctionState)
      (p : Report -> bool) (q : Tag -> bool) :
  (forall t st w st',
      check_tag ctx c fd t st = (w, Normal st') ->
      List.length (List.filter p w) = if q t then 1%nat else 0%nat) ->
  forall tags st w st',
    forEach_tags ctx c fd tags st = (w, Normal st') ->
    List.length (List.filter p w) = List.length (List.filter q tags).
Proof.
  intros Htag. induction tags as [|t tags IH]; intros st w st'; simpl.
  - now intros [= <- _].
  - intros H. apply bind_normal in H. destruct H as (w1 & st1 & w2 & H1 & H2 & ->).
    rewrite filter_app, length_app, (Htag _ _ _ _ H1), (IH _ _ _ H2).
    now destruct (q t).
Qed.

(** *** What each part of the loop body reports *)

Lemma unexpected_prefix (title : string) :
  String.prefix "Unexpected @" (Msg.unexpected_return title) = true.
Proof.
  unfold Msg.unexpected_return.
  change ("Unexpected @" ++ title ++ " tag; function has no return statement.")%string
    with ("Unexpected @" ++ (title ++ " tag; function has no return statement."))%string.
  apply prefix_append.
Qed.

Lemma check_param_messages (ctx : Context) (c : Comment) (t : Tag) (st : Locals) :
  emits (fun r => message r = Msg.missing_param_type
                  \/ message r = Msg.missing_param_description
                  \/ message r = Msg.duplicate_param)
        (check_param ctx c t st).
Proof. unfold check_param, report_at. emits_all; simpl; auto. Qed.

Lemma check_return_messages (ctx : Context) (c : Comment) (fd : option FunctionState)
      (t : Tag) (st : Locals) :
  emits (fun r => is_unexpected r = true
                  \/ message r = Msg.missing_return_type
                  \/ message r = Msg.missing_return_description)
        (check_return ctx c fd t st).
Proof.
  unfold check_return, type_name_ne, read_returnPresent, report_at.
  emits_all; simpl; auto.
  left. apply unexpected_prefix.
Qed.

Lemma check_title_title_messages (ctx : Context) (c : Comment)
      (fd : option FunctionState) (t : Tag) (st : Locals) :
  emits (fun r => message r <> Msg.use_instead
                  /\ message r <> Msg.expected_type_name)
        (check_title ctx c fd t st).
Proof.
  unfold check_title.
  destruct (String.eqb (tag_title t) "param").
  - eapply Forall_impl; [|apply check_param_messages].
    intros r [H|[H|H]]; rewrite H; split; discriminate.
  - destruct (_ || _).
    + eapply Forall_impl; [|apply check_return_messages].
      intros r [H|[H|H]]; try (rewrite H; split; discriminate).
      unfold is_unexpected in H. split; intros E; rewrite E in H; discriminate.
    + destruct (String.eqb _ _); apply emits_ret.
Qed.

Lemma check_prefer_reports (ctx : Context) (c : Comment) (t : Tag) (w : list Report) :
  check_prefer ctx c t = (w, Normal tt) ->
  Forall (fun r => message r = Msg.use_instead) w
  /\ List.length w = if disfavoured ctx t then 1%nat else 0%nat.
Proof.
  unfold check_prefer, disfavoured, report_at.
  destruct (JS.get (prefer ctx) "hasOwnProperty"); [discriminate|].
  destruct (JS.get (prefer ctx) (tag_title t)); intros [= <-];
    split; try reflexivity; repeat constructor.
Qed.

Lemma check_type_name_reports (c : Comment) (t : Tag) (w : list Report) :
  check_type_name c t = (w, Normal tt) ->
  Forall (fun r => message r = Msg.expected_type_name) w
  /\ List.length w = if misspelled_type t then 1%nat else 0%nat.
Proof.
  unfold check_type_name, misspelled_type, report_at.
  destruct (tag_type t) as [[name|k]|]; try (intros [= <-]; split; [constructor|reflexivity]).
  destruct (map_get _) as [v|]; [|intros [= <-]; split; [constructor|reflexivity]].
  destruct (_ && _); [|intros [= <-]; split; [constructor|reflexivity]].
  destruct (JS.array_get _ _) as [l|]; [|discriminate].
  simpl. intros [= <-]. split; [repeat constructor|reflexivity].
Qed.

Lemma filter_never {A : Type} (l : list A) : List.filter (fun _ => false) l = [].
Proof. induction l; [reflexivity|assumption]. Qed.

Lemma filter_all (p : Report -> bool) (w : list Report) :
  Forall (fun r => p r = true) w -> List.filter p w = w.
Proof. induction 1 as [|r w Hr _ IH]; simpl; [reflexivity|]. now rewrite Hr, IH. Qed.

Lemma filter_none (p : Report -> bool) (w : list Report) :
  Forall (fun r => p r = false) w -> List.filter p w = [].
Proof. induction 1 as [|r w Hr _ IH]; simpl; [reflexivity|]. now rewrite Hr. Qed.

(** Reports selected from the title-specific check only. *)
Lemma check_tag_select_title (ctx : Context) (c : Comment) (fd : option FunctionState)
      (p : Report -> bool) (t : Tag) (st st' : Locals) (w : list Report) :
  (forall r, message r = Msg.use_instead \/ message r = Msg.expected_type_name ->
             p r = false) ->
  check_tag ctx c fd t st = (w, Normal st') ->
  exists w1, check_title ctx c fd t st = (w1, Normal st')
             /\ List.filter p w = List.filter p w1.
Proof.
  intros Hp H. apply check_tag_parts in H.
  destruct H as (w1 & w2 & w3 & H1 & H2 & H3 & ->).
  exists w1. split; [exact H1|].
  rewrite !filter_app.
  destruct (check_prefer_reports ctx c t w2 H2) as [Hm _].
  destruct (check_type_name_reports c t w3 H3) as [Hm3 _].
  rewrite (filter_none p w2), (filter_none p w3), !app_nil_r; [reflexivity| |].
  - eapply Forall_impl; [|exact Hm3]. intros r Hr. apply Hp. now right.
  - eapply Forall_impl; [|exact Hm]. intros r Hr. apply Hp. now left.
Qed.

(** [case 'param']: its three reports. *)
Lemma check_param_reports (ctx : Context) (c : Comment) (t : Tag) (st : Locals) :
  fst (check_param ctx c t st)
  = (if JS.truthy_object (tag_type t) then []
     else [diagnostic c (at_line (loc_start_line c + tag_lineNumber t))
             Msg.missing_param_type [("name", JS.VStr (tag_name t))]])
      ++ (if negb (JS.truthy_opt_string (tag_description t)) && requireParamDescription ctx
          then [diagnostic c (at_line (loc_start_line c + tag_lineNumber t))
                  Msg.missing_param_description [("name", JS.VStr (tag_name t))]]
          else [])
      ++ (if JS.truthy_object (JS.get (params st) (tag_name t))
          then [diagnostic c (at_line (loc_start_line c + tag_lineNumber t))
                  Msg.duplicate_param [("name", JS.VStr (tag_name t))]]
          else []).
Proof.
  unfold check_param, report_at, when.
  destruct (JS.truthy_object (tag_type t));
    destruct (negb (JS.truthy_opt_string (tag_description t)) && requireParamDescription ctx);
    destruct (JS.truthy_object (JS.get (params st) (tag_name t))); simpl;
    try reflexivity;
    destruct (JS.indexOf (tag_name t) "." =? -1)%Z; reflexivity.
Qed.

(** A completed [case 'return'] had a type to read. *)
Lemma check_return_typed (ctx : Context) (c : Comment) (fd : option FunctionState)
      (t : Tag) (st st' : Locals) (w : list Report) :
  check_return ctx c fd t st = (w, Normal st') -> tag_type t <> None.
Proof.
  intros H Ht. destruct (check_return_untyped ctx c fd t st Ht) as (w' & e & He).
  congruence.
Qed.

Lemma check_return_no_missing_type (ctx : Context) (c : Comment)
      (fd : option FunctionState) (t : Tag) (st st' : Locals) (w : list Report) :
  check_return ctx c fd t st = (w, Normal st') ->
  Forall (fun r => String.eqb (message r) Msg.missing_return_type = false) w.
Proof.
  intros H. pose proof (check_return_typed ctx c fd t st st' w H) as Ht.
  destruct (tag_type t) as [ty|] eqn:Ety; [clear Ht|contradiction].
  revert H. unfold check_return, type_name_ne, read_returnPresent, report_at.
  rewrite Ety.
  destruct (requireReturn ctx), fd as [[[]]|]; simpl;
    try discriminate;
    destruct (JS.opt_strict_ne (type_name ty) "void"); simpl;
    try destruct (JS.opt_strict_ne (type_name ty) "undefined"); simpl;
    try destruct (JS.truthy_opt_string (tag_description t)); simpl;
    intros [= <- _]; repeat constructor.
  all: unfold Msg.unexpected_return; simpl; reflexivity.
Qed.

(** The three ways through [switch (tag.title)]. *)
Lemma check_title_case (ctx : Context) (c : Comment) (fd : option FunctionState)
      (t : Tag) (st st' : Locals) (w : list Report) :
  check_title ctx c fd t st = (w, Normal st') ->
  (is_param t = true /\ w = fst (check_param ctx c t st))
  \/ (is_param t = false /\ is_return_title (tag_title t) = true
      /\ check_return ctx c fd t st = (w, Normal st'))
  \/ (is_param t = false /\ is_return_title (tag_title t) = false /\ w = []).
Proof.
  unfold check_title, is_param, is_return_title.
  destruct (String.eqb (tag_title t) "param").
  - intros H. left. now rewrite H.
  - destruct (_ || _).
    + intros H. right. left. auto.
    + intros H. right. right. destruct (String.eqb _ _); injection H as <- _; auto.
Qed.

(** Reports of the loop selected from all the reports of [checkJSDoc]. *)
Lemma checkJSDoc_select_loop (ctx : Context) (parse : string -> ParseResult)
      (n : FunctionNode) (fns : Stack) (c : Comment) (tags : list Tag)
      (w : list Report) (st : Locals) (p : Report -> bool) :
  getJSDocComment ctx n = Some c ->
  parse (JS.replace_module (value c)) = Parsed tags ->
  forEach_tags ctx c (JS.top fns) tags no_locals = (w, Normal st) ->
  (forall r, message r = Msg.missing_return \/ message r = Msg.expected_param
             \/ message r = Msg.missing_param -> p r = false) ->
  List.filter p (fst (fst (checkJSDoc ctx parse n fns))) = List.filter p w.
Proof.
  intros Hc Hp Hloop Hsel.
  rewrite (checkJSDoc_after_loop ctx parse n fns c tags w st Hc Hp Hloop).
  cbn [fst]. rewrite !filter_app.
  rewrite (filter_emits_nil _ p _ (check_missing_return_messages ctx c (JS.top fns) st))
    by (intros r Hr; apply Hsel; now left).
  destruct (snd (check_missing_return ctx c (JS.top fns) st)).
  - rewrite (filter_emits_nil _ p _
               (forEach_params_messages c (params st) (JS.keys (params st)) 0
                  (node_params n)))
      by (intros r Hr; apply Hsel; now right).
    now rewrite !app_nil_r.
  - now rewrite !app_nil_r.
Qed.

(** Splits the cases of one pass, leaving the param case to the caller. *)
Ltac title_cases H w1 :=
  let Hp := fresh "Hparam" in
  let Hr := fresh "Hreturn" in
  let E := fresh "E" in
  apply check_title_case in H;
  destruct H as [[Hp E]|[(Hp & Hr & E)|(Hp & Hr & E)]].

Lemma unexpected_not (r : Report) (msg : string) :
  is_unexpected r = true -> String.prefix "Unexpected @" msg = false ->
  String.eqb (message r) msg = false.
Proof.
  unfold is_unexpected. intros H Hm.
  destruct (String.eqb_spec (message r) msg) as [E|]; [|reflexivity]. congruence.
Qed.

Section PerTag.

Variable ctx : Context.
Variable c : Comment.
Variable fd : option FunctionState.

Lemma check_tag_missing_param_type (t : Tag) (st st' : Locals) (w : list Report) :
  check_tag ctx c fd t st = (w, Normal st') ->
  List.length (List.filter (fun r => String.eqb (message r) Msg.missing_param_type) w)
  = if param_without_type t then 1%nat else 0%nat.
Proof.
  intros H.
  apply (check_tag_select_title ctx c fd
           (fun r => String.eqb (message r) Msg.missing_param_type)) in H;
    [|intros r [E|E]; rewrite E; reflexivity].
  destruct H as (w1 & H & ->). unfold param_without_type.
  title_cases H w1; rewrite Hparam.
  - rewrite E, check_param_reports.
    destruct (JS.truthy_object (tag_type t)),
      (negb (JS.truthy_opt_string (tag_description t)) && requireParamDescription ctx),
      (JS.truthy_object (JS.get (params st) (tag_name t))); reflexivity.
  - rewrite (filter_none _ w1); [reflexivity|].
    pose proof (check_return_messages ctx c fd t st) as Hm. unfold emits in Hm.
    rewrite E in Hm. eapply Forall_impl; [|exact Hm].
    intros r [Hu|[Hu|Hu]]; [now apply unexpected_not|now rewrite Hu..].
  - now rewrite E.
Qed.

Lemma check_tag_missing_param_description (t : Tag) (st st' : Locals) (w : list Report) :
  check_tag ctx c fd t st = (w, Normal st') ->
  List.length
    (List.filter (fun r => String.eqb (message r) Msg.missing_param_description) w)
  = if param_without_description t && requireParamDescription ctx
    then 1%nat else 0%nat.
Proof.
  intros H.
  apply (check_tag_select_title ctx c fd
           (fun r => String.eqb (message r) Msg.missing_param_description)) in H;
    [|intros r [E|E]; rewrite E; reflexivity].
  destruct H as (w1 & H & ->). unfold param_without_description.
  title_cases H w1; rewrite Hparam.
  - rewrite E, check_param_reports.
    destruct (JS.truthy_object (tag_type t)),
      (negb (JS.truthy_opt_string (tag_description t))),
      (requireParamDescription ctx),
      (JS.truthy_object (JS.get (params st) (tag_name t))); reflexivity.
  - rewrite (filter_none _ w1); [reflexivity|].
    pose proof (check_return_messages ctx c fd t st) as Hm. unfold emits in Hm.
    rewrite E in Hm. eapply Forall_impl; [|exact Hm].
    intros r [Hu|[Hu|Hu]]; [now apply unexpected_not|now rewrite Hu..].
  - now rewrite E.
Qed.

Lemma check_tag_missing_return_type (t : Tag) (st st' : Locals) (w : list Report) :
  check_tag ctx c fd t st = (w, Normal st') ->
  List.length (List.filter (fun r => String.eqb (message r) Msg.missing_return_type) w)
  = if (fun _ : Tag => false) t then 1%nat else 0%nat.
Proof.
  intros H.
  apply (check_tag_select_title ctx c fd
           (fun r => String.eqb (message r) Msg.missing_return_type)) in H;
    [|intros r [E|E]; rewrite E; reflexivity].
  destruct H as (w1 & H & ->). cbv beta.
  title_cases H w1.
  - rewrite (filter_none _ w1); [reflexivity|].
    pose proof (check_param_messages ctx c t st) as Hm. unfold emits in Hm.
    rewrite <- E in Hm. eapply Forall_impl; [|exact Hm].
    intros r [Hu|[Hu|Hu]]; now rewrite Hu.
  - rewrite (filter_none _ w1); [reflexivity|].
    apply (check_return_no_missing_type ctx c fd t st st' w1 E).
  - now rewrite E.
Qed.

Lemma check_tag_use_instead (t : Tag) (st st' : Locals) (w : list Report) :
  check_tag ctx c fd t st = (w, Normal st') ->
  List.length (List.filter (fun r => String.eqb (message r) Msg.use_instead) w)
  = if disfavoured ctx t then 1%nat else 0%nat.
Proof.
  intros H. apply check_tag_parts in H.
  destruct H as (w1 & w2 & w3 & H1 & H2 & H3 & ->).
  rewrite !filter_app, !length_app.
  destruct (check_prefer_reports ctx c t w2 H2) as [Hm Hl].
  destruct (check_type_name_reports c t w3 H3) as [Hm3 _].
  rewrite (filter_none _ w1), (filter_all _ w2), (filter_none _ w3).
  - simpl. lia.
  - eapply Forall_impl; [|exact Hm3]. intros r ->. reflexivity.
  - eapply Forall_impl; [|exact Hm]. intros r ->. reflexivity.
  - pose proof (check_title_title_messages ctx c fd t st) as Hm1. unfold emits in Hm1.
    rewrite H1 in Hm1. eapply Forall_impl; [|exact Hm1].
    intros r [Hu _]. now destruct (String.eqb_spec (message r) Msg.use_instead).
Qed.

Lemma check_tag_expected_type_name (t : Tag) (st st' : Locals) (w : list Report) :
  check_tag ctx c fd t st = (w, Normal st') ->
  List.length (List.filter (fun r => String.eqb (message r) Msg.expected_type_name) w)
  = if misspelled_type t then 1%nat else 0%nat.
Proof.
  intros H. apply check_tag_parts in H.
  destruct H as (w1 & w2 & w3 & H1 & H2 & H3 & ->).
  rewrite !filter_app, !length_app.
  destruct (check_prefer_reports ctx c t w2 H2) as [Hm _].
  destruct (check_type_name_reports c t w3 H3) as [Hm3 Hl].
  rewrite (filter_none _ w1), (filter_none _ w2), (filter_all _ w3).
  - simpl. exact Hl.
  - eapply Forall_impl; [|exact Hm3]. intros r ->. reflexivity.
  - eapply Forall_impl; [|exact Hm]. intros r ->. reflexivity.
  - pose proof (check_title_title_messages ctx c fd t st) as Hm1. unfold emits in Hm1.
    rewrite H1 in Hm1. eapply Forall_impl; [|exact Hm1].
    intros r [_ Hu]. now destruct (String.eqb_spec (message r) Msg.expected_type_name).
Qed.

End PerTag.

(** The reports made for a tag of a completed loop are reports of the loop. *)
Lemma forEach_tags_reports_of (ctx : Context) (c : Comment) (fd : option FunctionState)
      (tags : list Tag) (st0 st : Locals) (w : list Report) (t : Tag) :
  forEach_tags ctx c fd tags st0 = (w, Normal st) ->
  In t tags ->
  exists st1 w1 st2,
    check_tag ctx c fd t st1 = (w1, Normal st2) /\ incl w1 w.
Proof.
  intros Hloop Hin. apply in_split in Hin. destruct Hin as (pre & post & ->).
  apply forEach_tags_normal in Hloop.
  destruct Hloop as (wa & st1 & wb & st2 & wc & _ & Hb & _ & ->).
  exists st1, wb, st2. split; [exact Hb|].
  intros r Hr. apply in_or_app. right. apply in_or_app. now left.
Qed.

Lemma checkJSDoc_count_loop (ctx : Context) (parse : string -> ParseResult)
      (n : FunctionNode) (fns : Stack) (c : Comment) (tags : list Tag)
      (w : list Report) (st : Locals) (msg : string) (q : Tag -> bool) :
  getJSDocComment ctx n = Some c ->
  parse (JS.replace_module (value c)) = Parsed tags ->
  forEach_tags ctx c (JS.top fns) tags no_locals = (w, Normal st) ->
  msg <> Msg.missing_return -> msg <> Msg.expected_param -> msg <> Msg.missing_param ->
  (forall t st w st',
      check_tag ctx c (JS.top fns) t st = (w, Normal st') ->
      List.length (List.filter (fun r => String.eqb (message r) msg) w)
      = if q t then 1%nat else 0%nat) ->
  count_message msg (fst (fst (checkJSDoc ctx parse n fns)))
  = List.length (List.filter q tags).
Proof.
  intros Hc Hp Hloop H1 H2 H3 Htag. unfold count_message.
  rewrite (checkJSDoc_select_loop ctx parse n fns c tags w st _ Hc Hp Hloop).
  - apply (forEach_tags_select ctx c (JS.top fns) _ q Htag tags no_locals w st Hloop).
  - intros r [E|[E|E]]; rewrite E;
      [destruct (String.eqb_spec Msg.missing_return msg)
      |destruct (String.eqb_spec Msg.expected_param msg)
      |destruct (String.eqb_spec Msg.missing_param msg)]; congruence.
Qed.

(** X3. Every param tag without a type, and nothing else, is reported as
    missing its type: when the loop completes, the reports of [checkJSDoc]
    with that message are as many as these tags, and each of the tags has
    its report, at the tag's line and with the tag's name. *)
Theorem param_without_type_reported_once
        (ctx : Context) (parse : string -> ParseResult)
        (n : FunctionNode) (fns : Stack) (c : Comment)
        (tags : list Tag) (w : list Report) (st : Locals) :
  getJSDocComment ctx n = Some c ->
  parse (JS.replace_module (value c)) = Parsed tags ->
  forEach_tags ctx c (JS.top fns) tags no_locals = (w, Normal st) ->
  count_message Msg.missing_param_type (fst (fst (checkJSDoc ctx parse n fns)))
  = List.length (List.filter param_without_type tags)
  /\ (forall t, In t tags -> param_without_type t = true ->
                In (diagnostic c (at_line (loc_start_line c + tag_lineNumber t))
                      Msg.missing_param_type [("name", JS.VStr (tag_name t))])
                   (fst (fst (checkJSDoc ctx parse n fns)))).
Proof.
  intros Hc Hp Hloop. split.
  - apply (checkJSDoc_count_loop ctx parse n fns c tags w st _ _ Hc Hp Hloop);
      try discriminate.
    intros; eapply check_tag_missing_param_type; eassumption.
  - intros t Hin Ht.
    apply (checkJSDoc_reports_loop ctx parse n fns c tags _ Hc Hp). rewrite Hloop.
    destruct (forEach_tags_reports_of ctx c (JS.top fns) tags no_locals st w t Hloop Hin)
      as (st1 & w1 & st2 & Htag & Hincl).
    apply Hincl. apply check_tag_parts in Htag.
    destruct Htag as (wa & wb & wc & Ha & _ & _ & ->).
    apply in_or_app. left.
    unfold param_without_type in Ht. apply andb_true_iff in Ht. destruct Ht as [Hpar Hty].
    apply check_title_case in Ha.
    destruct Ha as [[_ ->]|[(Hf & _)|(Hf & _)]]; [|congruence..].
    rewrite check_param_reports. apply negb_true_iff in Hty. rewrite Hty.
    now left.
Qed.

Lemma param_without_type_reported_once_witness :
  count_message Msg.missing_param_type
    (fst (fst (checkJSDoc (Cases.ctx None)
                 (Sample.parser [Cases.tag "param" "x" None (Some "the value");
                                 Cases.tag "constructor" EmptyString None None])
                 Sample.f Sample.open_function)))
  = 1%nat.
Proof.
  exact (proj1 (param_without_type_reported_once (Cases.ctx None)
           (Sample.parser [Cases.tag "param" "x" None (Some "the value");
                           Cases.tag "constructor" EmptyString None None])
           Sample.f Sample.open_function Cases.comment
           [Cases.tag "param" "x" None (Some "the value");
            Cases.tag "constructor" EmptyString None None]
           _ _ eq_refl eq_refl eq_refl)).
Defined.

(** X4. A param tag without a description is reported only while
    [requireParamDescription] is on: when the loop completes, the reports of
    [checkJSDoc] with that message are as many as the param tags without a
    description if the option is on, and none if it is off. *)
Theorem param_description_required_by_option
        (ctx : Context) (parse : string -> ParseResult)
        (n : FunctionNode) (fns : Stack) (c : Comment)
        (tags : list Tag) (w : list Report) (st : Locals) :
  getJSDocComment ctx n = Some c ->
  parse (JS.replace_module (value c)) = Parsed tags ->
  forEach_tags ctx c (JS.top fns) tags no_locals = (w, Normal st) ->
  count_message Msg.missing_param_description (fst (fst (checkJSDoc ctx parse n fns)))
  = if requireParamDescription ctx
    then List.length (List.filter param_without_description tags)
    else 0%nat.
Proof.
  intros Hc Hp Hloop.
  rewrite (checkJSDoc_count_loop ctx parse n fns c tags w st _
             (fun t => param_without_description t && requireParamDescription ctx)
             Hc Hp Hloop); try discriminate.
  - destruct (requireParamDescription ctx).
    + f_equal. apply filter_ext. intros t. apply andb_true_r.
    + rewrite (filter_ext _ (fun _ => false)) by (intros t; apply andb_false_r).
      now rewrite filter_never.
  - intros; eapply check_tag_missing_param_description; eassumption.
Qed.

Lemma param_description_required_by_option_witness :
  count_message Msg.missing_param_description
    (fst (fst (checkJSDoc (Cases.ctx Cases.terse)
                 (Sample.parser [Cases.tag "param" "x" None None;
                                 Cases.tag "constructor" EmptyString None None])
                 Sample.f Sample.open_function)))
  = 0%nat.
Proof.
  exact (param_description_required_by_option (Cases.ctx Cases.terse)
           (Sample.parser [Cases.tag "param" "x" None None;
                           Cases.tag "constructor" EmptyString None None])
           Sample.f Sample.open_function Cases.comment
           [Cases.tag "param" "x" None None;
            Cases.tag "constructor" EmptyString None None]
           _ _ eq_refl eq_refl eq_refl).
Defined.

(** X10. The preference check is made for every tag, whatever its title and
    whatever the title-specific check reported: when the loop completes, the
    reports [Use @... instead.] of [checkJSDoc] are as many as the tags whose
    title is a key of [prefer], and each such tag has its report, at the
    tag's line and with the preferred title. *)
Theorem disfavoured_title_reported_once
        (ctx : Context) (parse : string -> ParseResult)
        (n : FunctionNode) (fns : Stack) (c : Comment)
        (tags : list Tag) (w : list Report) (st : Locals) :
  getJSDocComment ctx n = Some c ->
  parse (JS.replace_module (value c)) = Parsed tags ->
  forEach_tags ctx c (JS.top fns) tags no_locals = (w, Normal st) ->
  count_message Msg.use_instead (fst (fst (checkJSDoc ctx parse n fns)))
  = List.length (List.filter (disfavoured ctx) tags)
  /\ (forall t preferred,
         In t tags -> JS.get (prefer ctx) (tag_title t) = Some preferred ->
         In (diagnostic c (at_line (loc_start_line c + tag_lineNumber t))
               Msg.use_instead [("name", JS.VStr preferred)])
            (fst (fst (checkJSDoc ctx parse n fns)))).
Proof.
  intros Hc Hp Hloop. split.
  - apply (checkJSDoc_count_loop ctx parse n fns c tags w st _ _ Hc Hp Hloop);
      try discriminate.
    intros; eapply check_tag_use_instead; eassumption.
  - intros t preferred Hin Hpref.
    apply (checkJSDoc_reports_loop ctx parse n fns c tags _ Hc Hp). rewrite Hloop.
    destruct (forEach_tags_reports_of ctx c (JS.top fns) tags no_locals st w t Hloop Hin)
      as (st1 & w1 & st2 & Htag & Hincl).
    apply Hincl. apply check_tag_parts in Htag.
    destruct Htag as (wa & wb & wc & _ & Hb & _ & ->).
    apply in_or_app. right. apply in_or_app. left.
    pose proof (check_prefer_normal ctx c t wb Hb) as Hown.
    unfold check_prefer in Hb. rewrite Hown, Hpref in Hb. injection Hb as <-. now left.
Qed.

Lemma disfavoured_title_reported_once_witness :
  count_message Msg.use_instead
    (fst (fst (checkJSDoc (Cases.ctx Sample.prefers_return)
                 (Sample.parser [Sample.returns_void])
                 Sample.g Sample.open_function)))
  = 1%nat.
Proof.
  exact (proj1 (disfavoured_title_reported_once (Cases.ctx Sample.prefers_return)
           (Sample.parser [Sample.returns_void])
           Sample.g Sample.open_function Cases.comment [Sample.returns_void]
           _ _ eq_refl eq_refl eq_refl)).
Defined.

Lemma preferred_spelling_accepted (key preferred : string) (t : Tag) :
  In (key, preferred) type_map ->
  tag_type t = Some (NameExpression preferred) ->
  misspelled_type t = false.
Proof.
  intros Hin Ht. unfold misspelled_type. rewrite Ht.
  unfold type_map in Hin. simpl in Hin.
  repeat (destruct Hin as [Hin|Hin]; [injection Hin as <- <-; reflexivity|]).
  contradiction.
Qed.

(** X11. The type name check counts: when the loop completes, the reports
    [Expected JSDoc type name] of [checkJSDoc] are as many as the tags whose
    type is a plain name for which [map] holds another value.  A name
    written as one of the preferred spellings of the map is not among them,
    and neither is a type that is not a plain name. *)
Theorem type_names_reported_once
        (ctx : Context) (parse : string -> ParseResult)
        (n : FunctionNode) (fns : Stack) (c : Comment)
        (tags : list Tag) (w : list Report) (st : Locals) :
  getJSDocComment ctx n = Some c ->
  parse (JS.replace_module (value c)) = Parsed tags ->
  forEach_tags ctx c (JS.top fns) tags no_locals = (w, Normal st) ->
  count_message Msg.expected_type_name (fst (fst (checkJSDoc ctx parse n fns)))
  = List.length (List.filter misspelled_type tags)
  /\ (forall t key preferred,
         In (key, preferred) type_map ->
         tag_type t = Some (NameExpression preferred) -> misspelled_type t = false)
  /\ (forall t kind, tag_type t = Some (OtherExpression kind) -> misspelled_type t = false)
  /\ (forall t, tag_type t = None -> misspelled_type t = false).
Proof.
  intros Hc Hp Hloop. split; [|split; [|split]].
  - apply (checkJSDoc_count_loop ctx parse n fns c tags w st _ _ Hc Hp Hloop);
      try discriminate.
    intros; eapply check_tag_expected_type_name; eassumption.
  - intros t key preferred. apply preferred_spelling_accepted.
  - intros t kind Ht. unfold misspelled_type. now rewrite Ht.
  - intros t Ht. unfold misspelled_type. now rewrite Ht.
Qed.

Lemma type_names_reported_once_witness :
  count_message Msg.expected_type_name
    (fst (fst (checkJSDoc (Cases.ctx None)
                 (Sample.parser
                    [Cases.tag "param" "x" (Some (NameExpression "Array")) (Some "the list");
                     Cases.tag "param" "y" (Some (NameExpression "int")) (Some "the index");
                     Cases.tag "param" "z" (Some (NameExpression "Widget")) (Some "the widget")])
                 Sample.f Sample.open_function)))
  = 1%nat.
Proof.
  exact (proj1 (type_names_reported_once (Cases.ctx None)
           (Sample.parser
              [Cases.tag "param" "x" (Some (NameExpression "Array")) (Some "the list");
               Cases.tag "param" "y" (Some (NameExpression "int")) (Some "the index");
               Cases.tag "param" "z" (Some (NameExpression "Widget")) (Some "the widget")])
           Sample.f Sample.open_function Cases.comment
           [Cases.tag "param" "x" (Some (NameExpression "Array")) (Some "the list");
            Cases.tag "param" "y" (Some (NameExpression "int")) (Some "the index");
            Cases.tag "param" "z" (Some (NameExpression "Widget")) (Some "the widget")]
           _ _ eq_refl eq_refl eq_refl)).
Defined.

(** X8. [Missing JSDoc return type.] is never among the reports of a
    [checkJSDoc] that completes: the case that reports it goes on to read
    the name of the missing type and fails. *)
Theorem missing_return_type_never_survives
        (ctx : Context) (parse : string -> ParseResult)
        (n : FunctionNode) (fns : Stack) :
  snd (fst (checkJSDoc ctx parse n fns)) = Normal tt ->
  count_message Msg.missing_return_type (fst (fst (checkJSDoc ctx parse n fns))) = 0%nat.
Proof.
  intros Hnormal.
  destruct (getJSDocComment ctx n) as [c|] eqn:Hc.
  - destruct (parse (JS.replace_module (value c))) as [tags|msg] eqn:Hp.
    + pose proof (checkJSDoc_parsed ctx parse n fns c tags Hc Hp) as E.
      assert (Hloop : exists w st,
                 forEach_tags ctx c (JS.top fns) tags no_locals = (w, Normal st)).
      { rewrite E in Hnormal. unfold check_parsed in Hnormal. fold no_locals in Hnormal.
        destruct (forEach_tags ctx c (JS.top fns) tags no_locals) as [w [st|ex]];
          [eauto|discriminate]. }
      destruct Hloop as (w & st & Hloop).
      rewrite (checkJSDoc_count_loop ctx parse n fns c tags w st _ (fun _ => false)
                 Hc Hp Hloop); try discriminate.
      * now rewrite filter_never.
      * intros; eapply check_tag_missing_return_type; eassumption.
    + rewrite (checkJSDoc_parse_error ctx parse n fns c msg Hc Hp).
      unfold check_parse_error. now destruct (JS.test_braces_i msg).
  - now rewrite (checkJSDoc_no_comment ctx parse n fns Hc).
Qed.

Lemma missing_return_type_never_survives_witness :
  count_message Msg.missing_return_type
    (fst (fst (checkJSDoc (Cases.ctx None) (Sample.parser [Sample.returns_number])
                 Sample.g Sample.open_function)))
  = 0%nat.
Proof.
  exact (missing_return_type_never_survives (Cases.ctx None)
           (Sample.parser [Sample.returns_number]) Sample.g Sample.open_function
           eq_refl).
Defined.

(* ------------------------------------------------------------------------ *)
(** ** Properties of every report *)
(* ------------------------------------------------------------------------ *)

Lemma forEach_tags_emits (P : Report -> Prop) (ctx : Context) (c : Comment)
      (fd : option FunctionState) :
  (forall t st, emits P (check_tag ctx c fd t st)) ->
  forall tags st, emits P (forEach_tags ctx c fd tags st).
Proof.
  intros H. induction tags as [|t tags IH]; intros st; simpl.
  - apply emits_ret.
  - apply emits_bind; [apply H|exact IH].
Qed.

Lemma forEach_params_emits (P : Report -> Prop) (c : Comment) (ps : JS.Obj Tag)
      (ks : list string) :
  (forall i name, emits P (check_real_param c ps ks i name)) ->
  forall real i, emits P (forEach_params c ps ks i real).
Proof.
  intros H. induction real as [|name real IH]; intros i; simpl.
  - apply emits_ret.
  - apply emits_bind; [apply H|intros _; apply IH].
Qed.

(** A property of the reports of every part is a property of the reports of
    [checkJSDoc]. *)
Lemma checkJSDoc_emits (P : Report -> Prop) (ctx : Context)
      (parse : string -> ParseResult) (n : FunctionNode) (fns : Stack) :
  (forall c, getJSDocComment ctx n = Some c ->
             (forall msg, emits P (check_parse_error c msg))
             /\ (forall t st, emits P (check_tag ctx c (JS.top fns) t st))
             /\ (forall st, emits P (check_missing_return ctx c (JS.top fns) st))
             /\ (forall ps ks i name, emits P (check_real_param c ps ks i name))) ->
  Forall P (fst (fst (checkJSDoc ctx parse n fns))).
Proof.
  intros H. unfold checkJSDoc. simpl.
  destruct (getJSDocComment ctx n) as [c|]; [|constructor].
  destruct (H c eq_refl) as (Herr & Htag & Hret & Hcross).
  destruct (parse _) as [tags|msg]; [|apply Herr].
  unfold check_parsed. apply emits_bind.
  - apply forEach_tags_emits, Htag.
  - intros st. apply emits_bind; [apply Hret|intros _].
    apply forEach_params_emits. intros i name. apply Hcross.
Qed.

Lemma emits_bind_ret (P : Report -> Prop) {A B : Type} (a : A) (f : A -> M B) :
  emits P (f a) -> emits P (bind (ret a) f).
Proof. unfold emits, bind, ret. destruct (f a) as [w r]. trivial. Qed.

Ltac emits_rule :=
  unfold check_parse_error, check_tag, check_title, check_param, check_return,
    check_prefer, check_type_name, check_missing_return, check_real_param,
    type_name_ne, read_returnPresent, report_at;
  emits_all.

(** X17. Every report of [checkJSDoc] is made on the comment of the function,
    never on the function or on one of its parameters. *)
Theorem reports_anchored_at_comment
        (ctx : Context) (parse : string -> ParseResult)
        (n : FunctionNode) (fns : Stack) (r : Report) :
  In r (fst (fst (checkJSDoc ctx parse n fns))) ->
  getJSDocComment ctx n = Some (node r).
Proof.
  intros Hin.
  assert (H : Forall (fun r => getJSDocComment ctx n = Some (node r))
                     (fst (fst (checkJSDoc ctx parse n fns)))).
  { apply checkJSDoc_emits. intros c Hc.
    repeat split; intros; emits_rule; exact Hc. }
  rewrite Forall_forall in H. now apply H.
Qed.

Lemma reports_anchored_at_comment_witness :
  getJSDocComment (Cases.ctx None) Sample.f
  = Some (node (diagnostic Cases.comment None Msg.missing_return [])).
Proof.
  apply (reports_anchored_at_comment (Cases.ctx None) (Sample.parser [])
           Sample.f Sample.open_function).
  left. reflexivity.
Defined.

(** X16. The report that another name was expected for a parameter never
    carries a line: [jsdocParams[i]] is the documented name, a string, and
    the line is computed from its [lineNumber]. *)
Theorem expected_param_line_is_NaN
        (ctx : Context) (parse : string -> ParseResult)
        (n : FunctionNode) (fns : Stack) (r : Report) :
  In r (fst (fst (checkJSDoc ctx parse n fns))) ->
  message r = Msg.expected_param ->
  location r = Some {| line := JS.NaN; column := None |}.
Proof.
  intros Hin.
  assert (H : Forall (fun r => message r = Msg.expected_param ->
                               location r = Some {| line := JS.NaN; column := None |})
                     (fst (fst (checkJSDoc ctx parse n fns)))).
  { apply checkJSDoc_emits. intros c Hc.
    repeat split; intros; emits_rule;
      try reflexivity;
      match goal with
      | E : _ = Msg.expected_param |- _ =>
          try discriminate E;
          unfold Msg.unexpected_return in E; simpl in E; discriminate E
      end. }
  rewrite Forall_forall in H. now apply H.
Qed.

Lemma expected_param_line_is_NaN_witness :
  location (diagnostic Cases.comment (Some {| line := JS.NaN; column := None |})
              Msg.expected_param [("name", JS.VStr "x"); ("jsdocName", JS.VStr "y")])
  = Some {| line := JS.NaN; column := None |}.
Proof.
  apply (expected_param_line_is_NaN (Cases.ctx None)
           (Sample.parser [Cases.tag "param" "y" None None;
                           Cases.tag "constructor" EmptyString None None])
           Sample.f Sample.open_function).
  - do 2 right. left. reflexivity.
  - reflexivity.
Defined.

(** X9. While [requireReturn] is on, as it is by default, no return tag is
    reported as unexpected, whatever the comment and the body of the
    function. *)
Theorem no_unexpected_return_when_required
        (ctx : Context) (parse : string -> ParseResult)
        (n : FunctionNode) (fns : Stack) :
  requireReturn ctx = true ->
  List.filter is_unexpected (fst (fst (checkJSDoc ctx parse n fns))) = [].
Proof.
  intros Hreq. apply filter_none.
  apply checkJSDoc_emits. intros c Hc.
  split; [|split; [|split]]; intros; try (emits_rule; reflexivity).
  unfold check_tag, check_title.
  apply emits_bind; [|intros; emits_rule; reflexivity].
  destruct (String.eqb (tag_title t) "param"); [emits_rule; reflexivity|].
  destruct (_ || _); [|emits_rule].
  unfold check_return. rewrite Hreq.
  match goal with
  | |- emits _ (bind ?m ?k) => change m with (@ret bool false)
  end.
  apply emits_bind_ret.
  unfold type_name_ne, report_at. emits_all; reflexivity.
Qed.

Lemma no_unexpected_return_when_required_witness :
  List.filter is_unexpected
    (fst (fst (checkJSDoc (Cases.ctx None) (Sample.parser [Sample.returns_number])
                 Sample.f Sample.open_function)))
  = [].
Proof.
  apply (no_unexpected_return_when_required (Cases.ctx None)
           (Sample.parser [Sample.returns_number]) Sample.f Sample.open_function).
  reflexivity.
Defined.

(* ------------------------------------------------------------------------ *)
(** ** The names of an object *)
(* ------------------------------------------------------------------------ *)

Lemma insert_index_in (x y : N * string) (l : list (N * string)) :
  In x (JS.insert_index y l) -> x = y \/ In x l.
Proof.
  induction l as [|z l IH]; simpl.
  - intros [<-|[]]. now left.
  - destruct (fst y <=? fst z)%N; simpl.
    + intros [<-|H]; auto.
    + intros [<-|H]; [auto|]. destruct (IH H); auto.
Qed.

Lemma index_keys_in (n : N) (k : string) (ks : list string) :
  In (n, k) (JS.index_keys ks) -> In k ks.
Proof.
  induction ks as [|k' ks IH]; simpl; [trivial|].
  destruct (JS.array_index k') as [m|]; [|auto].
  intros H. apply insert_index_in in H. destruct H as [[= _ <-]|H]; auto.
Qed.

(** Every name that [Object.keys] lists is a name of the object. *)
Lemma keys_in (o : JS.Obj Tag) (k : string) :
  In k (JS.keys o) -> In k (List.map fst o).
Proof.
  unfold JS.keys. intros H. apply in_app_or in H. destruct H as [H|H].
  - apply in_map_iff in H. destruct H as ([m k'] & <- & H).
    now apply index_keys_in in H.
  - now apply filter_In in H.
Qed.

Lemma get_of_name (o : JS.Obj Tag) (k : string) :
  In k (List.map fst o) -> JS.get o k <> None.
Proof.
  induction o as [|[k' v'] o IH]; simpl; [tauto|].
  destruct (String.eqb_spec k' k) as [->|Hne]; [discriminate|].
  intros [H|H]; [contradiction|auto].
Qed.

(* ------------------------------------------------------------------------ *)
(** ** The cross-check, position by position *)
(* ------------------------------------------------------------------------ *)

Lemma check_real_param_agrees (c : Comment) (ps : JS.Obj Tag) (ks : list string)
      (i : nat) (name : string) :
  nth_error ks i = Some name -> JS.get ps name <> None ->
  check_real_param c ps ks i name = ([], Normal tt).
Proof.
  intros Hk Hg. unfold check_real_param. rewrite Hk, String.eqb_refl, andb_false_r.
  destruct (JS.get ps name); [reflexivity|contradiction].
Qed.

Lemma forEach_params_agrees (c : Comment) (ps : JS.Obj Tag) (ks : list string)
      (real : list string) (i : nat) :
  (forall j name, nth_error real j = Some name -> nth_error ks (i + j) = Some name) ->
  (forall name, In name real -> JS.get ps name <> None) ->
  forEach_params c ps ks i real = ([], Normal tt).
Proof.
  revert i. induction real as [|name real IH]; intros i Hk Hg; [reflexivity|].
  cbn [forEach_params].
  rewrite check_real_param_agrees.
  - rewrite IH; [reflexivity| |].
    + intros j nm Hj. rewrite Nat.add_succ_l, <- Nat.add_succ_r. now apply Hk.
    + intros nm Hin. apply Hg. now right.
  - rewrite <- (Nat.add_0_r i). now apply Hk.
  - apply Hg. now left.
Qed.

Lemma check_real_param_one (c : Comment) (ps : JS.Obj Tag) (ks : list string)
      (i : nat) (name : string) :
  (count_message Msg.expected_param (fst (check_real_param c ps ks i name))
   + count_message Msg.missing_param (fst (check_real_param c ps ks i name)) <= 1)%nat.
Proof.
  unfold check_real_param, report_at, when.
  destruct (nth_error ks i) as [k|];
    [destruct (JS.truthy_string k && negb (String.eqb name k))|];
    try (cbn; lia);
    destruct (negb (JS.truthy_object (JS.get ps name))); cbn; lia.
Qed.

Lemma forEach_params_bound (c : Comment) (ps : JS.Obj Tag) (ks : list string)
      (real : list string) (i : nat) :
  (count_message Msg.expected_param (fst (forEach_params c ps ks i real))
   + count_message Msg.missing_param (fst (forEach_params c ps ks i real))
   <= List.length real)%nat.
Proof.
  revert i. induction real as [|name real IH]; intros i; [cbn; lia|].
  rewrite forEach_params_cons. cbn [fst]. rewrite !count_message_app.
  pose proof (check_real_param_one c ps ks i name). specialize (IH (S i)).
  simpl List.length. lia.
Qed.

(** X14. A comment that records the names of the parameters, in the order of
    the signature, passes the cross-check: no name is reported as expected
    and no parameter as missing. *)
Theorem matching_names_pass_cross_check
        (ctx : Context) (parse : string -> ParseResult)
        (n : FunctionNode) (fns : Stack) (c : Comment) (tags : list Tag)
        (w : list Report) (st : Locals) (fd : FunctionState) :
  getJSDocComment ctx n = Some c ->
  parse (JS.replace_module (value c)) = Parsed tags ->
  forEach_tags ctx c (JS.top fns) tags no_locals = (w, Normal st) ->
  JS.top fns = Some fd ->
  JS.keys (params st) = node_params n ->
  forEach_params c (params st) (JS.keys (params st)) 0 (node_params n) = ([], Normal tt)
  /\ count_message Msg.expected_param (fst (fst (checkJSDoc ctx parse n fns))) = 0%nat
  /\ count_message Msg.missing_param (fst (fst (checkJSDoc ctx parse n fns))) = 0%nat
  /\ snd (fst (checkJSDoc ctx parse n fns)) = Normal tt.
Proof.
  intros Hc Hp Hloop Hfd Hkeys.
  assert (Hcross : forEach_params c (params st) (JS.keys (params st)) 0 (node_params n)
                   = ([], Normal tt)).
  { apply forEach_params_agrees.
    - intros j name Hj. now rewrite Hkeys.
    - intros name Hin. apply get_of_name, keys_in. now rewrite Hkeys. }
  split; [exact Hcross|].
  destruct (checkJSDoc_cross_check ctx parse n fns c tags w st fd Hc Hp Hloop Hfd)
    as (w' & E & He & Hm).
  rewrite E, Hcross. cbn [fst snd]. rewrite app_nil_r. auto.
Qed.

Lemma matching_names_pass_cross_check_witness :
  count_message Msg.missing_param
    (fst (fst (checkJSDoc (Cases.ctx None)
                 (Sample.parser [Cases.tag "param" "a" None None;
                                 Cases.tag "param" "a.size" None None;
                                 Cases.tag "param" "b" None None])
                 Sample.add Sample.open_function)))
  = 0%nat.
Proof.
  exact (proj1 (proj2 (proj2 (matching_names_pass_cross_check (Cases.ctx None)
           (Sample.parser [Cases.tag "param" "a" None None;
                           Cases.tag "param" "a.size" None None;
                           Cases.tag "param" "b" None None])
           Sample.add Sample.open_function Cases.comment
           [Cases.tag "param" "a" None None;
            Cases.tag "param" "a.size" None None;
            Cases.tag "param" "b" None None]
           _ _ {| returnPresent := false |} eq_refl eq_refl eq_refl eq_refl eq_refl)))).
Defined.

(** The cross-check at a position reads the documented name of that
    position only. *)
Lemma forEach_params_firstn (c : Comment) (ps : JS.Obj Tag) (ks : list string)
      (real : list string) (i : nat) :
  forEach_params c ps ks i real
  = forEach_params c ps (firstn (i + List.length real) ks) i real.
Proof.
  revert ks i. induction real as [|name real IH]; intros ks i; [reflexivity|].
  cbn [forEach_params List.length].
  assert (Hm : (S i + List.length real = i + S (List.length real))%nat) by lia.
  assert (Hpos : check_real_param c ps (firstn (i + S (List.length real)) ks) i name
                 = check_real_param c ps ks i name).
  { unfold check_real_param. rewrite nth_error_firstn.
    destruct (Nat.ltb_spec i (i + S (List.length real))); [reflexivity|lia]. }
  rewrite Hpos. apply bind_ext. intros _.
  rewrite (IH ks (S i)), (IH (firstn (i + S (List.length real)) ks) (S i)).
  now rewrite firstn_firstn, Hm, Nat.min_id.
Qed.

(** Every report of the cross-check names a parameter of the function. *)
Lemma forEach_params_names (c : Comment) (ps : JS.Obj Tag) (ks : list string)
      (real : list string) (i : nat) :
  Forall (fun r => exists name rest,
              In name real /\ data r = ("name", JS.VStr name) :: rest)
         (fst (forEach_params c ps ks i real)).
Proof.
  revert i. induction real as [|name real IH]; intros i; [constructor|].
  rewrite forEach_params_cons. cbn [fst]. apply Forall_app. split.
  - unfold check_real_param, report_at, when.
    destruct (nth_error ks i) as [k|];
      [destruct (JS.truthy_string k && negb (String.eqb name k))|];
      try destruct (negb (JS.truthy_object (JS.get ps name)));
      repeat constructor; exists name; eexists; (split; [now left|reflexivity]).
  - eapply Forall_impl; [|apply IH].
    intros r (nm & rest & Hin & Hd). exists nm, rest. split; [now right|exact Hd].
Qed.

Lemma count_message_zero_not (msg : string) (w : list Report) (r : Report) :
  count_message msg w = 0%nat -> In r w -> message r <> msg.
Proof.
  unfold count_message. intros H Hin E.
  assert (Hf : In r (List.filter (fun r => String.eqb (message r) msg) w)).
  { apply filter_In. split; [exact Hin|]. now apply String.eqb_eq. }
  destruct (List.filter _ w); [contradiction|discriminate].
Qed.

(** The reports of [checkJSDoc]: those before the cross-check, and those of
    the cross-check if it is reached. *)
Lemma checkJSDoc_cross_cases (ctx : Context) (parse : string -> ParseResult)
      (n : FunctionNode) (fns : Stack) :
  exists w' cross,
    fst (fst (checkJSDoc ctx parse n fns)) = w' ++ cross
    /\ count_message Msg.expected_param w' = 0%nat
    /\ count_message Msg.missing_param w' = 0%nat
    /\ (cross = []
        \/ exists c tags ps ks,
             getJSDocComment ctx n = Some c
             /\ parse (JS.replace_module (value c)) = Parsed tags
             /\ snd (fst (checkJSDoc ctx parse n fns)) = Normal tt
             /\ cross = fst (forEach_params c ps ks 0 (node_params n))).
Proof.
  destruct (getJSDocComment ctx n) as [c|] eqn:Hc.
  - destruct (parse (JS.replace_module (value c))) as [tags|msg] eqn:Hp.
    + pose proof (forEach_tags_count ctx c (JS.top fns) tags no_locals) as Hw.
      destruct (forEach_tags ctx c (JS.top fns) tags no_locals) as [w [st|ex]] eqn:Hloop.
      * pose proof (check_missing_return_messages ctx c (JS.top fns) st) as Hm.
        exists (w ++ fst (check_missing_return ctx c (JS.top fns) st)).
        rewrite (checkJSDoc_after_loop ctx parse n fns c tags w st Hc Hp Hloop).
        cbn [fst snd] in *.
        eexists. split; [now rewrite app_assoc|].
        rewrite !count_message_app, !Hw by reflexivity.
        rewrite (count_message_other Msg.expected_param Msg.missing_return _
                   ltac:(discriminate) Hm).
        rewrite (count_message_other Msg.missing_param Msg.missing_return _
                   ltac:(discriminate) Hm).
        split; [reflexivity|]. split; [reflexivity|].
        destruct (snd (check_missing_return ctx c (JS.top fns) st)); [|now left].
        right. exists c, tags, (params st), (JS.keys (params st)). auto.
      * exists w, []. rewrite (checkJSDoc_parsed ctx parse n fns c tags Hc Hp).
        unfold check_parsed. fold no_locals. rewrite Hloop. cbn [bind fst] in *.
        rewrite app_nil_r, !Hw by reflexivity. auto.
    + exists (fst (check_parse_error c msg)), [].
      rewrite (checkJSDoc_parse_error ctx parse n fns c msg Hc Hp), app_nil_r.
      unfold check_parse_error. destruct (JS.test_braces_i msg); cbn; auto.
  - exists [], []. rewrite (checkJSDoc_no_comment ctx parse n fns Hc). cbn. auto.
Qed.

(** X15. The cross-check reports at most once for each parameter of the
    function: in the reports of [checkJSDoc], those of an expected name and
    of a missing parameter are together no more than the parameters.  There
    is none of them when the function has no comment, when the comment does
    not parse and when [checkJSDoc] fails.  Each of them names a parameter
    of the function, and the cross-check reads the documented names only
    up to the number of parameters: the names that the comment records
    beyond the signature do not change what it reports. *)
Theorem cross_check_reports_bounded
        (ctx : Context) (parse : string -> ParseResult)
        (n : FunctionNode) (fns : Stack) :
  let rs := fst (fst (checkJSDoc ctx parse n fns)) in
  let crossed :=
    (count_message Msg.expected_param rs + count_message Msg.missing_param rs)%nat in
  (crossed <= List.length (node_params n))%nat
  /\ (getJSDocComment ctx n = None -> crossed = 0%nat)
  /\ (forall c msg,
         getJSDocComment ctx n = Some c ->
         parse (JS.replace_module (value c)) = ParseError msg -> crossed = 0%nat)
  /\ (forall e, snd (fst (checkJSDoc ctx parse n fns)) = Throw e -> crossed = 0%nat)
  /\ (forall r,
         In r rs ->
         message r = Msg.expected_param \/ message r = Msg.missing_param ->
         exists name rest,
           In name (node_params n) /\ data r = ("name", JS.VStr name) :: rest)
  /\ (forall c ps ks,
         forEach_params c ps ks 0 (node_params n)
         = forEach_params c ps (firstn (List.length (node_params n)) ks) 0
                          (node_params n)).
Proof.
  intros rs crossed. subst rs crossed.
  destruct (checkJSDoc_cross_cases ctx parse n fns)
    as (w' & cross & E & He & Hm & Hcross).
  rewrite E, !count_message_app, He, Hm. cbn [Nat.add].
  assert (Hnone : cross = [] ->
                  (count_message Msg.expected_param cross
                   + count_message Msg.missing_param cross = 0)%nat)
    by (intros ->; reflexivity).
  split; [|split; [|split; [|split; [|split]]]].
  - destruct Hcross as [->|(c & tags & ps & ks & _ & _ & _ & ->)]; [cbn; lia|].
    apply forEach_params_bound.
  - intros Hc. apply Hnone.
    destruct Hcross as [Hx|(c & tags & ps & ks & Hc' & _)]; [exact Hx|congruence].
  - intros c msg Hc Hp. apply Hnone.
    destruct Hcross as [Hx|(c' & tags & ps & ks & Hc' & Hp' & _)]; [exact Hx|].
    congruence.
  - intros e He'. apply Hnone.
    destruct Hcross as [Hx|(c & tags & ps & ks & _ & _ & Hn & _)]; [exact Hx|].
    congruence.
  - intros r Hin Hmsg. apply in_app_or in Hin. destruct Hin as [Hin|Hin].
    + exfalso. destruct Hmsg as [Hmsg|Hmsg].
      * exact (count_message_zero_not _ _ _ He Hin Hmsg).
      * exact (count_message_zero_not _ _ _ Hm Hin Hmsg).
    + destruct Hcross as [->|(c & tags & ps & ks & _ & _ & _ & ->)]; [contradiction|].
      pose proof (forEach_params_names c ps ks (node_params n) 0) as Hall.
      rewrite Forall_forall in Hall. now apply Hall.
  - intros c ps ks. apply (forEach_params_firstn c ps ks (node_params n) 0).
Qed.

Lemma cross_check_reports_bounded_witness :
  (count_message Msg.expected_param
     (fst (fst (checkJSDoc Sample.silent Sample.no_parser Sample.add
                  Sample.open_function)))
   + count_message Msg.missing_param
       (fst (fst (checkJSDoc Sample.silent Sample.no_parser Sample.add
                    Sample.open_function)))
   = 0)%nat.
Proof.
  exact (proj1 (proj2 (cross_check_reports_bounded Sample.silent Sample.no_parser
                         Sample.add Sample.open_function)) eq_refl).
Defined.

(** X13. The missing-@return report is made once or not at all, and a return,
    returns or constructor tag anywhere in the comment suppresses it: when
    the loop completes for an open function, the report is there exactly if
    no tag has one of these titles and [requireReturn] is on or the body
    returned a value. *)
Theorem missing_return_suppressed_by_tags
        (ctx : Context) (parse : string -> ParseResult)
        (n : FunctionNode) (fns : Stack) (c : Comment) (tags : list Tag)
        (w : list Report) (st : Locals) (fd : FunctionState) :
  getJSDocComment ctx n = Some c ->
  parse (JS.replace_module (value c)) = Parsed tags ->
  forEach_tags ctx c (JS.top fns) tags no_locals = (w, Normal st) ->
  JS.top fns = Some fd ->
  count_message Msg.missing_return (fst (fst (checkJSDoc ctx parse n fns)))
  = if negb (existsb (fun t => is_return_title (tag_title t)) tags)
       && negb (existsb (fun t => String.eqb (tag_title t) "constructor") tags)
       && (requireReturn ctx || returnPresent fd)
    then 1%nat else 0%nat.
Proof.
  intros Hc Hp Hloop Hfd.
  rewrite (checkJSDoc_after_loop ctx parse n fns c tags w st Hc Hp Hloop).
  cbn [fst]. rewrite !count_message_app.
  pose proof (forEach_tags_count ctx c (JS.top fns) tags no_locals
                Msg.missing_return eq_refl) as Hw.
  rewrite Hloop in Hw. cbn [fst] in Hw. rewrite Hw.
  assert (Hcross : count_message Msg.missing_return
                     match snd (check_missing_return ctx c (JS.top fns) st) with
                     | Normal _ =>
                         fst (forEach_params c (params st) (JS.keys (params st)) 0
                                (node_params n))
                     | Throw _ => []
                     end = 0%nat).
  { destruct (snd _); [|reflexivity].
    apply forEach_params_count; discriminate. }
  rewrite Hcross.
  destruct (forEach_tags_flags ctx c (JS.top fns) tags no_locals st w Hloop)
    as [Hret Hcon].
  unfold check_missing_return, read_returnPresent, report_at.
  rewrite Hret, Hcon, Hfd. cbn [no_locals hasReturns hasConstructor orb].
  destruct (existsb (fun t => is_return_title (tag_title t)) tags),
    (existsb (fun t => String.eqb (tag_title t) "constructor") tags),
    (requireReturn ctx), fd as [[]]; reflexivity.
Qed.

Lemma missing_return_suppressed_by_tags_witness :
  count_message Msg.missing_return
    (fst (fst (checkJSDoc (Cases.ctx None)
                 (Sample.parser [Cases.tag "constructor" EmptyString None None])
                 Sample.g Sample.open_function)))
  = 0%nat.
Proof.
  exact (missing_return_suppressed_by_tags (Cases.ctx None)
           (Sample.parser [Cases.tag "constructor" EmptyString None None])
           Sample.g Sample.open_function Cases.comment
           [Cases.tag "constructor" EmptyString None None]
           _ _ {| returnPresent := false |} eq_refl eq_refl eq_refl eq_refl).
Defined.

(** [case 'return'] for a tag with a type that is not reported as
    unexpected. *)
Lemma check_title_return_described (ctx : Context) (c : Comment) (fd : FunctionState)
      (t : Tag) (st : Locals) (ty : TypeExpression) :
  is_return_title (tag_title t) = true ->
  tag_type t = Some ty ->
  requireReturn ctx = true \/ returnPresent fd = true
  \/ type_name ty = Some "void" \/ type_name ty = Some "undefined" ->
  check_title ctx c (Some fd) t st
  = (if JS.opt_strict_ne (type_name ty) "void"
        && negb (JS.truthy_opt_string (tag_description t))
     then [diagnostic c (at_line (loc_start_line c + tag_lineNumber t))
             Msg.missing_return_description []]
     else [],
     Normal (set_hasReturns st true)).
Proof.
  intros Htitle Ht Hnot.
  assert (Hp : String.eqb (tag_title t) "param" = false).
  { unfold is_return_title in Htitle. apply orb_true_iff in Htitle.
    destruct Htitle as [H|H]; apply String.eqb_eq in H; now rewrite H. }
  unfold check_title. unfold is_return_title in Htitle. rewrite Hp, Htitle.
  unfold check_return, type_name_ne, read_returnPresent, report_at. rewrite Ht.
  destruct fd as [rp]. cbn [returnPresent] in Hnot.
  destruct (requireReturn ctx) eqn:Ereq, rp eqn:Erp;
    destruct Hnot as [H|[H|[H|H]]]; try discriminate H;
    cbn; rewrite ?H; cbn;
    destruct (JS.opt_strict_ne (type_name ty) "void");
    try destruct (JS.opt_strict_ne (type_name ty) "undefined");
    destruct (JS.truthy_opt_string (tag_description t)); reflexivity.
Qed.

(** X7. A return or returns tag with a type, when it is not reported as
    unexpected, is asked for a description unless its type is named [void]:
    the title-specific check reports the missing description exactly when
    the type's name is not [void] and the description is missing or empty,
    and nothing otherwise; the report is among those of [checkJSDoc]. *)
Theorem return_description_unless_void
        (ctx : Context) (parse : string -> ParseResult)
        (n : FunctionNode) (fns : Stack) (c : Comment)
        (pre post : list Tag) (t : Tag) (w : list Report) (st : Locals)
        (fd : FunctionState) (ty : TypeExpression) :
  getJSDocComment ctx n = Some c ->
  parse (JS.replace_module (value c)) = Parsed (pre ++ t :: post) ->
  forEach_tags ctx c (JS.top fns) pre no_locals = (w, Normal st) ->
  JS.top fns = Some fd ->
  is_return_title (tag_title t) = true ->
  tag_type t = Some ty ->
  requireReturn ctx = true \/ returnPresent fd = true
  \/ type_name ty = Some "void" \/ type_name ty = Some "undefined" ->
  let missing :=
    diagnostic c (at_line (loc_start_line c + tag_lineNumber t))
      Msg.missing_return_description [] in
  check_title ctx c (JS.top fns) t st
  = (if JS.opt_strict_ne (type_name ty) "void"
        && negb (JS.truthy_opt_string (tag_description t))
     then [missing] else [],
     Normal (set_hasReturns st true))
  /\ (type_name ty <> Some "void" ->
      JS.truthy_opt_string (tag_description t) = false ->
      In missing (fst (fst (checkJSDoc ctx parse n fns)))).
Proof.
  intros Hc Hp Hpre Hfd Htitle Ht Hnot missing.
  pose proof (check_title_return_described ctx c fd t st ty Htitle Ht Hnot) as H.
  rewrite <- Hfd in H. split; [exact H|].
  intros Hvoid Hdesc.
  apply (checkJSDoc_reports_tag ctx parse n fns c pre post t w st missing Hc Hp Hpre).
  apply check_tag_reports_title. rewrite H, Hdesc.
  assert (Hv : JS.opt_strict_ne (type_name ty) "void" = true).
  { destruct (type_name ty) as [s|]; [|reflexivity]. simpl.
    destruct (String.eqb_spec s "void"); [congruence|reflexivity]. }
  rewrite Hv. now left.
Qed.

Lemma return_description_unless_void_witness :
  check_title (Cases.ctx None) Cases.comment (JS.top Sample.open_function)
              Sample.returns_void no_locals
  = ([], Normal (set_hasReturns no_locals true)).
Proof.
  exact (proj1 (return_description_unless_void (Cases.ctx None)
           (Sample.parser [Sample.returns_void]) Sample.g Sample.open_function
           Cases.comment [] [] Sample.returns_void [] no_locals
           {| returnPresent := false |} (NameExpression "void")
           eq_refl eq_refl eq_refl eq_refl eq_refl eq_refl (or_introl eq_refl))).
Defined.

(** X12. A type named like a property that every object inherits is
    reported: the lookup [map[name.toLowerCase()]] finds [Object] for a name
    that is [constructor] in lower case and [Object.prototype] for
    [__proto__], so the check reports the name although the map has no
    preferred spelling for it, with that object as the expected name. *)
Theorem inherited_names_reported
        (c : Comment) (t : Tag) (name l : string) :
  tag_type t = Some (NameExpression name) ->
  JS.array_get (JS.split_lines (value c)) (tag_lineNumber t) = Some l ->
  (JS.toLowerCase name = "constructor" ->
   check_type_name c t
   = ([diagnostic c
         (at_line_column (loc_start_line c + tag_lineNumber t)
                         (loc_start_column c + 1 + JS.indexOf l name))
         Msg.expected_type_name
         [("name", JS.VObjectConstructor); ("jsdocName", JS.VStr name)]],
      Normal tt))
  /\ (JS.toLowerCase name = "__proto__" ->
      check_type_name c t
      = ([diagnostic c
            (at_line_column (loc_start_line c + tag_lineNumber t)
                            (loc_start_column c + 1 + JS.indexOf l name))
            Msg.expected_type_name
            [("name", JS.VObjectPrototype); ("jsdocName", JS.VStr name)]],
         Normal tt)).
Proof.
  intros Ht Hl. unfold check_type_name, lines. rewrite Ht.
  split; intros ->; cbn; now rewrite Hl.
Qed.

Lemma inherited_names_reported_witness :
  check_type_name Cases.comment
    (Cases.tag "param" "make" (Some (NameExpression "Constructor")) None)
  = ([diagnostic Cases.comment (at_line_column 7 2) Msg.expected_type_name
        [("name", JS.VObjectConstructor); ("jsdocName", JS.VStr "Constructor")]],
     Normal tt).
Proof.
  exact (proj1 (inherited_names_reported Cases.comment
           (Cases.tag "param" "make" (Some (NameExpression "Constructor")) None)
           "Constructor" "* the function" eq_refl eq_refl) eq_refl).
Defined.

(** X1. When a function is left, the entry that [checkJSDoc] takes off the
    stack says whether a return statement with an argument stood in the
    function's own body: the returns of the functions nested in it, each
    entered and left in between, do not count. *)
Theorem exit_sees_direct_returns_only
        (ctx : Context) (parse : string -> ParseResult)
        (n : FunctionNode) (body : list Event)
        (fns fns' : Stack) (w : list Report) :
  balanced body ->
  run ctx parse (FunctionEnter n :: body) fns = (w, Normal tt, fns') ->
  fns' = fns ++ [{| returnPresent := direct_return 0 body |}]
  /\ JS.pop fns' = (Some {| returnPresent := direct_return 0 body |}, fns).
Proof.
  intros Hb Hrun. rewrite run_enter in Hrun.
  apply (run_balanced_top ctx parse body Hb) in Hrun. cbn [returnPresent orb] in Hrun.
  split; [exact Hrun|]. rewrite Hrun. apply (pop_push fns).
Qed.

Lemma exit_sees_direct_returns_only_witness :
  JS.pop [{| returnPresent := false |}]
  = (Some {| returnPresent := false |}, []).
Proof.
  exact (proj2 (exit_sees_direct_returns_only Sample.silent Sample.no_parser
           Cases.outer
           [ReturnSeen Sample.return_bare; FunctionEnter Cases.inner;
            ReturnSeen Sample.return_value; FunctionExit Cases.inner]
           [] [{| returnPresent := false |}] []
           (balanced_return Sample.return_bare
              (@balanced_function Cases.inner [ReturnSeen Sample.return_value] []
                 (balanced_return Sample.return_value balanced_nil) balanced_nil))
           eq_refl)).
Defined.

(** X2. Stripping the module markers drops each [module:] it meets from left
    to right and keeps every line break, so the text that is parsed has as
    many lines as the text whose lines the type name check looks up. *)
Theorem replace_module_keeps_lines (s : string) :
  JS.replace_module ("module:" ++ s)%string = JS.replace_module s
  /\ (forall a, String.prefix "module:" (String a s) = false ->
                JS.replace_module (String a s) = String a (JS.replace_module s))
  /\ List.length (JS.split_lines (JS.replace_module s))
     = List.length (JS.split_lines s).
Proof.
  split; [apply replace_module_match|].
  split; [intros a; apply replace_module_other|].
  now rewrite !split_lines_length, replace_module_newlines.
Qed.

Lemma replace_module_keeps_lines_witness :
  JS.replace_module "{module:shapes/Circle}" = String "{" (JS.replace_module "module:shapes/Circle}").
Proof.
  exact (proj1 (proj2 (replace_module_keeps_lines "module:shapes/Circle}")) "{"%char eq_refl).
Defined.

(* ------------------------------------------------------------------------ *)
(** ** The registry of documented parameters *)
(* ------------------------------------------------------------------------ *)

Lemma get_none_names (o : JS.Obj Tag) (k : string) :
  JS.get o k = None <-> existsb (String.eqb k) (List.map fst o) = false.
Proof.
  induction o as [|[k' v] o IH]; simpl; [tauto|].
  rewrite (String.eqb_sym k k').
  destruct (String.eqb k' k); simpl; [split; discriminate|exact IH].
Qed.

Lemma set_new_name (o : JS.Obj Tag) (k : string) (v : Tag) :
  JS.get o k = None -> JS.set o k v = o ++ [(k, v)].
Proof.
  induction o as [|[k' v'] o IH]; simpl; [reflexivity|].
  destruct (String.eqb k' k); [discriminate|].
  intros H. now rewrite IH.
Qed.

(** What one completed pass of the loop does to the registry. *)
Lemma check_tag_registry (ctx : Context) (c : Comment) (fd : option FunctionState)
      (t : Tag) (st st' : Locals) (w : list Report) :
  check_tag ctx c fd t st = (w, Normal st') ->
  params st'
  = if is_param t && undotted (tag_name t)
       && negb (existsb (String.eqb (tag_name t)) (List.map fst (params st)))
    then params st ++ [(tag_name t, t)] else params st.
Proof.
  intros H. pose proof (check_tag_params ctx c fd t st st' w H) as Hp.
  destruct (is_param t && undotted (tag_name t)
            && negb (existsb (String.eqb (tag_name t)) (List.map fst (params st)))) eqn:E.
  - apply andb_true_iff in E. destruct E as [E En].
    apply andb_true_iff in E. destruct E as [Ep Eu].
    apply negb_true_iff, get_none_names in En.
    apply String.eqb_eq in Ep. apply Z.eqb_eq in Eu.
    pose proof (check_tag_records ctx c fd t st st' w Ep Eu En H) as Hrec.
    destruct Hp as [Hp|(_ & _ & _ & Hp)].
    + rewrite Hp in Hrec. congruence.
    + rewrite Hp. now apply set_new_name.
  - destruct Hp as [Hp|(Hp1 & Hp2 & Hp3 & _)]; [exact Hp|].
    exfalso. unfold is_param, undotted in E.
    apply get_none_names in Hp2. rewrite Hp1, Hp3, Hp2 in E. discriminate.
Qed.

Lemma filter_not_in_snoc (ks : list string) (k : string) (l : list string) :
  List.filter (fun m => negb (existsb (String.eqb m) (ks ++ [k]))) l
  = List.filter (fun m => negb (existsb (String.eqb m) ks))
                (List.filter (fun m => negb (String.eqb m k)) l).
Proof.
  induction l as [|m l IH]; [reflexivity|]. simpl.
  rewrite existsb_app. simpl. rewrite orb_false_r.
  destruct (String.eqb m k); simpl.
  - rewrite orb_true_r. exact IH.
  - rewrite orb_false_r. destruct (existsb (String.eqb m) ks); simpl; now rewrite IH.
Qed.

Lemma filter_not_in_known (ks : list string) (k : string) (l : list string) :
  existsb (String.eqb k) ks = true ->
  List.filter (fun m => negb (existsb (String.eqb m) ks))
              (List.filter (fun m => negb (String.eqb m k)) l)
  = List.filter (fun m => negb (existsb (String.eqb m) ks)) l.
Proof.
  intros Hk. induction l as [|m l IH]; [reflexivity|]. simpl.
  destruct (String.eqb_spec m k) as [->|Hne]; simpl.
  - now rewrite Hk.
  - now rewrite IH.
Qed.

Lemma param_names_cons (t : Tag) (tags : list Tag) :
  param_names (t :: tags)
  = if is_param t && undotted (tag_name t)
    then tag_name t :: param_names tags else param_names tags.
Proof.
  unfold param_names. simpl.
  destruct (is_param t); simpl; [|reflexivity].
  now destruct (undotted (tag_name t)).
Qed.

(** The duplicate reports of one completed pass. *)
Lemma check_tag_duplicates (ctx : Context) (c : Comment) (fd : option FunctionState)
      (t : Tag) (st st' : Locals) (w : list Report) :
  check_tag ctx c fd t st = (w, Normal st') ->
  count_message Msg.duplicate_param w
  = if is_param t && existsb (String.eqb (tag_name t)) (List.map fst (params st))
    then 1%nat else 0%nat.
Proof.
  intros H. unfold count_message.
  apply (check_tag_select_title ctx c fd
           (fun r => String.eqb (message r) Msg.duplicate_param)) in H;
    [|intros r [E|E]; rewrite E; reflexivity].
  destruct H as (wt & H & ->).
  apply check_title_case in H.
  destruct H as [[Hp ->]|[(Hp & _ & E)|(Hp & _ & ->)]]; rewrite Hp.
  - rewrite check_param_reports.
    destruct (JS.get (params st) (tag_name t)) as [t0|] eqn:Eg.
    + assert (Hex : existsb (String.eqb (tag_name t)) (List.map fst (params st)) = true).
      { apply not_false_is_true. intros Hf. apply get_none_names in Hf. congruence. }
      rewrite Hex.
      destruct (JS.truthy_object (tag_type t)),
        (negb (JS.truthy_opt_string (tag_description t))
         && requireParamDescription ctx); reflexivity.
    + apply get_none_names in Eg. rewrite Eg.
      destruct (JS.truthy_object (tag_type t)),
        (negb (JS.truthy_opt_string (tag_description t))
         && requireParamDescription ctx); reflexivity.
  - rewrite (filter_none _ wt); [reflexivity|].
    pose proof (check_return_messages ctx c fd t st) as Hm. unfold emits in Hm.
    rewrite E in Hm. eapply Forall_impl; [|exact Hm].
    intros r [Hu|[Hu|Hu]]; [now apply unexpected_not|now rewrite Hu..].
  - reflexivity.
Qed.

Lemma known_name_undotted (ks : list string) (k : string) :
  Forall (fun m => undotted m = true) ks ->
  existsb (String.eqb k) ks = true -> undotted k = true.
Proof.
  intros Hall H. apply existsb_exists in H. destruct H as (m & Hin & E).
  apply String.eqb_eq in E. subst m. rewrite Forall_forall in Hall. now apply Hall.
Qed.

(** The registry after the loop, from the one it started with. *)
Lemma forEach_tags_registry (ctx : Context) (c : Comment) (fd : option FunctionState)
      (tags : list Tag) (st st' : Locals) (w : list Report) :
  Forall (fun m => undotted m = true) (List.map fst (params st)) ->
  forEach_tags ctx c fd tags st = (w, Normal st') ->
  List.map fst (params st')
  = List.map fst (params st)
      ++ List.filter (fun m => negb (existsb (String.eqb m) (List.map fst (params st))))
           (first_occurrences (param_names tags))
  /\ (count_message Msg.duplicate_param w + List.length (params st')
      = List.length (params st) + List.length (param_names tags))%nat.
Proof.
  revert st w. induction tags as [|t tags IH]; intros st w Hinv; simpl.
  - intros [= <- <-]. cbn. rewrite app_nil_r. split; [reflexivity|lia].
  - intros H. apply bind_normal in H. destruct H as (w1 & st1 & w2 & H1 & H2 & ->).
    pose proof (check_tag_registry ctx c fd t st st1 w1 H1) as Hreg.
    pose proof (check_tag_duplicates ctx c fd t st st1 w1 H1) as Hdup.
    rewrite param_names_cons, count_message_app.
    set (K := List.map fst (params st)) in *.
    destruct (is_param t) eqn:Ep, (undotted (tag_name t)) eqn:Eu,
      (existsb (String.eqb (tag_name t)) K) eqn:Ek;
      cbn [andb negb] in Hreg, Hdup |- *;
      try (pose proof (known_name_undotted K (tag_name t) Hinv Ek); congruence).
    + (* a known name again *)
      destruct (IH st1 w2) as [IHk IHn]; [now rewrite Hreg|exact H2|].
      rewrite Hreg in IHk, IHn. fold K in IHk. split.
      * rewrite IHk. cbn [first_occurrences List.filter]. rewrite Ek. cbn [negb].
        now rewrite filter_not_in_known.
      * simpl List.length. lia.
    + (* a new name *)
      destruct (IH st1 w2) as [IHk IHn].
      * rewrite Hreg, map_app. apply Forall_app. split; [exact Hinv|].
        repeat constructor. exact Eu.
      * exact H2.
      * rewrite Hreg in IHk, IHn. rewrite map_app in IHk. cbn [List.map fst] in IHk.
        fold K in IHk. split.
        -- rewrite IHk. cbn [first_occurrences List.filter]. rewrite Ek. cbn [negb].
           rewrite filter_not_in_snoc, <- app_assoc. reflexivity.
        -- rewrite length_app in IHn. simpl List.length in *. lia.
    + (* a dotted name *)
      destruct (IH st1 w2) as [IHk IHn]; [now rewrite Hreg|exact H2|].
      rewrite Hreg in IHk, IHn. fold K in IHk. split; [exact IHk|lia].
    + destruct (IH st1 w2) as [IHk IHn]; [now rewrite Hreg|exact H2|].
      rewrite Hreg in IHk, IHn. fold K in IHk. split; [exact IHk|lia].
    + destruct (IH st1 w2) as [IHk IHn]; [now rewrite Hreg|exact H2|].
      rewrite Hreg in IHk, IHn. fold K in IHk. split; [exact IHk|lia].
    + destruct (IH st1 w2) as [IHk IHn]; [now rewrite Hreg|exact H2|].
      rewrite Hreg in IHk, IHn. fold K in IHk. split; [exact IHk|lia].
Qed.

Lemma filter_always (l : list string) :
  List.filter (fun m => negb (existsb (String.eqb m) [])) l = l.
Proof. induction l as [|m l IH]; [reflexivity|]. simpl. f_equal. exact IH. Qed.

Lemma first_occurrences_NoDup (l : list string) : NoDup (first_occurrences l).
Proof.
  induction l as [|n l IH]; simpl; constructor.
  - intros H. apply filter_In in H. destruct H as [_ H].
    now rewrite String.eqb_refl in H.
  - now apply NoDup_filter.
Qed.

Lemma first_occurrences_in (l : list string) (k : string) :
  In k (first_occurrences l) <-> In k l.
Proof.
  induction l as [|n l IH]; simpl; [tauto|]. split.
  - intros [H|H]; [auto|]. apply filter_In in H. right. now apply IH.
  - intros [H|H]; [auto|].
    destruct (String.eqb_spec k n) as [->|Hne]; [auto|].
    right. apply filter_In. split; [now apply IH|].
    now destruct (String.eqb_spec k n).
Qed.

Lemma index_keys_none (ks : list string) :
  Forall (fun k => JS.array_index k = None) ks -> JS.index_keys ks = [].
Proof.
  induction 1 as [|k ks Hk _ IH]; [reflexivity|]. simpl. now rewrite Hk.
Qed.

(** [Object.keys] lists names that are not array indices as they were
    added. *)
Lemma keys_insertion_order (o : JS.Obj Tag) :
  Forall (fun k => JS.array_index k = None) (List.map fst o) ->
  JS.keys o = List.map fst o.
Proof.
  intros H. unfold JS.keys. rewrite (index_keys_none _ H). simpl.
  induction H as [|k ks Hk _ IH]; [reflexivity|].
  simpl. unfold JS.is_index_key at 1. rewrite Hk. simpl. now rewrite IH.
Qed.

(** X5. After the loop the registry holds the names of the param tags that
    have no dot, each once and in the order in which the comment first
    gives them; a dotted name is never recorded.  These are the names the
    cross-check walks through, in this order, when none of them is an array
    index. *)
Theorem registry_holds_first_occurrences
        (ctx : Context) (c : Comment) (fd : option FunctionState)
        (tags : list Tag) (w : list Report) (st : Locals) :
  forEach_tags ctx c fd tags no_locals = (w, Normal st) ->
  List.map fst (params st) = first_occurrences (param_names tags)
  /\ NoDup (List.map fst (params st))
  /\ (forall k, In k (List.map fst (params st)) <->
                exists t, In t tags /\ tag_title t = "param" /\ tag_name t = k
                          /\ JS.indexOf k "." = (-1)%Z)
  /\ (Forall (fun k => JS.array_index k = None) (param_names tags) ->
      JS.keys (params st) = first_occurrences (param_names tags)).
Proof.
  intros Hloop.
  destruct (forEach_tags_registry ctx c fd tags no_locals st w (Forall_nil _) Hloop)
    as [Hkeys _].
  cbn [no_locals params List.map app] in Hkeys. rewrite filter_always in Hkeys.
  split; [exact Hkeys|]. split; [rewrite Hkeys; apply first_occurrences_NoDup|].
  split.
  - intros k. rewrite Hkeys, first_occurrences_in. unfold param_names.
    rewrite filter_In, in_map_iff. split.
    + intros [(t & <- & Hin) Hu]. apply filter_In in Hin. destruct Hin as [Hin Hp].
      exists t. repeat split; [exact Hin|now apply String.eqb_eq|now apply Z.eqb_eq].
    + intros (t & Hin & Ht & <- & Hu). split.
      * exists t. split; [reflexivity|]. apply filter_In. split; [exact Hin|].
        now apply String.eqb_eq.
      * now apply Z.eqb_eq.
  - intros Hidx. rewrite keys_insertion_order; [exact Hkeys|].
    rewrite Hkeys. rewrite Forall_forall in *. intros k Hk.
    apply Hidx. now apply first_occurrences_in.
Qed.

Lemma registry_holds_first_occurrences_witness :
  List.map fst
    (params (set_params no_locals
               [("a", Cases.tag "param" "a" None None);
                ("b", Cases.tag "param" "b" None None)]))
  = ["a"; "b"].
Proof.
  exact (proj1 (registry_holds_first_occurrences (Cases.ctx None) Cases.comment
           (Some {| returnPresent := false |})
           [Cases.tag "param" "a" None None;
            Cases.tag "param" "a.size" None None;
            Cases.tag "param" "b" None None;
            Cases.tag "param" "a" (Some (NameExpression "number")) None]
           _ _ eq_refl)).
Defined.

(** X6. Every param tag with an undotted name is either recorded or
    reported as a duplicate, and a param tag with a dotted name is
    neither: when the loop completes, the duplicate reports of [checkJSDoc]
    and the recorded names are together as many as the param tags with an
    undotted name. *)
Theorem duplicates_account_for_repeated_names
        (ctx : Context) (parse : string -> ParseResult)
        (n : FunctionNode) (fns : Stack) (c : Comment)
        (tags : list Tag) (w : list Report) (st : Locals) :
  getJSDocComment ctx n = Some c ->
  parse (JS.replace_module (value c)) = Parsed tags ->
  forEach_tags ctx c (JS.top fns) tags no_locals = (w, Normal st) ->
  (count_message Msg.duplicate_param (fst (fst (checkJSDoc ctx parse n fns)))
   + List.length (params st)
   = List.length (param_names tags))%nat.
Proof.
  intros Hc Hp Hloop.
  destruct (forEach_tags_registry ctx c (JS.top fns) tags no_locals st w
              (Forall_nil _) Hloop) as [_ Hcount].
  cbn [no_locals params List.length] in Hcount.
  unfold count_message in *.
  rewrite (checkJSDoc_select_loop ctx parse n fns c tags w st _ Hc Hp Hloop).
  - exact Hcount.
  - intros r [E|[E|E]]; rewrite E; reflexivity.
Qed.

Lemma duplicates_account_for_repeated_names_witness :
  (count_message Msg.duplicate_param
     (fst (fst (checkJSDoc (Cases.ctx None)
                  (Sample.parser [Cases.tag "param" "a" None None;
                                  Cases.tag "param" "a.size" None None;
                                  Cases.tag "param" "a.size" None None;
                                  Cases.tag "param" "a" None None])
                  Sample.add Sample.open_function)))
   + 1 = 2)%nat.
Proof.
  exact (duplicates_account_for_repeated_names (Cases.ctx None)
           (Sample.parser [Cases.tag "param" "a" None None;
                           Cases.tag "param" "a.size" None None;
                           Cases.tag "param" "a.size" None None;
                           Cases.tag "param" "a" None None])
           Sample.add Sample.open_function Cases.comment
           [Cases.tag "param" "a" None None;
            Cases.tag "param" "a.size" None None;
            Cases.tag "param" "a.size" None None;
            Cases.tag "param" "a" None None]
           _ _ eq_refl eq_refl eq_refl).
Defined.

(** X18. When the options' [prefer] has a key [hasOwnProperty],
    [checkJSDoc] fails on every comment with a tag: after the title-specific
    check of the first tag it calls [prefer.hasOwnProperty], which is the
    title stored under that key and not a function.  The reports are those
    of that one title-specific check; no preference, type name, missing
    return or cross-check report is made. *)
Theorem shadowed_hasOwnProperty_fails
        (ctx : Context) (parse : string -> ParseResult)
        (n : FunctionNode) (fns : Stack) (c : Comment)
        (t : Tag) (rest : list Tag) (v : string) (w : list Report) (st : Locals) :
  getJSDocComment ctx n = Some c ->
  parse (JS.replace_module (value c)) = Parsed (t :: rest) ->
  JS.get (prefer ctx) "hasOwnProperty" = Some v ->
  check_title ctx c (JS.top fns) t no_locals = (w, Normal st) ->
  fst (checkJSDoc ctx parse n fns) = (w, Throw (TypeError "hasOwnProperty")).
Proof.
  intros Hc Hp Hown Htitle.
  rewrite (checkJSDoc_parsed ctx parse n fns c (t :: rest) Hc Hp).
  unfold check_parsed. fold no_locals. cbn [forEach_tags]. unfold check_tag.
  rewrite Htitle, (check_prefer_shadowed ctx c t v Hown).
  cbn. now rewrite app_nil_r.
Qed.

Lemma shadowed_hasOwnProperty_fails_witness :
  fst (checkJSDoc (Cases.ctx Cases.shadowing)
         (Sample.parser [Cases.tag "param" "x" (Some (NameExpression "String")) None])
         Sample.f Sample.open_function)
  = ([diagnostic Cases.comment (at_line 7) Msg.missing_param_description
        [("name", JS.VStr "x")]],
     Throw (TypeError "hasOwnProperty")).
Proof.
  exact (shadowed_hasOwnProperty_fails (Cases.ctx Cases.shadowing)
           (Sample.parser [Cases.tag "param" "x" (Some (NameExpression "String")) None])
           Sample.f Sample.open_function Cases.comment
           (Cases.tag "param" "x" (Some (NameExpression "String")) None) []
           "x" _ _ eq_refl eq_refl eq_refl eq_refl).
Defined.
